(** * RxGuard: a shallow embedding of the label-pinning and policy core

    The development follows the TypeScript sources of the repository:
    - [utils.ts]      string helpers and the content hash,
    - [evidence.ts]   section extraction, canonical text, snapshots,
    - [policy.ts]     the rule engine ([evaluatePolicy]),
    - [openfda.ts]    the label source client, candidate selection and
                      ambiguity detection,
    - [labelCache.ts] the tiered resolution cache,
    - [rxguard.ts]    the proof card and the response composer.

    JavaScript strings are sequences of UTF-16 code units and are modelled
    as lists of code units ([N]); indices and lengths are integers ([Z]).
    Optional properties are [option]s.  A function that may throw returns
    a [Js.completion]; the functions of the cache thread the stores and
    the completion through a small monad.  The built-ins whose results
    rest on Unicode tables, on the locale or on floating-point parsing
    ([toLowerCase], [localeCompare], [Number]) are the fields of the class
    [Js.Host]: definitions and theorems hold for any engine;
    [BasicLatin.engine] evaluates them on Basic Latin text, and
    [Collation.engine] adds a collation order and the final sigma.  The
    content hash of the library is checked against SHA-256 as FIPS 180-4
    states it ([Fips]).  The label
    source answers a request with a response or rejects it, the document
    store and the bucket are finite maps that may refuse a write, and the
    baseline-model collaborator is a function of the request. *)

From Stdlib Require Import List ZArith NArith QArith Lqa Bool Ascii String DecimalString Lia.
From stdpp Require Import gmap.
Import ListNotations.

#[local] Close Scope Q_scope.
#[local] Open Scope Z_scope.
#[local] Open Scope list_scope.

(** ** Strings *)

Module Js.

(** A JavaScript string value: its UTF-16 code units. *)
Definition str := list N.

(** A string literal of the source whose characters are all ASCII. *)
Definition lit (s : string) : str :=
  List.map N_of_ascii (list_ascii_of_string s).

(** The [length] property of a string or of an array. *)
Definition len {A} (s : list A) : Z := Z.of_nat (List.length s).

(** Truthiness of a string: the empty string is the only falsy one. *)
Definition truthy (s : str) : bool :=
  match s with [] => false | _ :: _ => true end.

Definition str_eqb (a b : str) : bool := bool_decide (a = b).

(** [\s] of a regular expression, and the characters [trim] strips
    (WhiteSpace and LineTerminator of ECMA-262). *)
Definition isWhiteSpace (c : N) : bool :=
  ((9 <=? c) && (c <=? 13) || (c =? 32) || (c =? 160) || (c =? 5760)
   || (8192 <=? c) && (c <=? 8202) || (c =? 8232) || (c =? 8233)
   || (c =? 8239) || (c =? 8287) || (c =? 12288) || (c =? 65279))%N.

(** [[\r\n]] *)
Definition isCrLf (c : N) : bool := ((c =? 13) || (c =? 10))%N.

(** LineTerminator: what [.] does not match. *)
Definition isLineTerminator (c : N) : bool :=
  ((c =? 10) || (c =? 13) || (c =? 8232) || (c =? 8233))%N.

(** [\w] without the unicode flag: [[A-Za-z0-9_]]. *)
Definition isWordChar (c : N) : bool :=
  ((65 <=? c) && (c <=? 90) || (97 <=? c) && (c <=? 122)
   || (48 <=? c) && (c <=? 57) || (c =? 95))%N.

Definition space : N := 32%N.

(** [s.replace(/C+/g, ' ')] for a character class [C]: every maximal run
    of characters of the class becomes one space.  [inRun] tells whether
    the previous character belonged to the class. *)
Fixpoint replaceRuns (cls : N -> bool) (inRun : bool) (s : str) : str :=
  match s with
  | [] => []
  | c :: t =>
      if cls c
      then (if inRun then replaceRuns cls true t
            else space :: replaceRuns cls true t)
      else c :: replaceRuns cls false t
  end.

(** [s.replace(/C/g, '')]: the characters of the class are removed. *)
Definition removeAll (cls : N -> bool) (s : str) : str :=
  List.filter (fun c => negb (cls c)) s.

Fixpoint trimStart (s : str) : str :=
  match s with
  | [] => []
  | c :: t => if isWhiteSpace c then trimStart t else s
  end.

Definition trimEnd (s : str) : str := rev (trimStart (rev s)).

(** [s.trim()] *)
Definition trim (s : str) : str := trimEnd (trimStart s).

(** Relative index resolution of [slice]: a negative argument counts from
    the end, and the result is clamped to [0, len]. *)
Definition relIndex (n i : Z) : Z :=
  if i <? 0 then Z.max (n + i) 0 else Z.min i n.

(** [s.slice(from, to)] on strings and arrays alike. *)
Definition slice {A} (s : list A) (from to : Z) : list A :=
  let n := Z.of_nat (List.length s) in
  let a := relIndex n from in
  let b := relIndex n to in
  firstn (Z.to_nat (b - a)) (skipn (Z.to_nat a) s).

Fixpoint startsWith (h n : str) {struct n} : bool :=
  match n, h with
  | [], _ => true
  | _ :: _, [] => false
  | x :: n', y :: h' => (x =? y)%N && startsWith h' n'
  end.

Fixpoint indexOfFrom (h n : str) (i : Z) : Z :=
  if startsWith h n then i
  else match h with
       | [] => -1
       | _ :: t => indexOfFrom t n (i + 1)
       end.

(** [h.indexOf(n)]: the first position at which [n] occurs, or [-1]. *)
Definition indexOf (h n : str) : Z := indexOfFrom h n 0.

(** [h.includes(n)] *)
Definition includes (h n : str) : bool := 0 <=? indexOf h n.

(** [parts.join(sep)] *)
Fixpoint join (sep : str) (parts : list str) : str :=
  match parts with
  | [] => []
  | [p] => p
  | p :: rest => p ++ sep ++ join sep rest
  end.

Definition newline : str := [10%N].

(** Code-unit order on strings: the order of [<] on strings and of the
    default comparison of [Array.prototype.sort]. *)
Fixpoint compareUnits (a b : str) : comparison :=
  match a, b with
  | [], [] => Eq
  | [], _ :: _ => Lt
  | _ :: _, [] => Gt
  | x :: a', y :: b' =>
      match (x ?= y)%N with
      | Eq => compareUnits a' b'
      | c => c
      end
  end.

(** What is thrown: [new Error(message)] of the sources, the engine's
    [TypeError] (a property read of [undefined], a [fetch] that fails on
    the network), or the rejection of a collaborator (the document store,
    the bucket, the body of a response). *)
Inductive exn : Type :=
  | Error (message : str)
  | TypeError
  | Rejected.

(** What a call may end in: a value, or a thrown exception. *)
Inductive completion (A : Type) : Type :=
  | Return (a : A)
  | Throw (e : exn).
Arguments Return {A} a.
Arguments Throw {A} e.

(** [String(n)] for a non-negative integer. *)
Definition decimal (n : Z) : str :=
  List.map N_of_ascii
    (list_ascii_of_string (NilEmpty.string_of_uint (N.to_uint (Z.to_N n)))).

(** [Array.prototype.sort(cmp)].  The comparator is given by the sign of
    the number it returns ([Lt] negative, [Eq] zero, [Gt] positive).  The
    engine's sort is stable and, for a consistent comparator, returns the
    ordered permutation; stable insertion computes that permutation. *)
Fixpoint insertSorted {A} (cmp : A -> A -> comparison) (x : A) (l : list A) : list A :=
  match l with
  | [] => [x]
  | y :: t =>
      match cmp x y with
      | Gt => y :: insertSorted cmp x t
      | _ => x :: y :: t
      end
  end.

Definition sort {A} (cmp : A -> A -> comparison) (l : list A) : list A :=
  fold_right (insertSorted cmp) [] l.

(** [ToNumber] of a string: not-a-number, an infinity, or a finite
    double.  A finite double is a rational; only its value is kept, which
    is all that [!==], [Number.isFinite] and the sign of a difference
    observe (the difference of two distinct finite doubles is never zero
    and has the sign of the exact difference). *)
Inductive number : Type :=
  | NaN
  | Infinite (negative : bool)
  | Finite (value : Q).

(** The built-ins of the engine whose results depend on the Unicode
    tables, on the locale or on the reading of decimal literals.  The
    embedding is stated over any engine; [localeCompare] is known to be a
    consistent comparator (ECMA-262 requires a total ordering of all
    strings from it). *)
Class Host : Type := {
  toLowerCase : str -> str;
  Number : str -> number;
  localeCompare : str -> str -> Z;
  localeCompare_sgn :
    forall a b, Z.sgn (localeCompare a b) = - Z.sgn (localeCompare b a);
  localeCompare_trans :
    forall a b c,
      localeCompare a b <= 0 -> localeCompare b c <= 0 ->
      localeCompare a c <= 0
}.

(** *** UTF-8 and SHA-256, as [crypto.createHash('sha256')] computes them *)

Definition isHighSurrogate (c : N) : bool := ((0xD800 <=? c) && (c <=? 0xDBFF))%N.
Definition isLowSurrogate (c : N) : bool := ((0xDC00 <=? c) && (c <=? 0xDFFF))%N.

(** U+FFFD, which replaces an unpaired surrogate. *)
Definition replacementBytes : list N := [0xEF; 0xBF; 0xBD]%N.

Definition utf8OfCodePoint (cp : N) : list N :=
  (if cp <? 0x80 then [cp]
   else if cp <? 0x800 then
     [N.lor 0xC0 (N.shiftr cp 6); N.lor 0x80 (N.land cp 0x3F)]
   else if cp <? 0x10000 then
     [N.lor 0xE0 (N.shiftr cp 12);
      N.lor 0x80 (N.land (N.shiftr cp 6) 0x3F);
      N.lor 0x80 (N.land cp 0x3F)]
   else
     [N.lor 0xF0 (N.shiftr cp 18);
      N.lor 0x80 (N.land (N.shiftr cp 12) 0x3F);
      N.lor 0x80 (N.land (N.shiftr cp 6) 0x3F);
      N.lor 0x80 (N.land cp 0x3F)])%N.

(** What a string reads as after it went through its ['utf8'] bytes: an
    unpaired surrogate has become U+FFFD. *)
Fixpoint toWellFormed (s : str) : str :=
  match s with
  | [] => []
  | c :: t =>
      if isHighSurrogate c then
        match t with
        | d :: t' =>
            if isLowSurrogate d then c :: d :: toWellFormed t'
            else 0xFFFD%N :: toWellFormed t
        | [] => [0xFFFD%N]
        end
      else if isLowSurrogate c then 0xFFFD%N :: toWellFormed t
      else c :: toWellFormed t
  end.

(** The bytes of a string under the ['utf8'] encoding. *)
Fixpoint utf8Encode (s : str) : list N :=
  match s with
  | [] => []
  | c :: t =>
      if isHighSurrogate c then
        match t with
        | d :: t' =>
            if isLowSurrogate d
            then utf8OfCodePoint
                   (0x10000 + N.shiftl (c - 0xD800) 10 + (d - 0xDC00))%N
                   ++ utf8Encode t'
            else replacementBytes ++ utf8Encode t
        | [] => replacementBytes
        end
      else if isLowSurrogate c then replacementBytes ++ utf8Encode t
      else utf8OfCodePoint c ++ utf8Encode t
  end.

Module Sha256.

#[local] Open Scope N_scope.

Definition mask32 : N := 0xFFFFFFFF.
Definition add32 (x y : N) : N := N.land (x + y) mask32.
Definition rotr (n x : N) : N :=
  N.land (N.lor (N.shiftr x n) (N.shiftl x (32 - n))) mask32.
Definition not32 (x : N) : N := N.lxor x mask32.

Definition Ch (x y z : N) : N := N.lxor (N.land x y) (N.land (not32 x) z).
Definition Maj (x y z : N) : N :=
  N.lxor (N.lxor (N.land x y) (N.land x z)) (N.land y z).
Definition bigSigma0 (x : N) : N := N.lxor (N.lxor (rotr 2 x) (rotr 13 x)) (rotr 22 x).
Definition bigSigma1 (x : N) : N := N.lxor (N.lxor (rotr 6 x) (rotr 11 x)) (rotr 25 x).
Definition smallSigma0 (x : N) : N := N.lxor (N.lxor (rotr 7 x) (rotr 18 x)) (N.shiftr x 3).
Definition smallSigma1 (x : N) : N := N.lxor (N.lxor (rotr 17 x) (rotr 19 x)) (N.shiftr x 10).

(** The constants of FIPS 180-4 are fractional parts of roots of the
    first primes, on 32 bits. *)
Definition isPrime (n : nat) : bool :=
  forallb (fun d => negb (Nat.eqb (Nat.modulo n d) 0)) (seq 2 (n - 2)).

Definition primes : list N :=
  List.map N.of_nat (firstn 64 (List.filter isPrime (seq 2 310))).

(** The integer cube root of a number below [2 ^ 105], bit by bit. *)
Definition cubeRoot (n : N) : N :=
  fold_left
    (fun r bit => let c := r + N.shiftl 1 bit in if c * c * c <=? n then c else r)
    (rev (List.map N.of_nat (seq 0 35))) 0.

(** The round constants: the cube roots of the first 64 primes. *)
Definition K : list N :=
  Eval vm_compute in
    List.map (fun p => N.land (cubeRoot (N.shiftl p 96)) mask32) primes.

(** The initial hash value: the square roots of the first 8 primes. *)
Definition H0 : list N :=
  Eval vm_compute in
    List.map (fun p => N.land (N.sqrt (N.shiftl p 64)) mask32) (firstn 8 primes).

(** Big-endian bytes of a number, [n] of them. *)
Fixpoint bigEndian (n : nat) (x : N) : list N :=
  match n with
  | O => []
  | S m => N.land (N.shiftr x (8 * N.of_nat m)) 0xFF :: bigEndian m x
  end.

(** The message followed by the bit 1, zeros up to 56 modulo 64 bytes,
    and the length in bits on 64 bits. *)
Definition pad (msg : list N) : list N :=
  let n := N.of_nat (List.length msg) in
  let zeros := (119 - n mod 64) mod 64 in
  msg ++ [0x80] ++ repeat 0 (N.to_nat zeros) ++ bigEndian 8 (8 * n).

Fixpoint words (fuel : nat) (bytes : list N) : list N :=
  match fuel, bytes with
  | S f, a :: b :: c :: d :: rest =>
      (N.shiftl a 24 + N.shiftl b 16 + N.shiftl c 8 + d) :: words f rest
  | _, _ => []
  end.

(** The message schedule, latest word first. *)
Fixpoint extend (n : nat) (w : list N) : list N :=
  match n with
  | O => w
  | S m =>
      let next :=
        add32 (add32 (smallSigma1 (nth 1 w 0)) (nth 6 w 0))
              (add32 (smallSigma0 (nth 14 w 0)) (nth 15 w 0)) in
      extend m (next :: w)
  end.

Definition schedule (block : list N) : list N := rev (extend 48 (rev block)).

Definition round (st : list N) (kw : N * N) : list N :=
  match st with
  | [a; b; c; d; e; f; g; h] =>
      let t1 := add32 (add32 (add32 h (bigSigma1 e)) (add32 (Ch e f g) (fst kw))) (snd kw) in
      let t2 := add32 (bigSigma0 a) (Maj a b c) in
      [add32 t1 t2; a; b; c; add32 d t1; e; f; g]
  | _ => st
  end.

Definition compress (h : list N) (block : list N) : list N :=
  let st := fold_left round (combine K (schedule block)) h in
  List.map (fun p => add32 (fst p) (snd p)) (combine h st).

Fixpoint blocks (fuel : nat) (ws : list N) (h : list N) : list N :=
  match fuel, ws with
  | S f, _ :: _ => blocks f (skipn 16 ws) (compress h (firstn 16 ws))
  | _, _ => h
  end.

Definition digest (msg : list N) : list N :=
  let bytes := pad msg in
  let ws := words (List.length bytes) bytes in
  concat (List.map (bigEndian 4) (blocks (List.length ws) ws H0)).

End Sha256.

Definition hexDigit (n : N) : N :=
  (if n <? 10 then 48 + n else 87 + n)%N.

(** [digest('hex')]: two lowercase hexadecimal digits per byte. *)
Definition hex (bytes : list N) : str :=
  concat (List.map (fun b => [hexDigit (N.shiftr b 4); hexDigit (N.land b 15)]) bytes).

End Js.


(** ** Regular expressions

    The fragment of the pattern language that the rule table uses, under
    the flag [i] and without the flag [u]: literal characters, [.], [\b],
    sequencing, alternation and [+] on a single-character atom.  Matching
    is by backtracking with a continuation, alternatives tried from left
    to right and [+] greedy, as the engine does. *)

Module Regex.

Inductive atom : Type :=
  | Chr (c : N)
  | Any.

Inductive t : Type :=
  | Empty
  | Atom (a : atom)
  | WordBoundary
  | Seq (r1 r2 : t)
  | Alt (r1 r2 : t)
  | Plus (a : atom).

(** [Canonicalize] of a Basic Latin character under [i]: its upper case.
    No character outside Basic Latin canonicalizes into Basic Latin, so a
    Basic Latin pattern character matches its two cases and nothing else. *)
Definition canonicalize (c : N) : N :=
  (if (97 <=? c) && (c <=? 122) then c - 32 else c)%N.

Definition atomMatches (a : atom) (x : N) : bool :=
  match a with
  | Chr c => (canonicalize c =? canonicalize x)%N
  | Any => negb (Js.isLineTerminator x)
  end.

Definition isWordBefore (prev : option N) : bool :=
  match prev with Some c => Js.isWordChar c | None => false end.

Definition isWordAt (s : Js.str) : bool :=
  match s with c :: _ => Js.isWordChar c | [] => false end.

(** One or more characters of an atom, the longest run first. *)
Fixpoint plus (a : atom) (s : Js.str) (k : option N -> Js.str -> bool) : bool :=
  match s with
  | x :: rest => atomMatches a x && (plus a rest k || k (Some x) rest)
  | [] => false
  end.

(** [run r prev s k]: [r] matches a prefix of [s], the character before
    [s] being [prev], and the continuation accepts what follows. *)
Fixpoint run (r : t) (prev : option N) (s : Js.str)
    (k : option N -> Js.str -> bool) : bool :=
  match r with
  | Empty => k prev s
  | Atom a =>
      match s with
      | x :: rest => atomMatches a x && k (Some x) rest
      | [] => false
      end
  | WordBoundary => xorb (isWordBefore prev) (isWordAt s) && k prev s
  | Seq r1 r2 => run r1 prev s (fun p rest => run r2 p rest k)
  | Alt r1 r2 => run r1 prev s k || run r2 prev s k
  | Plus a => plus a s k
  end.

Definition matchesAt (r : t) (prev : option N) (s : Js.str) : bool :=
  run r prev s (fun _ _ => true).

(** The index of the leftmost match, scanning start positions upwards. *)
Fixpoint execFrom (r : t) (prev : option N) (s : Js.str) (i : Z) : option Z :=
  if matchesAt r prev s then Some i
  else match s with
       | [] => None
       | x :: rest => execFrom r (Some x) rest (i + 1)
       end.

(** [text.match(r)?.index] for a pattern without the flag [g]. *)
Definition exec (r : t) (text : Js.str) : option Z := execFrom r None text 0.

(** [r.test(text)] *)
Definition test (r : t) (text : Js.str) : bool :=
  match exec r text with Some _ => true | None => false end.

(** A literal word of a pattern. *)
Fixpoint word (cs : Js.str) : t :=
  match cs with
  | [] => Empty
  | [c] => Atom (Chr c)
  | c :: rest => Seq (Atom (Chr c)) (word rest)
  end.

Definition text (s : string) : t := word (Js.lit s).

(** [a|b|c|...] *)
Fixpoint oneOf (r : t) (rs : list t) : t :=
  match rs with
  | [] => r
  | r' :: rest => Alt r (oneOf r' rest)
  end.

End Regex.

(** ** types.ts *)

Inductive PregnancyStatus : Type :=
  | preg_no | preg_trying | pregnant_t1 | pregnant_t2 | pregnant_t3 | preg_unknown.

Inductive Sex : Type := sex_M | sex_F | sex_Other | sex_Unknown.

Module RxGuardProfile.
Record t : Type := {
  age : option Z;
  sex : option Sex;
  pregnancy : option PregnancyStatus;
  conditions : option (list Js.str);
  currentMeds : option (list Js.str);
  allergies : option (list Js.str)
}.
End RxGuardProfile.

Inductive RiskLabel : Type := HIGH | MODERATE | LOW | UNKNOWN.

Inductive Decision : Type := BLOCK | CAUTION | CLARIFY | INFO.

Module EvidenceQuote.
Record t : Type := {
  section : Js.str;
  quote : Js.str;
  reason : option Js.str
}.
End EvidenceQuote.

Module ProofCard.
Record t : Type := {
  source : Js.str;
  setId : Js.str;
  effectiveTime : Js.str;
  evidenceHash : Js.str;
  quotes : list EvidenceQuote.t
}.
End ProofCard.

Module OpenFdaNames.
Record t : Type := {
  brand_name : option (list Js.str);
  generic_name : option (list Js.str);
  substance_name : option (list Js.str);
  manufacturer_name : option (list Js.str)
}.
End OpenFdaNames.

Module OpenFdaLabelRecord.
Record t : Type := {
  id : option Js.str;
  set_id : option Js.str;
  effective_time : option Js.str;
  openfda : option OpenFdaNames.t;
  active_ingredient : option (list Js.str);
  boxed_warning : option (list Js.str);
  contraindications : option (list Js.str);
  warnings : option (list Js.str);
  warnings_and_cautions : option (list Js.str);
  drug_interactions : option (list Js.str);
  pregnancy : option (list Js.str);
  lactation : option (list Js.str);
  pediatric_use : option (list Js.str);
  geriatric_use : option (list Js.str);
  do_not_use : option (list Js.str);
  ask_doctor : option (list Js.str)
}.
End OpenFdaLabelRecord.

Module EvidenceSections.
Record t : Type := {
  activeIngredients : Js.str;
  boxedWarning : Js.str;
  contraindications : Js.str;
  warnings : Js.str;
  warningsAndCautions : Js.str;
  drugInteractions : Js.str;
  pregnancy : Js.str;
  lactation : Js.str;
  pediatricUse : Js.str;
  geriatricUse : Js.str;
  doNotUse : Js.str;
  askDoctor : Js.str
}.
End EvidenceSections.

Module LabelSnapshot.
Record t : Type := {
  setId : Js.str;
  effectiveTime : Js.str;
  evidenceHash : Js.str;
  evidenceText : Js.str;
  sections : EvidenceSections.t;
  brandNames : list Js.str;
  genericNames : list Js.str;
  activeIngredientsList : list Js.str
}.
End LabelSnapshot.

(** ** utils.ts *)

Module Utils.

(** [crypto.createHash('sha256').update(text, 'utf8').digest('hex')] *)
Definition sha256Hex (text : Js.str) : Js.str :=
  Js.hex (Js.Sha256.digest (Js.utf8Encode text)).

Definition safeOneLine (s : Js.str) : Js.str :=
  Js.trim (Js.replaceRuns Js.isCrLf false s).

Definition bytesUtf8 (s : Js.str) : Z := Z.of_nat (List.length (Js.utf8Encode s)).

Definition clamp (n min max : Z) : Z := Z.max min (Z.min max n).

Definition chunkTextAround (text : Js.str) (index radius : Z) : Js.str :=
  let start := clamp (index - radius) 0 (Js.len text) in
  let end_ := clamp (index + radius) 0 (Js.len text) in
  Js.trim (Js.slice text start end_).

(** [firstNonEmpty(...vals)]: the first value that is a string with
    something other than whitespace in it, or the empty string. *)
Fixpoint firstNonEmpty (vals : list (option Js.str)) : Js.str :=
  match vals with
  | [] => []
  | v :: rest =>
      match v with
      | Some s => if Js.len (Js.trim s) >? 0 then s else firstNonEmpty rest
      | None => firstNonEmpty rest
      end
  end.

(** [[^a-z0-9\s\-]] *)
Definition notKeyChar (c : N) : bool :=
  negb (((97 <=? c) && (c <=? 122) || (48 <=? c) && (c <=? 57))%N
        || Js.isWhiteSpace c || (c =? 45)%N).

Section WithHost.
Context `{Js.Host}.

Definition normalizeForKey (s : Js.str) : Js.str :=
  Js.replaceRuns Js.isWhiteSpace false
    (Js.removeAll notKeyChar
       (Js.replaceRuns Js.isWhiteSpace false
          (Js.trim (Js.toLowerCase s)))).

Definition normalizeForMatch (s : Js.str) : Js.str :=
  Js.trim (Js.replaceRuns Js.isWhiteSpace false (Js.toLowerCase s)).

End WithHost.
End Utils.

(** ** evidence.ts *)

Module Evidence.

Import Utils.

(** [joinSection(v?: string[] | string)] *)
Definition joinSection (v : option (list Js.str + Js.str)) : Js.str :=
  match v with
  | None => []
  | Some (inl items) => Js.join Js.newline (List.map safeOneLine items)
  | Some (inr s) => if Js.truthy s then safeOneLine s else []
  end.

(** A field of the record, typed [string[] | undefined]. *)
Definition field (v : option (list Js.str)) : option (list Js.str + Js.str) :=
  option_map inl v.

Definition extractEvidenceSections (record : OpenFdaLabelRecord.t) : EvidenceSections.t :=
  {| EvidenceSections.activeIngredients := joinSection (field (OpenFdaLabelRecord.active_ingredient record));
     EvidenceSections.boxedWarning := joinSection (field (OpenFdaLabelRecord.boxed_warning record));
     EvidenceSections.contraindications := joinSection (field (OpenFdaLabelRecord.contraindications record));
     EvidenceSections.warnings := joinSection (field (OpenFdaLabelRecord.warnings record));
     EvidenceSections.warningsAndCautions := joinSection (field (OpenFdaLabelRecord.warnings_and_cautions record));
     EvidenceSections.drugInteractions := joinSection (field (OpenFdaLabelRecord.drug_interactions record));
     EvidenceSections.pregnancy := joinSection (field (OpenFdaLabelRecord.pregnancy record));
     EvidenceSections.lactation := joinSection (field (OpenFdaLabelRecord.lactation record));
     EvidenceSections.pediatricUse := joinSection (field (OpenFdaLabelRecord.pediatric_use record));
     EvidenceSections.geriatricUse := joinSection (field (OpenFdaLabelRecord.geriatric_use record));
     EvidenceSections.doNotUse := joinSection (field (OpenFdaLabelRecord.do_not_use record));
     EvidenceSections.askDoctor := joinSection (field (OpenFdaLabelRecord.ask_doctor record)) |}.

(** The titles of the canonical text with the section each one heads, in
    the order of the source. *)
Definition parts (sections : EvidenceSections.t) : list (Js.str * Js.str) :=
  [ (Js.lit "ACTIVE INGREDIENTS", EvidenceSections.activeIngredients sections);
    (Js.lit "BOXED WARNING", EvidenceSections.boxedWarning sections);
    (Js.lit "CONTRAINDICATIONS", EvidenceSections.contraindications sections);
    (Js.lit "WARNINGS", EvidenceSections.warnings sections);
    (Js.lit "WARNINGS AND CAUTIONS", EvidenceSections.warningsAndCautions sections);
    (Js.lit "DRUG INTERACTIONS", EvidenceSections.drugInteractions sections);
    (Js.lit "PREGNANCY", EvidenceSections.pregnancy sections);
    (Js.lit "LACTATION", EvidenceSections.lactation sections);
    (Js.lit "PEDIATRIC USE", EvidenceSections.pediatricUse sections);
    (Js.lit "GERIATRIC USE", EvidenceSections.geriatricUse sections);
    (Js.lit "DO NOT USE", EvidenceSections.doNotUse sections);
    (Js.lit "ASK A DOCTOR", EvidenceSections.askDoctor sections) ].

(** [`=== ${title} ===\n`] *)
Definition header (title : Js.str) : Js.str :=
  Js.lit "=== " ++ title ++ Js.lit " ===" ++ Js.newline.

Definition renderPart (p : Js.str * Js.str) : Js.str :=
  let clean := Js.trim (Js.replaceRuns Js.isWhiteSpace false (safeOneLine (snd p))) in
  header (fst p) ++ clean.

Definition buildCanonicalEvidenceText (sections : EvidenceSections.t) : Js.str :=
  Js.join (Js.newline ++ Js.newline) (List.map renderPart (parts sections)).

Definition missingIdentityMessage : Js.str :=
  Js.lit "openFDA record missing set_id/effective_time; cannot pin evidence.".

Definition buildLabelSnapshot (record : OpenFdaLabelRecord.t) : Js.completion LabelSnapshot.t :=
  let setId := default [] (OpenFdaLabelRecord.set_id record) in
  let effectiveTime := default [] (OpenFdaLabelRecord.effective_time record) in
  if negb (Js.truthy setId) || negb (Js.truthy effectiveTime)
  then Js.Throw (Js.Error missingIdentityMessage)
  else
    let sections := extractEvidenceSections record in
    let evidenceText := buildCanonicalEvidenceText sections in
    let evidenceHash := sha256Hex evidenceText in
    let brandNames :=
      default [] (OpenFdaLabelRecord.openfda record ≫= OpenFdaNames.brand_name) in
    let genericNames :=
      default [] (OpenFdaLabelRecord.openfda record ≫= OpenFdaNames.generic_name) in
    let activeIngredientsList :=
      default [] (OpenFdaLabelRecord.active_ingredient record) in
    Js.Return
      {| LabelSnapshot.setId := setId;
         LabelSnapshot.effectiveTime := effectiveTime;
         LabelSnapshot.evidenceHash := evidenceHash;
         LabelSnapshot.evidenceText := evidenceText;
         LabelSnapshot.sections := sections;
         LabelSnapshot.brandNames := brandNames;
         LabelSnapshot.genericNames := genericNames;
         LabelSnapshot.activeIngredientsList := activeIngredientsList |}.

Section WithHost.
Context `{Js.Host}.

Definition quoteExistsInEvidence (evidenceText quote : Js.str) : bool :=
  let ev := normalizeForMatch evidenceText in
  let q := normalizeForMatch quote in
  Js.truthy q && Js.includes ev q.

End WithHost.
End Evidence.

(** ** policy.ts *)

Module Policy.

Import Utils.

Module PolicyResult.
Record t : Type := {
  decision : Decision;
  risk : RiskLabel;
  rulesTriggered : list Js.str;
  clarifyingQuestion : option Js.str;
  quotes : list EvidenceQuote.t
}.
End PolicyResult.

(** The keys of [LabelSnapshot['sections']]. *)
Inductive SectionKey : Type :=
  | activeIngredients | boxedWarning | contraindications | warnings
  | warningsAndCautions | drugInteractions | pregnancy | lactation
  | pediatricUse | geriatricUse | doNotUse | askDoctor.

Inductive RuleSection : Type :=
  | Key (k : SectionKey)
  | CANONICAL.

Module KeywordRule.
Record t : Type := {
  id : Js.str;
  section : RuleSection;
  pattern : Regex.t;
  reason : Js.str;
  severity : RiskLabel
}.
End KeywordRule.

Definition keyName (k : SectionKey) : Js.str :=
  match k with
  | activeIngredients => Js.lit "activeIngredients"
  | boxedWarning => Js.lit "boxedWarning"
  | contraindications => Js.lit "contraindications"
  | warnings => Js.lit "warnings"
  | warningsAndCautions => Js.lit "warningsAndCautions"
  | drugInteractions => Js.lit "drugInteractions"
  | pregnancy => Js.lit "pregnancy"
  | lactation => Js.lit "lactation"
  | pediatricUse => Js.lit "pediatricUse"
  | geriatricUse => Js.lit "geriatricUse"
  | doNotUse => Js.lit "doNotUse"
  | askDoctor => Js.lit "askDoctor"
  end.

Definition sectionAt (s : EvidenceSections.t) (k : SectionKey) : Js.str :=
  match k with
  | activeIngredients => EvidenceSections.activeIngredients s
  | boxedWarning => EvidenceSections.boxedWarning s
  | contraindications => EvidenceSections.contraindications s
  | warnings => EvidenceSections.warnings s
  | warningsAndCautions => EvidenceSections.warningsAndCautions s
  | drugInteractions => EvidenceSections.drugInteractions s
  | pregnancy => EvidenceSections.pregnancy s
  | lactation => EvidenceSections.lactation s
  | pediatricUse => EvidenceSections.pediatricUse s
  | geriatricUse => EvidenceSections.geriatricUse s
  | doNotUse => EvidenceSections.doNotUse s
  | askDoctor => EvidenceSections.askDoctor s
  end.

Definition BOXED_WARNING_PRESENT : Js.str := Js.lit "BOXED_WARNING_PRESENT".
Definition CONTRAINDICATION_MENTION : Js.str := Js.lit "CONTRAINDICATION_MENTION".
Definition PREGNANCY_RISK_LANGUAGE : Js.str := Js.lit "PREGNANCY_RISK_LANGUAGE".
Definition BLEEDING_RISK_LANGUAGE : Js.str := Js.lit "BLEEDING_RISK_LANGUAGE".
Definition RENAL_RISK_LANGUAGE : Js.str := Js.lit "RENAL_RISK_LANGUAGE".
Definition DRUG_INTERACTION_SECTION : Js.str := Js.lit "DRUG_INTERACTION_SECTION".
Definition PROFILE_ANTICOAGULANT_UPGRADE : Js.str := Js.lit "PROFILE_ANTICOAGULANT_UPGRADE".
Definition PROFILE_CKD_UPGRADE : Js.str := Js.lit "PROFILE_CKD_UPGRADE".
Definition INTERACTION_OTHER_MED_MENTIONED : Js.str := Js.lit "INTERACTION_OTHER_MED_MENTIONED".

Import Regex.

(** [/\b.+/i] *)
Definition boxedWarningPattern : Regex.t := Seq WordBoundary (Plus Any).

(** [/contraindicat(ed|ion)|\bdo not use\b|\bshould not\b|\bmust not\b/i] *)
Definition contraindicationPattern : Regex.t :=
  oneOf (Seq (text "contraindicat") (Alt (text "ed") (text "ion")))
    [ Seq WordBoundary (Seq (text "do not use") WordBoundary);
      Seq WordBoundary (Seq (text "should not") WordBoundary);
      Seq WordBoundary (Seq (text "must not") WordBoundary) ].

(** [/pregnan|fetal|embryo|teratogen|ductus arteriosus/i] *)
Definition pregnancyPattern : Regex.t :=
  oneOf (text "pregnan")
    [text "fetal"; text "embryo"; text "teratogen"; text "ductus arteriosus"].

(** [/bleed|hemorrhag|gastrointestinal|ulcer/i] *)
Definition bleedingPattern : Regex.t :=
  oneOf (text "bleed") [text "hemorrhag"; text "gastrointestinal"; text "ulcer"].

(** [/renal|kidney|nephro/i] *)
Definition renalPattern : Regex.t :=
  oneOf (text "renal") [text "kidney"; text "nephro"].

(** [/interact|concomitant|co-administration|avoid/i] *)
Definition interactionPattern : Regex.t :=
  oneOf (text "interact") [text "concomitant"; text "co-administration"; text "avoid"].

Definition BASE_RULES : list KeywordRule.t :=
  [ {| KeywordRule.id := BOXED_WARNING_PRESENT;
       KeywordRule.section := Key boxedWarning;
       KeywordRule.pattern := boxedWarningPattern;
       KeywordRule.reason := Js.lit "Boxed warning section is present.";
       KeywordRule.severity := HIGH |};
    {| KeywordRule.id := CONTRAINDICATION_MENTION;
       KeywordRule.section := Key contraindications;
       KeywordRule.pattern := contraindicationPattern;
       KeywordRule.reason := Js.lit "Contraindication / strong avoidance language appears.";
       KeywordRule.severity := HIGH |};
    {| KeywordRule.id := PREGNANCY_RISK_LANGUAGE;
       KeywordRule.section := Key pregnancy;
       KeywordRule.pattern := pregnancyPattern;
       KeywordRule.reason := Js.lit "Pregnancy-related risk language appears.";
       KeywordRule.severity := HIGH |};
    {| KeywordRule.id := BLEEDING_RISK_LANGUAGE;
       KeywordRule.section := CANONICAL;
       KeywordRule.pattern := bleedingPattern;
       KeywordRule.reason := Js.lit "Bleeding risk language appears.";
       KeywordRule.severity := MODERATE |};
    {| KeywordRule.id := RENAL_RISK_LANGUAGE;
       KeywordRule.section := CANONICAL;
       KeywordRule.pattern := renalPattern;
       KeywordRule.reason := Js.lit "Kidney/renal risk language appears.";
       KeywordRule.severity := MODERATE |};
    {| KeywordRule.id := DRUG_INTERACTION_SECTION;
       KeywordRule.section := Key drugInteractions;
       KeywordRule.pattern := interactionPattern;
       KeywordRule.reason := Js.lit "Drug interaction language appears.";
       KeywordRule.severity := MODERATE |} ].

Definition getSectionText (snapshot : LabelSnapshot.t) (key : RuleSection) : Js.str :=
  match key with
  | CANONICAL => LabelSnapshot.evidenceText snapshot
  | Key k => sectionAt (LabelSnapshot.sections snapshot) k
  end.

Definition extractQuote (text : Js.str) (pattern : Regex.t) : option Js.str :=
  match Regex.exec pattern text with
  | None => None
  | Some index =>
      let chunk := chunkTextAround text index 220 in
      if Js.truthy chunk then Some chunk else None
  end.

Definition order (r : RiskLabel) : Z :=
  match r with UNKNOWN => 0 | LOW => 1 | MODERATE => 2 | HIGH => 3 end.

Definition bumpRisk (current next : RiskLabel) : RiskLabel :=
  if order next >? order current then next else current.

Definition profileHasPregnancy (profile : option RxGuardProfile.t) : bool :=
  match profile ≫= RxGuardProfile.pregnancy with
  | None => false
  | Some p =>
      match p with
      | preg_no | preg_unknown => false
      | _ => true
      end
  end.

(** The variables of [evaluatePolicy] that the rule loop updates. *)
Record Running : Type := {
  rulesTriggered : list Js.str;
  quotes : list EvidenceQuote.t;
  risk : RiskLabel
}.

Definition quoteSection (key : RuleSection) : Js.str :=
  match key with
  | CANONICAL => Js.lit "LABEL"
  | Key k => keyName k
  end.

(** One turn of the loop over [BASE_RULES]. *)
Definition applyRule (snapshot : LabelSnapshot.t) (profile : option RxGuardProfile.t)
    (st : Running) (rule : KeywordRule.t) : Running :=
  let sectionText := getSectionText snapshot (KeywordRule.section rule) in
  if negb (Js.truthy sectionText) then st
  else if negb (Regex.test (KeywordRule.pattern rule) sectionText) then st
  else if Js.str_eqb (KeywordRule.id rule) PREGNANCY_RISK_LANGUAGE
          && negb (profileHasPregnancy profile) then st
  else
    {| rulesTriggered := rulesTriggered st ++ [KeywordRule.id rule];
       risk := bumpRisk (risk st) (KeywordRule.severity rule);
       quotes :=
         match extractQuote sectionText (KeywordRule.pattern rule) with
         | Some quote =>
             quotes st ++
             [ {| EvidenceQuote.section := quoteSection (KeywordRule.section rule);
                  EvidenceQuote.quote := quote;
                  EvidenceQuote.reason := Some (KeywordRule.reason rule) |} ]
         | None => quotes st
         end |}.

Definition noEvidenceQuestion : Js.str :=
  Js.lit "I could not retrieve the FDA label evidence for this medication. Can you provide the exact product name (and strength) from the package?".

Definition moreContextQuestion : Js.str :=
  Js.lit "To check safety, I need more context (dose/formulation, your conditions, and other meds). What exact product are you using (including strength), and are you taking any other medications?".

(** The horizontal ellipsis U+2026 and the quotation marks U+201C, U+201D. *)
Definition ellipsis : Js.str := [8230%N].
Definition leftQuote : Js.str := [8220%N].
Definition rightQuote : Js.str := [8221%N].

Section WithHost.
Context `{Js.Host}.

Definition profileHasCondition (profile : option RxGuardProfile.t) (keywords : list Js.str) : bool :=
  let cond := List.map normalizeForMatch (default [] (profile ≫= RxGuardProfile.conditions)) in
  existsb (fun k => existsb (fun c => Js.includes c (normalizeForMatch k)) cond) keywords.

Definition profileHasMed (profile : option RxGuardProfile.t) (med : Js.str) : bool :=
  let meds := List.map normalizeForMatch (default [] (profile ≫= RxGuardProfile.currentMeds)) in
  existsb (fun m => Js.includes m (normalizeForMatch med)) meds.

Definition anyOtherMedMentionedInInteractions
    (snapshot : LabelSnapshot.t) (otherMeds : list Js.str) : list Js.str :=
  let interactions :=
    normalizeForMatch (EvidenceSections.drugInteractions (LabelSnapshot.sections snapshot)) in
  List.filter
    (fun med =>
       let m := normalizeForMatch med in
       Js.truthy m && Js.includes interactions m)
    otherMeds.

Definition quoteAroundSubstring (haystack needle : Js.str) : option Js.str :=
  let h := normalizeForMatch haystack in
  let n := normalizeForMatch needle in
  let idx := Js.indexOf h n in
  if idx <? 0 then None
  else
    let rawIdx := Js.indexOf (Js.toLowerCase haystack) n in
    let around := chunkTextAround haystack (if rawIdx >=? 0 then rawIdx else 0) 220 in
    if Js.truthy around then Some around else None.

(** The quotes pushed for the interaction hits, in their order. *)
Definition interactionQuotes (snapshot : LabelSnapshot.t) (hits : list Js.str)
    : list EvidenceQuote.t :=
  flat_map
    (fun hit =>
       match quoteAroundSubstring
               (EvidenceSections.drugInteractions (LabelSnapshot.sections snapshot)) hit with
       | Some q =>
           [ {| EvidenceQuote.section := Js.lit "drugInteractions";
                EvidenceQuote.quote := q;
                EvidenceQuote.reason :=
                  Some (Js.lit "The interaction section mentions " ++ leftQuote
                          ++ hit ++ rightQuote ++ Js.lit ".") |} ]
       | None => []
       end)
    (Js.slice hits 0 3).

(** [evaluatePolicy] up to its decision mapping: the rule loop, the two
    profile upgrades and the cross-check of the other medications. *)
Definition runRules (snapshot : LabelSnapshot.t)
    (profile : option RxGuardProfile.t) (otherMeds : option (list Js.str))
    : Running :=
  (* Base label-text rules *)
  let st :=
    fold_left (applyRule snapshot profile) BASE_RULES
      {| rulesTriggered := []; quotes := []; risk := UNKNOWN |} in
  (* Simple profile-aware upgrades *)
  let anticoagulant :=
    profileHasMed profile (Js.lit "warfarin")
    || profileHasMed profile (Js.lit "apixaban")
    || profileHasMed profile (Js.lit "rivaroxaban")
    || profileHasMed profile (Js.lit "dabigatran") in
  let st :=
    if anticoagulant && existsb (Js.str_eqb BLEEDING_RISK_LANGUAGE) (rulesTriggered st)
    then {| rulesTriggered := rulesTriggered st ++ [PROFILE_ANTICOAGULANT_UPGRADE];
            quotes := quotes st;
            risk := bumpRisk (risk st) HIGH |}
    else st in
  let ckd :=
    profileHasCondition profile [Js.lit "ckd"; Js.lit "kidney"; Js.lit "renal"] in
  let st :=
    if ckd && existsb (Js.str_eqb RENAL_RISK_LANGUAGE) (rulesTriggered st)
    then {| rulesTriggered := rulesTriggered st ++ [PROFILE_CKD_UPGRADE];
            quotes := quotes st;
            risk := bumpRisk (risk st) HIGH |}
    else st in
  (* otherMeds mentioned in the interaction section *)
  let meds := List.filter Js.truthy (default [] otherMeds) in
  let interactionHits :=
    match meds with
    | [] => []
    | _ :: _ => anyOtherMedMentionedInInteractions snapshot meds
    end in
  match interactionHits with
  | [] => st
  | _ :: _ =>
      {| rulesTriggered := rulesTriggered st ++ [INTERACTION_OTHER_MED_MENTIONED];
         quotes := quotes st ++ interactionQuotes snapshot interactionHits;
         risk := bumpRisk (risk st) HIGH |}
  end.

Definition evaluatePolicy (snapshot : LabelSnapshot.t)
    (profile : option RxGuardProfile.t) (otherMeds : option (list Js.str))
    : PolicyResult.t :=
  let st := runRules snapshot profile otherMeds in
  (* Decision mapping *)
  let '(decision, clarifyingQuestion, risk) :=
    if negb (Js.truthy (LabelSnapshot.evidenceText snapshot))
    then (CLARIFY, Some noEvidenceQuestion, UNKNOWN)
    else
      match risk st with
      | HIGH => (BLOCK, None, risk st)
      | MODERATE => (CAUTION, None, risk st)
      | LOW => (INFO, None, risk st)
      | UNKNOWN => (CLARIFY, Some moreContextQuestion, risk st)
      end in
  (* At least one snippet for BLOCK/CAUTION *)
  let quotes :=
    match decision, quotes st with
    | (BLOCK | CAUTION), [] =>
        [ {| EvidenceQuote.section := Js.lit "LABEL";
             EvidenceQuote.quote :=
               Js.slice (LabelSnapshot.evidenceText snapshot) 0 280
               ++ (if Js.len (LabelSnapshot.evidenceText snapshot) >? 280
                   then ellipsis else []);
             EvidenceQuote.reason := Some (Js.lit "Label evidence snapshot (preview).") |} ]
    | _, qs => qs
    end in
  {| PolicyResult.decision := decision;
     PolicyResult.risk := risk;
     PolicyResult.rulesTriggered := rulesTriggered st;
     PolicyResult.clarifyingQuestion := clarifyingQuestion;
     PolicyResult.quotes := quotes |}.

End WithHost.
End Policy.

(** ** openfda.ts *)

Module OpenFdaClient.

Import Utils.

(** The request sent to the label source: the query parameters of the
    URL. *)
Record Request : Type := {
  search : Js.str;
  limit : Z;
  api_key : option Js.str
}.

(** The body read as JSON: [results] and [meta.results.total]. *)
Record Payload : Type := {
  results : option (list OpenFdaLabelRecord.t);
  total : option Z
}.

(** What comes back: the status, the body as text (empty when it cannot
    be read: [res.text().catch(() => '')]), and the body as JSON when it
    parses. *)
Record Response : Type := {
  status : Z;
  text : Js.str;
  json : option Payload
}.

Module OpenFdaSearchResult.
Record t : Type := {
  records : list OpenFdaLabelRecord.t;
  total : Z
}.
End OpenFdaSearchResult.

Definition doubleQuote : N := 34%N.
Definition backslash : N := 92%N.

Definition sanitizeTerm (term : Js.str) : Js.str :=
  Js.trim
    (Js.removeAll (fun c => (c =? doubleQuote)%N || (c =? backslash)%N)
       (safeOneLine term)).

Definition buildSearchExpr (drugName : Js.str) : Js.str :=
  let t := sanitizeTerm drugName in
  let quoted := [doubleQuote] ++ t ++ [doubleQuote] in
  Js.replaceRuns Js.isWhiteSpace false
    (Js.lit "(" ++ Js.newline ++ Js.lit "    openfda.brand_name:" ++ quoted
     ++ Js.lit " OR openfda.generic_name:" ++ quoted
     ++ Js.lit " OR openfda.substance_name:" ++ quoted
     ++ Js.newline ++ Js.lit "  )").

(** [fetch] answers the request with a response, or rejects (the network
    fails, the host does not resolve); the rejection is not caught and
    ends the call. *)
Definition fetchLabelCandidates (fetch : Request -> Js.completion Response)
    (envApiKey : option Js.str) (drugName : Js.str)
    (optLimit : option Z) (optApiKey : option Js.str)
    : Js.completion OpenFdaSearchResult.t :=
  let limit := Z.max 1 (Z.min (default 5 optLimit) 25) in
  let apiKey := match optApiKey with Some k => Some k | None => envApiKey end in
  match fetch {| search := buildSearchExpr drugName;
                 limit := limit;
                 api_key := match apiKey with
                            | Some k => if Js.truthy k then Some k else None
                            | None => None
                            end |} with
  | Js.Throw e => Js.Throw e
  | Js.Return res =>
      if status res =? 404 then Js.Return {| OpenFdaSearchResult.records := []; OpenFdaSearchResult.total := 0 |}
      else if negb ((200 <=? status res) && (status res <=? 299)) then
        Js.Throw
          (Js.Error (Js.lit "openFDA error " ++ Js.decimal (status res) ++ Js.lit ": "
                     ++ Js.slice (text res) 0 200))
      else
        match json res with
        | None => Js.Throw Js.Rejected
        | Some body =>
            let records := default [] (results body) in
            Js.Return {| OpenFdaSearchResult.records := records;
                         OpenFdaSearchResult.total := default (Js.len records) (total body) |}
        end
  end.

Definition normalizedActiveIngredientList `{Js.Host} (r : OpenFdaLabelRecord.t) : list Js.str :=
  let arr := default [] (OpenFdaLabelRecord.active_ingredient r) in
  Js.sort Js.compareUnits
    (List.filter Js.truthy (List.map (fun s => Js.toLowerCase (safeOneLine s)) arr)).

Record AmbiguityOption : Type := {
  record : OpenFdaLabelRecord.t;
  aiKey : Js.str
}.

Record Ambiguity : Type := {
  ambiguous : bool;
  options : list AmbiguityOption
}.

Section WithHost.
Context `{Js.Host}.

Definition effectiveTimeToNumber (effectiveTime : option Js.str) : Q :=
  match effectiveTime with
  | None => 0%Q
  | Some s =>
      if negb (Js.truthy s) then 0%Q
      else match Js.Number s with
           | Js.Finite n => n
           | _ => 0%Q
           end
  end.

(** [(a.id ?? a.set_id ?? '').toString()] *)
Definition stableId (r : OpenFdaLabelRecord.t) : Js.str :=
  match OpenFdaLabelRecord.id r with
  | Some i => i
  | None => default [] (OpenFdaLabelRecord.set_id r)
  end.

(** The comparator given to [sort], by the sign of its result. *)
Definition compareRecords (a b : OpenFdaLabelRecord.t) : comparison :=
  let ta := effectiveTimeToNumber (OpenFdaLabelRecord.effective_time a) in
  let tb := effectiveTimeToNumber (OpenFdaLabelRecord.effective_time b) in
  if negb (Qeq_bool tb ta) then (tb - ta ?= 0)%Q
  else (Js.localeCompare (stableId a) (stableId b) ?= 0).

Definition chooseDeterministicRecord (records : list OpenFdaLabelRecord.t)
    : option OpenFdaLabelRecord.t :=
  match records with
  | [] => None
  | _ :: _ => head (Js.sort compareRecords records)
  end.

Definition detectAmbiguity (records : list OpenFdaLabelRecord.t) : Ambiguity :=
  let options :=
    List.map
      (fun r =>
         let ai := normalizedActiveIngredientList r in
         {| record := r; aiKey := Js.join (Js.lit " | ") ai |})
      records in
  let unique : gset Js.str := list_to_set (List.map aiKey options) in
  {| ambiguous := (1 <? Z.of_nat (size unique)) && (1 <? Js.len records);
     options := options |}.

End WithHost.
End OpenFdaClient.

(** ** labelCache.ts *)

Module LabelCache.

Import Utils.

Inductive ResolutionKind : Type := ok | not_found | ambiguous.

(** An entry of [options]: what the caller is shown of a candidate. *)
Module LabelOption.
Record t : Type := {
  brandNames : list Js.str;
  genericNames : list Js.str;
  activeIngredients : list Js.str;
  setId : option Js.str;
  effectiveTime : option Js.str
}.
End LabelOption.

Module LabelResolutionResult.
Record t : Type := {
  kind : ResolutionKind;
  drugQuery : Js.str;
  normalizedDrugQuery : Js.str;
  snapshot : option LabelSnapshot.t;
  options : option (list LabelOption.t);
  reason : option Js.str
}.
End LabelResolutionResult.

(** A document of the collection [rxguard_labels].  The evidence text is
    inline or behind a storage path.  The [updatedAt] stamp is the wall
    clock's and is left out, as is the constant [source]. *)
Module LabelDoc.
Record t : Type := {
  setId : Js.str;
  effectiveTime : Js.str;
  evidenceHash : Js.str;
  evidenceText : option Js.str;
  evidenceStoragePath : option Js.str;
  sections : EvidenceSections.t;
  brandNames : option (list Js.str);
  genericNames : option (list Js.str);
  activeIngredientsList : option (list Js.str)
}.
End LabelDoc.

(** A document of the collection [rxguard_drug_index]. *)
Module IndexDoc.
Record t : Type := {
  docId : option Js.str;
  setId : Js.str;
  effectiveTime : Js.str
}.
End IndexDoc.

(** A write sent to the bucket ([file.save]) or to the document store
    ([set] on a label document, [set] on an index document). *)
Inductive Write : Type :=
  | SaveObject (storagePath text : Js.str)
  | SetLabel (docId : Js.str) (data : LabelDoc.t)
  | SetIndex (drugKey : Js.str) (data : IndexDoc.t).

(** The two in-process maps, the two collections of the document store
    and the objects of the bucket (each by the text it reads back as),
    and the writes that the services refuse for the time being, each with
    the rejection it gets.  A read is answered from the maps, the read of
    a missing object being rejected; a refused write is not applied, and
    its rejection, which no caller catches, ends the call with what was
    written before it. *)
Record Stores : Type := {
  memDrugToDocId : gmap Js.str Js.str;
  memDocIdToSnapshot : gmap Js.str LabelSnapshot.t;
  labels : gmap Js.str LabelDoc.t;
  drugIndex : gmap Js.str IndexDoc.t;
  bucket : gmap Js.str Js.str;
  refuses : Write -> option Js.exn
}.

Definition MAX_FIRESTORE_DOC_BYTES : Z := 900000.

(** Calls that read and write the stores and may throw; what was written
    before a throw stays written. *)
Definition M (A : Type) : Type := Stores -> Js.completion A * Stores.

Definition ret {A} (a : A) : M A := fun st => (Js.Return a, st).

Definition throw {A} (e : Js.exn) : M A := fun st => (Js.Throw e, st).

Definition bind {A B} (m : M A) (f : A -> M B) : M B :=
  fun st =>
    match m st with
    | (Js.Return a, st') => f a st'
    | (Js.Throw e, st') => (Js.Throw e, st')
    end.

Definition lift {A} (c : Js.completion A) : M A := fun st => (c, st).

Definition get : M Stores := fun st => (Js.Return st, st).

Definition modify (f : Stores -> Stores) : M () := fun st => (Js.Return (), f st).

(** An awaited write: refused with its rejection, or applied. *)
Definition send (w : Write) (apply : Stores -> Stores) : M () :=
  fun st =>
    match refuses st w with
    | Some e => (Js.Throw e, st)
    | None => (Js.Return (), apply st)
    end.

Declare Scope cache_scope.
Delimit Scope cache_scope with cache.
Notation "'let*' x ':=' m 'in' k" := (bind m (fun x => k))
  (at level 10, x pattern, m at level 100, k at level 200) : cache_scope.
#[local] Open Scope cache_scope.

Definition makeLabelDocId (snapshot : LabelSnapshot.t) : Js.str :=
  LabelSnapshot.setId snapshot ++ Js.lit "_" ++ LabelSnapshot.effectiveTime snapshot.

Definition readEvidenceTextFromStorage (storagePath : Js.str) : M Js.str :=
  let* st := get in
  match bucket st !! storagePath with
  | Some text => ret text
  | None => throw Js.Rejected
  end.

Definition writeEvidenceTextToStorage (storagePath text : Js.str) : M () :=
  send (SaveObject storagePath text) (fun st =>
    {| memDrugToDocId := memDrugToDocId st;
       memDocIdToSnapshot := memDocIdToSnapshot st;
       labels := labels st;
       drugIndex := drugIndex st;
       bucket := <[storagePath := Js.toWellFormed text]> (bucket st);
       refuses := refuses st |}).

Definition setMemDrugToDocId (drugKey docId : Js.str) : M () :=
  modify (fun st =>
    {| memDrugToDocId := <[drugKey := docId]> (memDrugToDocId st);
       memDocIdToSnapshot := memDocIdToSnapshot st;
       labels := labels st;
       drugIndex := drugIndex st;
       bucket := bucket st;
       refuses := refuses st |}).

Definition setMemDocIdToSnapshot (docId : Js.str) (snapshot : LabelSnapshot.t) : M () :=
  modify (fun st =>
    {| memDrugToDocId := memDrugToDocId st;
       memDocIdToSnapshot := <[docId := snapshot]> (memDocIdToSnapshot st);
       labels := labels st;
       drugIndex := drugIndex st;
       bucket := bucket st;
       refuses := refuses st |}).

(** [set(data, { merge: true })] on a label document: the fields given
    replace the stored ones, the others stay. *)
Definition mergeLabelDoc (old : option LabelDoc.t) (new : LabelDoc.t) : LabelDoc.t :=
  match old with
  | None => new
  | Some o =>
      {| LabelDoc.setId := LabelDoc.setId new;
         LabelDoc.effectiveTime := LabelDoc.effectiveTime new;
         LabelDoc.evidenceHash := LabelDoc.evidenceHash new;
         LabelDoc.evidenceText :=
           match LabelDoc.evidenceText new with
           | Some t => Some t
           | None => LabelDoc.evidenceText o
           end;
         LabelDoc.evidenceStoragePath :=
           match LabelDoc.evidenceStoragePath new with
           | Some p => Some p
           | None => LabelDoc.evidenceStoragePath o
           end;
         LabelDoc.sections := LabelDoc.sections new;
         LabelDoc.brandNames := LabelDoc.brandNames new;
         LabelDoc.genericNames := LabelDoc.genericNames new;
         LabelDoc.activeIngredientsList := LabelDoc.activeIngredientsList new |}
  end.

Definition setLabelDoc (docId : Js.str) (data : LabelDoc.t) : M () :=
  send (SetLabel docId data) (fun st =>
    {| memDrugToDocId := memDrugToDocId st;
       memDocIdToSnapshot := memDocIdToSnapshot st;
       labels := <[docId := mergeLabelDoc (labels st !! docId) data]> (labels st);
       drugIndex := drugIndex st;
       bucket := bucket st;
       refuses := refuses st |}).

(** Every field of an index document is given at each write, so the
    merge replaces the document. *)
Definition setIndexDoc (drugKey : Js.str) (data : IndexDoc.t) : M () :=
  send (SetIndex drugKey data) (fun st =>
    {| memDrugToDocId := memDrugToDocId st;
       memDocIdToSnapshot := memDocIdToSnapshot st;
       labels := labels st;
       drugIndex := <[drugKey := data]> (drugIndex st);
       bucket := bucket st;
       refuses := refuses st |}).

Definition truthyOpt (v : option Js.str) : option Js.str :=
  match v with
  | Some s => if Js.truthy s then Some s else None
  | None => None
  end.

Definition getSnapshotByDocId (docId : Js.str) : M (option LabelSnapshot.t) :=
  let* st := get in
  match memDocIdToSnapshot st !! docId with
  | Some mem => ret (Some mem)
  | None =>
      match labels st !! docId with
      | None => ret None
      | Some data =>
          let* evidenceText :=
            match truthyOpt (LabelDoc.evidenceText data) with
            | Some t => ret t
            | None =>
                match truthyOpt (LabelDoc.evidenceStoragePath data) with
                | Some path => readEvidenceTextFromStorage path
                | None => ret []
                end
            end in
          if negb (Js.truthy evidenceText) then ret None
          else
            let snapshot :=
              {| LabelSnapshot.setId := LabelDoc.setId data;
                 LabelSnapshot.effectiveTime := LabelDoc.effectiveTime data;
                 LabelSnapshot.evidenceHash := LabelDoc.evidenceHash data;
                 LabelSnapshot.evidenceText := evidenceText;
                 LabelSnapshot.sections := LabelDoc.sections data;
                 LabelSnapshot.brandNames := default [] (LabelDoc.brandNames data);
                 LabelSnapshot.genericNames := default [] (LabelDoc.genericNames data);
                 LabelSnapshot.activeIngredientsList :=
                   default [] (LabelDoc.activeIngredientsList data) |} in
            let* _ := setMemDocIdToSnapshot docId snapshot in
            ret (Some snapshot)
      end
  end.

Definition upsertSnapshot (snapshot : LabelSnapshot.t) (drugKey : Js.str) : M Js.str :=
  let docId := makeLabelDocId snapshot in
  let evidenceBytes := bytesUtf8 (LabelSnapshot.evidenceText snapshot) in
  let inline := evidenceBytes <=? MAX_FIRESTORE_DOC_BYTES in
  let evidenceText :=
    if inline then Some (LabelSnapshot.evidenceText snapshot) else None in
  let evidenceStoragePath :=
    if inline then None
    else Some (Js.lit "rxguard/labels/" ++ docId ++ Js.lit ".txt") in
  let* _ :=
    match evidenceStoragePath with
    | Some path => writeEvidenceTextToStorage path (LabelSnapshot.evidenceText snapshot)
    | None => ret ()
    end in
  let* _ :=
    setLabelDoc docId
      {| LabelDoc.setId := LabelSnapshot.setId snapshot;
         LabelDoc.effectiveTime := LabelSnapshot.effectiveTime snapshot;
         LabelDoc.evidenceHash := LabelSnapshot.evidenceHash snapshot;
         LabelDoc.evidenceText := truthyOpt evidenceText;
         LabelDoc.evidenceStoragePath := truthyOpt evidenceStoragePath;
         LabelDoc.sections := LabelSnapshot.sections snapshot;
         LabelDoc.brandNames := Some (LabelSnapshot.brandNames snapshot);
         LabelDoc.genericNames := Some (LabelSnapshot.genericNames snapshot);
         LabelDoc.activeIngredientsList :=
           Some (LabelSnapshot.activeIngredientsList snapshot) |} in
  let* _ := setMemDrugToDocId drugKey docId in
  let* _ := setMemDocIdToSnapshot docId snapshot in
  let* _ :=
    setIndexDoc drugKey
      {| IndexDoc.docId := Some docId;
         IndexDoc.setId := LabelSnapshot.setId snapshot;
         IndexDoc.effectiveTime := LabelSnapshot.effectiveTime snapshot |} in
  let* _ := setMemDrugToDocId drugKey docId in
  let* _ := setMemDocIdToSnapshot docId snapshot in
  ret docId.

Definition toOption (r : OpenFdaLabelRecord.t) : LabelOption.t :=
  {| LabelOption.brandNames :=
       default [] (OpenFdaLabelRecord.openfda r ≫= OpenFdaNames.brand_name);
     LabelOption.genericNames :=
       default [] (OpenFdaLabelRecord.openfda r ≫= OpenFdaNames.generic_name);
     LabelOption.activeIngredients := default [] (OpenFdaLabelRecord.active_ingredient r);
     LabelOption.setId := OpenFdaLabelRecord.set_id r;
     LabelOption.effectiveTime := OpenFdaLabelRecord.effective_time r |}.

Definition noRecordsReason : Js.str :=
  Js.lit "No openFDA label records matched this medication name.".
Definition ambiguousReason : Js.str :=
  Js.lit "Multiple label records matched this name with different active ingredients / formulations.".
Definition noSuitableReason : Js.str :=
  Js.lit "No suitable openFDA label record could be selected.".

Section WithHost.
Context `{Js.Host}.

(** The label source as the process reaches it: the endpoint and the
    [OPENFDA_API_KEY] of the environment. *)
Variable fetch : OpenFdaClient.Request -> Js.completion OpenFdaClient.Response.
Variable envApiKey : option Js.str.

Definition found (drugQuery normalizedDrugQuery : Js.str) (snapshot : LabelSnapshot.t)
    : LabelResolutionResult.t :=
  {| LabelResolutionResult.kind := ok;
     LabelResolutionResult.drugQuery := drugQuery;
     LabelResolutionResult.normalizedDrugQuery := normalizedDrugQuery;
     LabelResolutionResult.snapshot := Some snapshot;
     LabelResolutionResult.options := None;
     LabelResolutionResult.reason := None |}.

Definition notFound (drugQuery normalizedDrugQuery reason : Js.str)
    : LabelResolutionResult.t :=
  {| LabelResolutionResult.kind := not_found;
     LabelResolutionResult.drugQuery := drugQuery;
     LabelResolutionResult.normalizedDrugQuery := normalizedDrugQuery;
     LabelResolutionResult.snapshot := None;
     LabelResolutionResult.options := None;
     LabelResolutionResult.reason := Some reason |}.

(** Steps 2 to 4 of the resolution: the label source is asked. *)
Definition resolveFromSource (drugQuery normalizedDrugQuery : Js.str)
    : M LabelResolutionResult.t :=
  let* found_ :=
    lift (OpenFdaClient.fetchLabelCandidates fetch envApiKey drugQuery (Some 8) None) in
  let records := OpenFdaClient.OpenFdaSearchResult.records found_ in
  match records with
  | [] => ret (notFound drugQuery normalizedDrugQuery noRecordsReason)
  | _ :: _ =>
      let amb := OpenFdaClient.detectAmbiguity records in
      if OpenFdaClient.ambiguous amb then
        ret {| LabelResolutionResult.kind := ambiguous;
               LabelResolutionResult.drugQuery := drugQuery;
               LabelResolutionResult.normalizedDrugQuery := normalizedDrugQuery;
               LabelResolutionResult.snapshot := None;
               LabelResolutionResult.options :=
                 Some (List.map (fun o => toOption (OpenFdaClient.record o))
                         (Js.slice (OpenFdaClient.options amb) 0 5));
               LabelResolutionResult.reason := Some ambiguousReason |}
      else
        match OpenFdaClient.chooseDeterministicRecord records with
        | None => ret (notFound drugQuery normalizedDrugQuery noSuitableReason)
        | Some record =>
            let* snapshot := lift (Evidence.buildLabelSnapshot record) in
            let* docId := upsertSnapshot snapshot normalizedDrugQuery in
            let* reloaded := getSnapshotByDocId docId in
            ret (found drugQuery normalizedDrugQuery (default snapshot reloaded))
        end
  end.

(** Step 1: the index of the document store. *)
Definition resolveFromIndex (drugQuery normalizedDrugQuery : Js.str)
    : M LabelResolutionResult.t :=
  let* st := get in
  let cachedDocId :=
    truthyOpt (drugIndex st !! normalizedDrugQuery ≫= IndexDoc.docId) in
  let* cached :=
    match cachedDocId with
    | Some docId =>
        let* c := getSnapshotByDocId docId in
        ret (option_map (fun snapshot => (docId, snapshot)) c)
    | None => ret None
    end in
  match cached with
  | Some (docId, snapshot) =>
      let* _ := setMemDrugToDocId normalizedDrugQuery docId in
      ret (found drugQuery normalizedDrugQuery snapshot)
  | None => resolveFromSource drugQuery normalizedDrugQuery
  end.

Definition resolveDrugToPinnedLabel (drugQuery : Js.str) : M LabelResolutionResult.t :=
  let normalizedDrugQuery := normalizeForKey drugQuery in
  (* Step 0: the in-memory map *)
  let* st := get in
  let* cached :=
    match truthyOpt (memDrugToDocId st !! normalizedDrugQuery) with
    | Some memDocId => getSnapshotByDocId memDocId
    | None => ret None
    end in
  match cached with
  | Some snapshot => ret (found drugQuery normalizedDrugQuery snapshot)
  | None => resolveFromIndex drugQuery normalizedDrugQuery
  end.

End WithHost.
End LabelCache.

(** ** rxguard.ts *)

Module RxGuard.

Inductive NakedModel : Type := model_mistral_7b | model_llama3_8b | model_both.

Module RxGuardRequest.
Record t : Type := {
  question : Js.str;
  primaryDrug : option Js.str;
  otherMeds : option (list Js.str);
  profile : option RxGuardProfile.t;
  includeNakedModelAnswer : option bool;
  nakedModel : option NakedModel
}.
End RxGuardRequest.

Record Naked : Type := {
  mistral7b : option Js.str;
  llama3_8b : option Js.str
}.

Record Debug : Type := {
  primaryDrugResolved : option Js.str;
  rulesTriggered : list Js.str;
  labelDocId : option Js.str
}.

Module RxGuardResponse.
Record t : Type := {
  decision : Decision;
  risk : RiskLabel;
  message : Js.str;
  clarifyingQuestion : option Js.str;
  proofCard : option ProofCard.t;
  naked : option Naked;
  debug : option Debug
}.
End RxGuardResponse.

Definition disclaimer : Js.str :=
  Js.lit "Educational use only. RxGuard is NOT medical advice and cannot confirm safety. "
  ++ Js.lit "Always consult a licensed clinician or pharmacist for medication decisions.".

Definition riskName (r : RiskLabel) : Js.str :=
  match r with
  | HIGH => Js.lit "HIGH"
  | MODERATE => Js.lit "MODERATE"
  | LOW => Js.lit "LOW"
  | UNKNOWN => Js.lit "UNKNOWN"
  end.

(** [`(${i + 1}) [${q.section}] ${q.quote}`] *)
Definition snippet (i : nat) (q : EvidenceQuote.t) : Js.str :=
  Js.lit "(" ++ Js.decimal (Z.of_nat i + 1) ++ Js.lit ") [" ++ EvidenceQuote.section q
  ++ Js.lit "] " ++ EvidenceQuote.quote q.

Definition quoted (s : Js.str) : Js.str := Policy.leftQuote ++ s ++ Policy.rightQuote.

Definition buildCoreMessage (decision : Decision) (risk : RiskLabel)
    (primaryDrug : Js.str) (quotes : list EvidenceQuote.t)
    (clarifyingQuestion : option Js.str) : Js.str :=
  let qText := Js.join Js.newline (imap snippet (Js.slice quotes 0 3)) in
  let evidence :=
    Js.newline ++ Js.lit "Evidence snippets (verbatim):" ++ Js.newline ++ qText ++ Js.newline in
  match decision with
  | CLARIFY =>
      Js.lit "RxGuard needs clarification before it can evaluate " ++ quoted primaryDrug
      ++ Js.lit "." ++ Js.newline
      ++ match LabelCache.truthyOpt clarifyingQuestion with
         | Some q => Js.newline ++ Js.lit "Question: " ++ q ++ Js.newline
         | None => []
         end
      ++ Js.newline ++ disclaimer
  | BLOCK =>
      Js.lit "RxGuard BLOCKED the request (risk: " ++ riskName risk ++ Js.lit ") for "
      ++ quoted primaryDrug ++ Js.lit " based on FDA label evidence." ++ Js.newline
      ++ evidence ++ Js.newline ++ disclaimer
  | CAUTION =>
      Js.lit "RxGuard flags CAUTION (risk: " ++ riskName risk ++ Js.lit ") for "
      ++ quoted primaryDrug ++ Js.lit " based on FDA label evidence." ++ Js.newline
      ++ evidence ++ Js.newline ++ disclaimer
  | INFO =>
      Js.lit "RxGuard found no high-severity matches in the FDA label snapshot for "
      ++ quoted primaryDrug ++ Js.lit " given the info provided." ++ Js.newline
      ++ Js.lit "This does NOT mean it is safe. Review the label and consult a clinician/pharmacist."
      ++ Js.newline
      ++ (if Js.truthy qText then evidence else [])
      ++ Js.newline ++ disclaimer
  end.

Definition missingDrugMessage : Js.str :=
  Js.lit "RxGuard needs the exact medication name from the package to look up the correct FDA label."
  ++ Js.newline
  ++ Js.lit "Please enter the medication name (and ideally strength/dose)."
  ++ Js.newline ++ Js.newline ++ disclaimer.

Definition notFoundMessage (primaryDrug : Js.str) : Js.str :=
  Js.lit "RxGuard could not find an FDA drug label match for " ++ quoted primaryDrug
  ++ Js.lit "." ++ Js.newline
  ++ Js.lit "Try the generic name, or the exact product name from the bottle/box."
  ++ Js.newline ++ Js.newline ++ disclaimer.

(** The em dash U+2014. *)
Definition emDash : Js.str := [8212%N].

Definition optionLine (i : nat) (o : LabelCache.LabelOption.t) : Js.str :=
  let name :=
    match LabelCache.LabelOption.brandNames o, LabelCache.LabelOption.genericNames o with
    | b :: _, _ => b
    | [], g :: _ => g
    | [], [] => Js.lit "Unknown"
    end in
  let ai := Js.join (Js.lit "; ") (LabelCache.LabelOption.activeIngredients o) in
  Js.decimal (Z.of_nat i + 1) ++ Js.lit ") " ++ name ++ Js.lit " " ++ emDash
  ++ Js.lit " Active ingredients: " ++ (if Js.truthy ai then ai else Js.lit "unknown").

Definition ambiguousMessage (primaryDrug : Js.str)
    (options : list LabelCache.LabelOption.t) : Js.str :=
  Js.lit "Multiple different FDA label records matched " ++ quoted primaryDrug
  ++ Js.lit "." ++ Js.newline
  ++ Js.lit "To avoid mixing up formulations, RxGuard needs you to pick one."
  ++ Js.newline ++ Js.newline
  ++ Js.join Js.newline (imap optionLine options)
  ++ Js.newline ++ Js.newline ++ disclaimer.

Section WithHost.
Context `{Js.Host}.

Definition buildProofCard (setId effectiveTime evidenceHash evidenceText : Js.str)
    (quotes : list EvidenceQuote.t) : ProofCard.t :=
  let verified :=
    List.filter
      (fun q => Evidence.quoteExistsInEvidence evidenceText (EvidenceQuote.quote q))
      quotes in
  {| ProofCard.source := Js.lit "openFDA";
     ProofCard.setId := setId;
     ProofCard.effectiveTime := effectiveTime;
     ProofCard.evidenceHash := evidenceHash;
     ProofCard.quotes := verified |}.

(** Steps 2 and 3 of [rxguardAnswer]: what the response holds once the
    label is pinned, the baseline answers apart. *)
Definition answerFromSnapshot (input : RxGuardRequest.t) (primaryDrug : Js.str)
    (snapshot : LabelSnapshot.t) (naked : option Naked) : RxGuardResponse.t :=
  let policy :=
    Policy.evaluatePolicy snapshot (RxGuardRequest.profile input)
      (RxGuardRequest.otherMeds input) in
  let proofCard :=
    buildProofCard (LabelSnapshot.setId snapshot) (LabelSnapshot.effectiveTime snapshot)
      (LabelSnapshot.evidenceHash snapshot) (LabelSnapshot.evidenceText snapshot)
      (Policy.PolicyResult.quotes policy) in
  let message :=
    buildCoreMessage (Policy.PolicyResult.decision policy) (Policy.PolicyResult.risk policy)
      primaryDrug (ProofCard.quotes proofCard)
      (Policy.PolicyResult.clarifyingQuestion policy) in
  {| RxGuardResponse.decision := Policy.PolicyResult.decision policy;
     RxGuardResponse.risk := Policy.PolicyResult.risk policy;
     RxGuardResponse.message := message;
     RxGuardResponse.clarifyingQuestion := Policy.PolicyResult.clarifyingQuestion policy;
     RxGuardResponse.proofCard := Some proofCard;
     RxGuardResponse.naked := naked;
     RxGuardResponse.debug :=
       Some {| primaryDrugResolved := Some primaryDrug;
               rulesTriggered := Policy.PolicyResult.rulesTriggered policy;
               labelDocId :=
                 Some (LabelSnapshot.setId snapshot ++ Js.lit "_"
                       ++ LabelSnapshot.effectiveTime snapshot) |} |}.

(** The label source, and the baseline-model collaborator
    ([maybeGetNakedAnswers]), which is outside the core and whose answer
    enters the response as it comes. *)
Variable fetch : OpenFdaClient.Request -> Js.completion OpenFdaClient.Response.
Variable envApiKey : option Js.str.
Variable maybeGetNakedAnswers : RxGuardRequest.t -> option Naked.

Import LabelCache.
#[local] Open Scope cache_scope.

Definition rxguardAnswer (input : RxGuardRequest.t) : M RxGuardResponse.t :=
  let primaryDrug := Js.trim (default [] (RxGuardRequest.primaryDrug input)) in
  if negb (Js.truthy primaryDrug) then
    ret {| RxGuardResponse.decision := CLARIFY;
           RxGuardResponse.risk := UNKNOWN;
           RxGuardResponse.message := missingDrugMessage;
           RxGuardResponse.clarifyingQuestion :=
             Some (Js.lit "What exact medication name (and strength) is on the package?");
           RxGuardResponse.proofCard := None;
           RxGuardResponse.naked := None;
           RxGuardResponse.debug :=
             Some {| primaryDrugResolved := None;
                     rulesTriggered := [Js.lit "MISSING_PRIMARY_DRUG"];
                     labelDocId := None |} |}
  else
    let* resolution := resolveDrugToPinnedLabel fetch envApiKey primaryDrug in
    match LabelResolutionResult.kind resolution,
          LabelResolutionResult.snapshot resolution with
    | not_found, _ =>
        ret {| RxGuardResponse.decision := CLARIFY;
               RxGuardResponse.risk := UNKNOWN;
               RxGuardResponse.message := notFoundMessage primaryDrug;
               RxGuardResponse.clarifyingQuestion :=
                 Some (Js.lit "Can you provide the exact product name (and strength) from the package?");
               RxGuardResponse.proofCard := None;
               RxGuardResponse.naked := maybeGetNakedAnswers input;
               RxGuardResponse.debug :=
                 Some {| primaryDrugResolved := None;
                         rulesTriggered := [Js.lit "LABEL_NOT_FOUND"];
                         labelDocId := None |} |}
    | ambiguous, _ =>
        let options :=
          Js.slice (default [] (LabelResolutionResult.options resolution)) 0 4 in
        ret {| RxGuardResponse.decision := CLARIFY;
               RxGuardResponse.risk := UNKNOWN;
               RxGuardResponse.message := ambiguousMessage primaryDrug options;
               RxGuardResponse.clarifyingQuestion :=
                 Some (Js.lit "Which formulation is yours (active ingredients + strength)?");
               RxGuardResponse.proofCard := None;
               RxGuardResponse.naked := maybeGetNakedAnswers input;
               RxGuardResponse.debug :=
                 Some {| primaryDrugResolved := None;
                         rulesTriggered := [Js.lit "LABEL_AMBIGUOUS"];
                         labelDocId := None |} |}
    | ok, Some snapshot =>
        ret (answerFromSnapshot input primaryDrug snapshot (maybeGetNakedAnswers input))
    | ok, None =>
        (* [resolution.snapshot!] of a result without snapshot *)
        throw Js.TypeError
    end.

End WithHost.
End RxGuard.

(** ** A reference engine for evaluation on Basic Latin text *)

Module BasicLatin.

Definition lowerUnit (c : N) : N :=
  (if (65 <=? c) && (c <=? 90) then c + 32 else c)%N.

Definition toLowerCase (s : Js.str) : Js.str := List.map lowerUnit s.

Definition isDigit (c : N) : bool := ((48 <=? c) && (c <=? 57))%N.

Definition digitsValue (s : Js.str) : Z :=
  fold_left (fun acc c => 10 * acc + (Z.of_N c - 48)) s 0.

(** Decimal digit strings (the [YYYYMMDD] stamps of the label source); any
    other text is outside this reference engine and reads as [NaN]. *)
Definition Number (s : Js.str) : Js.number :=
  match s with
  | [] => Js.Finite (inject_Z 0)
  | _ :: _ => if forallb isDigit s then Js.Finite (inject_Z (digitsValue s)) else Js.NaN
  end.

Definition localeCompare (a b : Js.str) : Z :=
  match Js.compareUnits a b with Lt => -1 | Eq => 0 | Gt => 1 end.

Lemma compareUnits_sym (a b : Js.str) :
  Js.compareUnits b a = CompOpp (Js.compareUnits a b).
Proof.
  revert b; induction a as [|x a IH]; intros [|y b]; simpl; try reflexivity.
  rewrite (N.compare_antisym x y).
  destruct (x ?= y)%N; simpl; auto.
Qed.

Lemma compareUnits_trans (a b c : Js.str) :
  Js.compareUnits a b <> Gt -> Js.compareUnits b c <> Gt ->
  Js.compareUnits a c <> Gt.
Proof.
  revert b c; induction a as [|x a IH]; intros [|y b] [|z c]; simpl;
    try congruence.
  destruct (x ?= y)%N eqn:Exy; try congruence;
    destruct (y ?= z)%N eqn:Eyz; try congruence; intros Hab Hbc.
  - apply N.compare_eq_iff in Exy, Eyz; subst.
    rewrite N.compare_refl. eapply IH; eauto.
  - apply N.compare_eq_iff in Exy; subst. rewrite Eyz. congruence.
  - apply N.compare_eq_iff in Eyz; subst. rewrite Exy. congruence.
  - rewrite (N.lt_trans x y z Exy Eyz). congruence.
Qed.

Lemma localeCompare_sgn (a b : Js.str) :
  Z.sgn (localeCompare a b) = - Z.sgn (localeCompare b a).
Proof.
  unfold localeCompare. rewrite (compareUnits_sym a b).
  destruct (Js.compareUnits a b); reflexivity.
Qed.

Lemma localeCompare_trans (a b c : Js.str) :
  localeCompare a b <= 0 -> localeCompare b c <= 0 -> localeCompare a c <= 0.
Proof.
  unfold localeCompare. intros Hab Hbc.
  assert (H : Js.compareUnits a c <> Gt).
  { apply (compareUnits_trans a b c).
    - destruct (Js.compareUnits a b); [congruence | congruence | lia].
    - destruct (Js.compareUnits b c); [congruence | congruence | lia]. }
  destruct (Js.compareUnits a c); [lia | lia | congruence].
Qed.

Definition engine : Js.Host :=
  {| Js.toLowerCase := toLowerCase;
     Js.Number := Number;
     Js.localeCompare := localeCompare;
     Js.localeCompare_sgn := localeCompare_sgn;
     Js.localeCompare_trans := localeCompare_trans |}.

End BasicLatin.

(** ** An engine with collation and the final sigma

    [localeCompare] is sensitive to the locale: an engine built with
    collation tables does not follow the order of the code units.  This
    engine keeps of such a collation what it does to the letters of the
    Basic Latin block: [a] comes before [B], which the order of the code
    units puts first.  Its [toLowerCase] is the one of the Basic Latin
    block extended to the Greek capitals, among which the sigma depends
    on its context: after a letter and with no letter behind it, it
    becomes the final small sigma, elsewhere the small sigma. *)

Module Collation.

Definition isLetter (c : N) : bool :=
  ((65 <=? c) && (c <=? 90) || (97 <=? c) && (c <=? 122)
   || (913 <=? c) && (c <=? 937) || (945 <=? c) && (c <=? 969))%N.

Definition lowerUnit (c : N) : N :=
  (if (913 <=? c) && (c <=? 937) && negb (c =? 930) then c + 32
   else BasicLatin.lowerUnit c)%N.

Fixpoint lower (afterLetter : bool) (s : Js.str) : Js.str :=
  match s with
  | [] => []
  | c :: t =>
      (if (c =? 931)%N
       then if afterLetter && negb (match t with d :: _ => isLetter d | [] => false end)
            then 962%N
            else 963%N
       else lowerUnit c)
      :: lower (isLetter c) t
  end.

Definition toLowerCase (s : Js.str) : Js.str := lower false s.

Definition swapCase (c : N) : N :=
  (if (65 <=? c) && (c <=? 90) then c + 32
   else if (97 <=? c) && (c <=? 122) then c - 32
   else c)%N.

(** Letters compare without regard to case first; between two strings
    that differ by case only, the lower-case letter comes first. *)
Definition collate (a b : Js.str) : comparison :=
  match Js.compareUnits (List.map BasicLatin.lowerUnit a) (List.map BasicLatin.lowerUnit b) with
  | Eq => Js.compareUnits (List.map swapCase a) (List.map swapCase b)
  | c => c
  end.

Definition localeCompare (a b : Js.str) : Z :=
  match collate a b with Lt => -1 | Eq => 0 | Gt => 1 end.

Lemma units_eq (a b : Js.str) : Js.compareUnits a b = Eq -> a = b.
Proof.
  revert b; induction a as [|x a IH]; intros [|y b]; simpl; try congruence.
  destruct (x ?= y)%N eqn:Exy; try congruence.
  apply N.compare_eq_iff in Exy. subst y. intros Hab. f_equal. now apply IH.
Qed.

Lemma units_refl (a : Js.str) : Js.compareUnits a a = Eq.
Proof. induction a as [|x a IH]; simpl; [reflexivity |]. now rewrite N.compare_refl. Qed.

(** The strict part of the code-unit order is transitive. *)
Lemma units_lt_trans (a b c : Js.str) :
  Js.compareUnits a b = Lt -> Js.compareUnits b c = Lt -> Js.compareUnits a c = Lt.
Proof.
  intros Hab Hbc.
  destruct (Js.compareUnits a c) eqn:Hac; [| reflexivity |].
  - apply units_eq in Hac. subst c.
    rewrite (BasicLatin.compareUnits_sym a b), Hab in Hbc. discriminate.
  - exfalso. apply (BasicLatin.compareUnits_trans a b c); congruence.
Qed.

Lemma collate_sym (a b : Js.str) : collate b a = CompOpp (collate a b).
Proof.
  unfold collate.
  rewrite (BasicLatin.compareUnits_sym (List.map BasicLatin.lowerUnit a)).
  destruct (Js.compareUnits (List.map BasicLatin.lowerUnit a) (List.map BasicLatin.lowerUnit b));
    try reflexivity.
  apply BasicLatin.compareUnits_sym.
Qed.

Lemma collate_trans (a b c : Js.str) :
  collate a b <> Gt -> collate b c <> Gt -> collate a c <> Gt.
Proof.
  unfold collate.
  destruct (Js.compareUnits (List.map BasicLatin.lowerUnit a) (List.map BasicLatin.lowerUnit b))
    eqn:Hab; [| | congruence];
    destruct (Js.compareUnits (List.map BasicLatin.lowerUnit b) (List.map BasicLatin.lowerUnit c))
      eqn:Hbc; try congruence.
  - apply units_eq in Hab, Hbc. rewrite Hab, Hbc, units_refl.
    apply BasicLatin.compareUnits_trans.
  - apply units_eq in Hab. rewrite Hab, Hbc. congruence.
  - apply units_eq in Hbc. rewrite <- Hbc, Hab. congruence.
  - rewrite (units_lt_trans _ _ _ Hab Hbc). congruence.
Qed.

Lemma sgn_law (a b : Js.str) :
  Z.sgn (localeCompare a b) = - Z.sgn (localeCompare b a).
Proof.
  unfold localeCompare. rewrite (collate_sym a b).
  destruct (collate a b); reflexivity.
Qed.

Lemma trans_law (a b c : Js.str) :
  localeCompare a b <= 0 -> localeCompare b c <= 0 -> localeCompare a c <= 0.
Proof.
  unfold localeCompare. intros Hab Hbc.
  assert (Hac : collate a c <> Gt).
  { apply (collate_trans a b c).
    - destruct (collate a b); [congruence | congruence | lia].
    - destruct (collate b c); [congruence | congruence | lia]. }
  destruct (collate a c); [lia | lia | congruence].
Qed.

Definition engine : Js.Host :=
  {| Js.toLowerCase := toLowerCase;
     Js.Number := BasicLatin.Number;
     Js.localeCompare := localeCompare;
     Js.localeCompare_sgn := sgn_law;
     Js.localeCompare_trans := trans_law |}.

End Collation.

(** ** Sample data *)

Module Samples.

(** A label record with the given identifiers, active ingredients and
    drug-interaction texts, and no other section. *)
Definition label (id set_id effective_time : option Js.str)
    (active_ingredient drug_interactions : option (list Js.str))
    : OpenFdaLabelRecord.t :=
  {| OpenFdaLabelRecord.id := id;
     OpenFdaLabelRecord.set_id := set_id;
     OpenFdaLabelRecord.effective_time := effective_time;
     OpenFdaLabelRecord.openfda := None;
     OpenFdaLabelRecord.active_ingredient := active_ingredient;
     OpenFdaLabelRecord.boxed_warning := None;
     OpenFdaLabelRecord.contraindications := None;
     OpenFdaLabelRecord.warnings := None;
     OpenFdaLabelRecord.warnings_and_cautions := None;
     OpenFdaLabelRecord.drug_interactions := drug_interactions;
     OpenFdaLabelRecord.pregnancy := None;
     OpenFdaLabelRecord.lactation := None;
     OpenFdaLabelRecord.pediatric_use := None;
     OpenFdaLabelRecord.geriatric_use := None;
     OpenFdaLabelRecord.do_not_use := None;
     OpenFdaLabelRecord.ask_doctor := None |}.

Definition ibuprofen : OpenFdaLabelRecord.t :=
  label (Some (Js.lit "rec-1")) (Some (Js.lit "set-1")) (Some (Js.lit "20240101"))
    (Some [Js.lit "Ibuprofen 200 mg"])
    (Some [Js.lit "Avoid concomitant use with warfarin."]).

(** The same label under a boxed warning. *)
Definition boxed : OpenFdaLabelRecord.t :=
  {| OpenFdaLabelRecord.id := OpenFdaLabelRecord.id ibuprofen;
     OpenFdaLabelRecord.set_id := OpenFdaLabelRecord.set_id ibuprofen;
     OpenFdaLabelRecord.effective_time := OpenFdaLabelRecord.effective_time ibuprofen;
     OpenFdaLabelRecord.openfda := None;
     OpenFdaLabelRecord.active_ingredient := OpenFdaLabelRecord.active_ingredient ibuprofen;
     OpenFdaLabelRecord.boxed_warning := Some [Js.lit "WARNING: CARDIOVASCULAR RISK"];
     OpenFdaLabelRecord.contraindications := None;
     OpenFdaLabelRecord.warnings := None;
     OpenFdaLabelRecord.warnings_and_cautions := None;
     OpenFdaLabelRecord.drug_interactions := None;
     OpenFdaLabelRecord.pregnancy := None;
     OpenFdaLabelRecord.lactation := None;
     OpenFdaLabelRecord.pediatric_use := None;
     OpenFdaLabelRecord.geriatric_use := None;
     OpenFdaLabelRecord.do_not_use := None;
     OpenFdaLabelRecord.ask_doctor := None |}.

(** A record with a set identifier and no effective time. *)
Definition undated : OpenFdaLabelRecord.t :=
  label None (Some (Js.lit "set-1")) None None None.

Definition noSections : EvidenceSections.t :=
  {| EvidenceSections.activeIngredients := [];
     EvidenceSections.boxedWarning := [];
     EvidenceSections.contraindications := [];
     EvidenceSections.warnings := [];
     EvidenceSections.warningsAndCautions := [];
     EvidenceSections.drugInteractions := [];
     EvidenceSections.pregnancy := [];
     EvidenceSections.lactation := [];
     EvidenceSections.pediatricUse := [];
     EvidenceSections.geriatricUse := [];
     EvidenceSections.doNotUse := [];
     EvidenceSections.askDoctor := [] |}.

(** A snapshot with a boxed warning and no evidence text. *)
Definition withoutEvidence : LabelSnapshot.t :=
  {| LabelSnapshot.setId := Js.lit "set-1";
     LabelSnapshot.effectiveTime := Js.lit "20240101";
     LabelSnapshot.evidenceHash := Utils.sha256Hex [];
     LabelSnapshot.evidenceText := [];
     LabelSnapshot.sections :=
       {| EvidenceSections.activeIngredients := [];
          EvidenceSections.boxedWarning := Js.lit "WARNING: risk of serious bleeding";
          EvidenceSections.contraindications := [];
          EvidenceSections.warnings := [];
          EvidenceSections.warningsAndCautions := [];
          EvidenceSections.drugInteractions := [];
          EvidenceSections.pregnancy := [];
          EvidenceSections.lactation := [];
          EvidenceSections.pediatricUse := [];
          EvidenceSections.geriatricUse := [];
          EvidenceSections.doNotUse := [];
          EvidenceSections.askDoctor := [] |};
     LabelSnapshot.brandNames := [];
     LabelSnapshot.genericNames := [];
     LabelSnapshot.activeIngredientsList := [] |}.

(** An evidence text and two candidate quotes, one of the text up to case
    and spacing, one that the text does not hold. *)
Definition warningText : Js.str :=
  Js.lit "=== WARNINGS ===" ++ Js.newline ++ Js.lit "Avoid use with Warfarin.".

Definition verbatim : EvidenceQuote.t :=
  {| EvidenceQuote.section := Js.lit "warnings";
     EvidenceQuote.quote := Js.lit "avoid  use with WARFARIN";
     EvidenceQuote.reason := None |}.

Definition fabricated : EvidenceQuote.t :=
  {| EvidenceQuote.section := Js.lit "warnings";
     EvidenceQuote.quote := Js.lit "safe with warfarin";
     EvidenceQuote.reason := None |}.

(** Three candidates: an older one, and two of the same later date. *)
Definition candidates : list OpenFdaLabelRecord.t :=
  [ label (Some (Js.lit "c")) None (Some (Js.lit "20200101")) None None;
    label (Some (Js.lit "b")) None (Some (Js.lit "20210101")) None None;
    label None (Some (Js.lit "a")) (Some (Js.lit "20210101")) None None ].

(** Two candidates of the same date, whose identifiers differ by more
    than the case. *)
Definition cased : list OpenFdaLabelRecord.t :=
  [ label (Some (Js.lit "B")) None (Some (Js.lit "20210101")) None None;
    label (Some (Js.lit "a")) None (Some (Js.lit "20210101")) None None ].

(** A label whose interaction section is an array of 220 empty strings
    followed by two lines: the section text opens with 220 line feeds. *)
Definition paddedInteractions : OpenFdaLabelRecord.t :=
  label None (Some (Js.lit "set-1")) (Some (Js.lit "20240101")) None
    (Some (repeat [] 220 ++ [Js.lit "aspirin"; Js.lit "tablets"])).

(** Two candidates of different ingredient lists, a single ingredient
    named [a | b] and the two ingredients [a] and [b]. *)
Definition oneIngredient : OpenFdaLabelRecord.t :=
  label (Some (Js.lit "rec-1")) (Some (Js.lit "set-1")) (Some (Js.lit "20240101"))
    (Some [Js.lit "a | b"]) None.

Definition twoIngredients : OpenFdaLabelRecord.t :=
  label (Some (Js.lit "rec-2")) (Some (Js.lit "set-2")) (Some (Js.lit "20230101"))
    (Some [Js.lit "a"; Js.lit "b"]) None.

(** Stores that hold nothing. *)
Definition emptyStores : LabelCache.Stores :=
  {| LabelCache.memDrugToDocId := ∅;
     LabelCache.memDocIdToSnapshot := ∅;
     LabelCache.labels := ∅;
     LabelCache.drugIndex := ∅;
     LabelCache.bucket := ∅;
     LabelCache.refuses := fun _ => None |}.

(** A label source that answers every request with the given records. *)
Definition source (records : list OpenFdaLabelRecord.t)
    (_ : OpenFdaClient.Request) : Js.completion OpenFdaClient.Response :=
  Js.Return
    {| OpenFdaClient.status := 200;
       OpenFdaClient.text := [];
       OpenFdaClient.json :=
         Some {| OpenFdaClient.results := Some records;
                 OpenFdaClient.total := None |} |}.

(** A label source that cannot be reached: [fetch] rejects. *)
Definition unreachable (_ : OpenFdaClient.Request)
    : Js.completion OpenFdaClient.Response :=
  Js.Throw Js.TypeError.

(** The document store out of service for index documents. *)
Definition indexDown (w : LabelCache.Write) : option Js.exn :=
  match w with
  | LabelCache.SetIndex _ _ => Some Js.Rejected
  | _ => None
  end.

Definition noBaseline (_ : RxGuard.RxGuardRequest.t) : option RxGuard.Naked := None.

Definition request (primaryDrug : Js.str) (otherMeds : list Js.str)
    : RxGuard.RxGuardRequest.t :=
  {| RxGuard.RxGuardRequest.question := Js.lit "Is it safe?";
     RxGuard.RxGuardRequest.primaryDrug := Some primaryDrug;
     RxGuard.RxGuardRequest.otherMeds := Some otherMeds;
     RxGuard.RxGuardRequest.profile := None;
     RxGuard.RxGuardRequest.includeNakedModelAnswer := None;
     RxGuard.RxGuardRequest.nakedModel := None |}.

(** The rule of the table on bleeding language. *)
Definition bleedingRule : Policy.KeywordRule.t :=
  {| Policy.KeywordRule.id := Policy.BLEEDING_RISK_LANGUAGE;
     Policy.KeywordRule.section := Policy.CANONICAL;
     Policy.KeywordRule.pattern := Policy.bleedingPattern;
     Policy.KeywordRule.reason := Js.lit "Bleeding risk language appears.";
     Policy.KeywordRule.severity := MODERATE |}.

(** The snapshot constructed from a record that has its identity. *)
Definition snapshotOf (record : OpenFdaLabelRecord.t) : LabelSnapshot.t :=
  match Evidence.buildLabelSnapshot record with
  | Js.Return snapshot => snapshot
  | Js.Throw _ => withoutEvidence
  end.

Definition pinned : LabelSnapshot.t := snapshotOf ibuprofen.

Definition padded : LabelSnapshot.t := snapshotOf paddedInteractions.

(** The result of resolving [Advil] to the snapshot [pinned]. *)
Definition advil : LabelCache.LabelResolutionResult.t :=
  LabelCache.found (Js.lit "Advil") (Js.lit "advil") pinned.

(** A label with bleeding and renal language in its warnings, with
    pregnancy language, and with an interaction section that names
    aspirin. *)
Definition naproxen : OpenFdaLabelRecord.t :=
  {| OpenFdaLabelRecord.id := Some (Js.lit "rec-4");
     OpenFdaLabelRecord.set_id := Some (Js.lit "set-4");
     OpenFdaLabelRecord.effective_time := Some (Js.lit "20240301");
     OpenFdaLabelRecord.openfda := None;
     OpenFdaLabelRecord.active_ingredient := Some [Js.lit "Naproxen sodium 220 mg"];
     OpenFdaLabelRecord.boxed_warning := None;
     OpenFdaLabelRecord.contraindications := None;
     OpenFdaLabelRecord.warnings :=
       Some [Js.lit "May cause stomach bleeding. Use with caution in renal impairment."];
     OpenFdaLabelRecord.warnings_and_cautions := None;
     OpenFdaLabelRecord.drug_interactions :=
       Some [Js.lit "Ask a doctor before use with aspirin."];
     OpenFdaLabelRecord.pregnancy :=
       Some [Js.lit "May cause fetal harm in the third trimester."];
     OpenFdaLabelRecord.lactation := None;
     OpenFdaLabelRecord.pediatric_use := None;
     OpenFdaLabelRecord.geriatric_use := None;
     OpenFdaLabelRecord.do_not_use := None;
     OpenFdaLabelRecord.ask_doctor := None |}.

Definition naproxenPinned : LabelSnapshot.t := snapshotOf naproxen.

(** A patient on warfarin with a kidney condition, of the given
    pregnancy status. *)
Definition patient (pregnancy : option PregnancyStatus) : option RxGuardProfile.t :=
  Some {| RxGuardProfile.age := Some 67;
          RxGuardProfile.sex := Some sex_F;
          RxGuardProfile.pregnancy := pregnancy;
          RxGuardProfile.conditions := Some [Js.lit "CKD stage 3"];
          RxGuardProfile.currentMeds := Some [Js.lit "Warfarin 5 mg daily"];
          RxGuardProfile.allergies := None |}.

(** The two ingredients of [twoIngredients], listed the other way. *)
Definition swapped : OpenFdaLabelRecord.t :=
  label (Some (Js.lit "rec-3")) (Some (Js.lit "set-3")) (Some (Js.lit "20220101"))
    (Some [Js.lit "b"; Js.lit "a"]) None.

End Samples.

(** ** SHA-256 as the standard states it

    The secure hash algorithm SHA-256 after FIPS 180-4, on messages of
    bytes: the second definition of the content hash, against which the
    computation of the library is checked.  A word is an integer below
    [2 ^ 32]. *)

Module Fips.

#[local] Open Scope N_scope.

(** Section 3.2: addition modulo [2 ^ 32], the right shift, the rotation
    to the right, the complement. *)
Definition plus (x y : N) : N := (x + y) mod 2 ^ 32.
Definition SHR (n x : N) : N := x / 2 ^ n.
Definition ROTR (n x : N) : N := x / 2 ^ n + (x mod 2 ^ n) * 2 ^ (32 - n).
Definition complement (x : N) : N := 2 ^ 32 - 1 - x.

(** Section 4.1.2: the six logical functions. *)
Definition Ch (x y z : N) : N := N.lxor (N.land x y) (N.land (complement x) z).
Definition Maj (x y z : N) : N :=
  N.lxor (N.lxor (N.land x y) (N.land x z)) (N.land y z).
Definition Sigma0 (x : N) : N := N.lxor (N.lxor (ROTR 2 x) (ROTR 13 x)) (ROTR 22 x).
Definition Sigma1 (x : N) : N := N.lxor (N.lxor (ROTR 6 x) (ROTR 11 x)) (ROTR 25 x).
Definition sigma0 (x : N) : N := N.lxor (N.lxor (ROTR 7 x) (ROTR 18 x)) (SHR 3 x).
Definition sigma1 (x : N) : N := N.lxor (N.lxor (ROTR 17 x) (ROTR 19 x)) (SHR 10 x).

(** Section 4.2.2: the sixty-four constants, in the eight rows of the
    standard. *)
Definition K : list N :=
  concat
    [ [0x428a2f98; 0x71374491; 0xb5c0fbcf; 0xe9b5dba5; 0x3956c25b; 0x59f111f1; 0x923f82a4; 0xab1c5ed5];
      [0xd807aa98; 0x12835b01; 0x243185be; 0x550c7dc3; 0x72be5d74; 0x80deb1fe; 0x9bdc06a7; 0xc19bf174];
      [0xe49b69c1; 0xefbe4786; 0x0fc19dc6; 0x240ca1cc; 0x2de92c6f; 0x4a7484aa; 0x5cb0a9dc; 0x76f988da];
      [0x983e5152; 0xa831c66d; 0xb00327c8; 0xbf597fc7; 0xc6e00bf3; 0xd5a79147; 0x06ca6351; 0x14292967];
      [0x27b70a85; 0x2e1b2138; 0x4d2c6dfc; 0x53380d13; 0x650a7354; 0x766a0abb; 0x81c2c92e; 0x92722c85];
      [0xa2bfe8a1; 0xa81a664b; 0xc24b8b70; 0xc76c51a3; 0xd192e819; 0xd6990624; 0xf40e3585; 0x106aa070];
      [0x19a4c116; 0x1e376c08; 0x2748774c; 0x34b0bcb5; 0x391c0cb3; 0x4ed8aa4a; 0x5b9cca4f; 0x682e6ff3];
      [0x748f82ee; 0x78a5636f; 0x84c87814; 0x8cc70208; 0x90befffa; 0xa4506ceb; 0xbef9a3f7; 0xc67178f2] ].

(** Section 5.3.3: the initial hash value. *)
Definition H0 : list N :=
  [
    0x6a09e667; 0xbb67ae85; 0x3c6ef372; 0xa54ff53a; 0x510e527f; 0x9b05688c;
    0x1f83d9ab; 0x5be0cd19 ].

(** Section 5.1.1: a message of [l] bits is followed by the bit 1, by
    [k] zero bits, [k] the least number with [l + 1 + k] congruent to 448
    modulo 512, and by [l] on 64 bits.  In a message of bytes the bit 1
    and seven of the zero bits make the byte 128. *)
Definition zeroBits (l : N) : N := (448 + 512 - (l + 1) mod 512) mod 512.

Definition lengthBytes (l : N) : list N :=
  List.map (fun i => (l / 256 ^ (7 - i)) mod 256) [0; 1; 2; 3; 4; 5; 6; 7].

Definition pad (message : list N) : list N :=
  let l := 8 * N.of_nat (List.length message) in
  message ++ [128] ++ repeat 0 (N.to_nat ((zeroBits l - 7) / 8)) ++ lengthBytes l.

(** Section 5.2.1: the padded message is parsed into words of 32 bits,
    the first byte of a word being the most significant, and into blocks
    of sixteen words. *)
Fixpoint toWords (bytes : list N) : list N :=
  match bytes with
  | a :: b :: c :: d :: rest => (a * 2 ^ 24 + b * 2 ^ 16 + c * 2 ^ 8 + d) :: toWords rest
  | _ => []
  end.

Definition block (words : list N) (i : nat) : list N :=
  firstn 16 (skipn (16 * i) words).

Definition toBlocks (words : list N) : list (list N) :=
  List.map (block words) (seq 0 (List.length words / 16)).

(** Section 6.2.2, step 1: the message schedule, [W t] for [t] from 16
    on being made of the words at [t - 2], [t - 7], [t - 15] and
    [t - 16]. *)
Fixpoint schedule (n : nat) (W : list N) : list N :=
  match n with
  | O => W
  | S m =>
      let t := List.length W in
      schedule m
        (W ++ [ (sigma1 (nth (t - 2) W 0) + nth (t - 7) W 0
                 + sigma0 (nth (t - 15) W 0) + nth (t - 16) W 0) mod 2 ^ 32 ])
  end.

(** Step 3: one turn of the eight working variables. *)
Definition step (W : list N) (v : N * N * N * N * N * N * N * N) (t : nat)
    : N * N * N * N * N * N * N * N :=
  let '(a, b, c, d, e, f, g, h) := v in
  let T1 := (h + Sigma1 e + Ch e f g + nth t K 0 + nth t W 0) mod 2 ^ 32 in
  let T2 := (Sigma0 a + Maj a b c) mod 2 ^ 32 in
  (plus T1 T2, a, b, c, plus d T1, e, f, g).

(** Steps 2 to 4: the next hash value, from the last one and a block. *)
Definition next (H : list N) (M : list N) : list N :=
  match H with
  | [h0; h1; h2; h3; h4; h5; h6; h7] =>
      let W := schedule 48 M in
      let '(a, b, c, d, e, f, g, h) :=
        fold_left (step W) (seq 0 64) (h0, h1, h2, h3, h4, h5, h6, h7) in
      [plus a h0; plus b h1; plus c h2; plus d h3;
       plus e h4; plus f h5; plus g h6; plus h h7]
  | _ => H
  end.

(** The message digest: the last hash value, four bytes a word. *)
Definition wordBytes (x : N) : list N :=
  [x / 2 ^ 24; (x / 2 ^ 16) mod 256; (x / 2 ^ 8) mod 256; x mod 256].

Definition sha256 (message : list N) : list N :=
  flat_map wordBytes (fold_left next (toBlocks (toWords (pad message))) H0).

End Fips.


(** ** Vocabulary of the statements *)

Module Spec.

(** [n] occurs in [h] as a run of consecutive code units. *)
Definition occursIn (n h : Js.str) : Prop :=
  exists pre post, h = pre ++ n ++ post.

(** The risk scale UNKNOWN < LOW < MODERATE < HIGH, its order and its
    maximum. *)
Definition rank (r : RiskLabel) : nat :=
  match r with UNKNOWN => 0 | LOW => 1 | MODERATE => 2 | HIGH => 3 end.

Definition riskLe (a b : RiskLabel) : Prop := (rank a <= rank b)%nat.

Definition riskMax (a b : RiskLabel) : RiskLabel :=
  if (rank a <? rank b)%nat then b else a.

(** A version-identifying field is lacking when it is absent or empty. *)
Definition lacks (v : option Js.str) : Prop := v = None \/ v = Some [].

(** The twelve titles of the canonical text, in its order. *)
Definition titles : list Js.str :=
  [ Js.lit "ACTIVE INGREDIENTS"; Js.lit "BOXED WARNING"; Js.lit "CONTRAINDICATIONS";
    Js.lit "WARNINGS"; Js.lit "WARNINGS AND CAUTIONS"; Js.lit "DRUG INTERACTIONS";
    Js.lit "PREGNANCY"; Js.lit "LACTATION"; Js.lit "PEDIATRIC USE";
    Js.lit "GERIATRIC USE"; Js.lit "DO NOT USE"; Js.lit "ASK A DOCTOR" ].

(** The fallback snippet of [evaluatePolicy]. *)
Definition preview (snapshot : LabelSnapshot.t) : EvidenceQuote.t :=
  {| EvidenceQuote.section := Js.lit "LABEL";
     EvidenceQuote.quote :=
       Js.slice (LabelSnapshot.evidenceText snapshot) 0 280
       ++ (if Js.len (LabelSnapshot.evidenceText snapshot) >? 280
           then Policy.ellipsis else []);
     EvidenceQuote.reason := Some (Js.lit "Label evidence snapshot (preview).") |}.

(** What a call returned, if it did. *)
Definition returned {A} (c : Js.completion A) : option A :=
  match c with Js.Return a => Some a | Js.Throw _ => None end.

(** Whitespace only: what [trim] reduces to the empty string. *)
Definition blank (s : Js.str) : Prop := Forall (fun c => Js.isWhiteSpace c = true) s.

(** [s] begins, and [s] ends, with a character that is not whitespace. *)
Definition opens (s : Js.str) : Prop :=
  match s with c :: _ => Js.isWhiteSpace c = false | [] => False end.

Definition closes (s : Js.str) : Prop := opens (rev s).

(** [s.replace(/\s+/g, ' ').trim()]: the whitespace normalization that the
    canonical text and the matcher share. *)
Definition squeeze (s : Js.str) : Js.str :=
  Js.trim (Js.replaceRuns Js.isWhiteSpace false s).

(** A pattern whose every match begins at a character that is not
    whitespace, or right after a word character. *)
Fixpoint anchored (r : Regex.t) : bool :=
  match r with
  | Regex.Atom (Regex.Chr c) | Regex.Plus (Regex.Chr c) =>
      negb (Js.isWhiteSpace (Regex.canonicalize c))
  | Regex.WordBoundary => true
  | Regex.Seq r1 _ => anchored r1
  | Regex.Alt r1 r2 => anchored r1 && anchored r2
  | _ => false
  end.

(** The character before the position that follows [pre], [prev] being
    the one before [pre]. *)
Definition before (prev : option N) (pre : Js.str) : option N :=
  List.last (List.map Some pre) prev.

(** A rule of the table fires when its section is not empty, its
    pattern matches there and, for the pregnancy rule, the profile states
    a pregnancy. *)
Definition fires (snapshot : LabelSnapshot.t) (profile : option RxGuardProfile.t)
    (rule : Policy.KeywordRule.t) : bool :=
  let sectionText := Policy.getSectionText snapshot (Policy.KeywordRule.section rule) in
  Js.truthy sectionText
  && Regex.test (Policy.KeywordRule.pattern rule) sectionText
  && negb (Js.str_eqb (Policy.KeywordRule.id rule) Policy.PREGNANCY_RISK_LANGUAGE
           && negb (Policy.profileHasPregnancy profile)).

(** The state of [evaluatePolicy] after its loop over the rule table. *)
Definition base (snapshot : LabelSnapshot.t) (profile : option RxGuardProfile.t)
    : Policy.Running :=
  fold_left (Policy.applyRule snapshot profile) Policy.BASE_RULES
    {| Policy.rulesTriggered := []; Policy.quotes := []; Policy.risk := UNKNOWN |}.

(** The identifiers that mark a HIGH risk: the three rules of that
    severity, the two profile upgrades and the cross-check of the other
    medications. *)
Definition highRules : list Js.str :=
  [ Policy.BOXED_WARNING_PRESENT; Policy.CONTRAINDICATION_MENTION;
    Policy.PREGNANCY_RISK_LANGUAGE; Policy.PROFILE_ANTICOAGULANT_UPGRADE;
    Policy.PROFILE_CKD_UPGRADE; Policy.INTERACTION_OTHER_MED_MENTIONED ].

(** A snapshot whose evidence text is the canonical text of its
    sections, as [buildLabelSnapshot] makes it. *)
Definition canonical (snapshot : LabelSnapshot.t) : Prop :=
  LabelSnapshot.evidenceText snapshot
  = Evidence.buildCanonicalEvidenceText (LabelSnapshot.sections snapshot).

(** The profile states a pregnancy: the patient is trying, or is in one
    of the three trimesters. *)
Definition statesPregnancy (profile : option RxGuardProfile.t) : Prop :=
  exists p status,
    profile = Some p
    /\ RxGuardProfile.pregnancy p = Some status
    /\ In status [preg_trying; pregnant_t1; pregnant_t2; pregnant_t3].

(** The anticoagulants and the words for a kidney condition that the
    profile is searched for. *)
Definition anticoagulants : list Js.str :=
  [Js.lit "warfarin"; Js.lit "apixaban"; Js.lit "rivaroxaban"; Js.lit "dabigatran"].

Definition kidneyWords : list Js.str := [Js.lit "ckd"; Js.lit "kidney"; Js.lit "renal"].

(** Text of the Basic Latin block: every code unit is below 128. *)
Definition ascii (s : Js.str) : Prop := Forall (fun c => (c < 128)%N) s.

(** A canonical snapshot whose sections are text of the Basic Latin
    block. *)
Definition plain (snapshot : LabelSnapshot.t) : Prop :=
  canonical snapshot
  /\ forall k, ascii (Policy.sectionAt (LabelSnapshot.sections snapshot) k).

(** The in-process maps hold the snapshot pinned for a query key. *)
Definition remembers (st : LabelCache.Stores) (drugKey : Js.str)
    (snapshot : LabelSnapshot.t) : Prop :=
  exists docId : Js.str,
    LabelCache.memDrugToDocId st !! drugKey = Some docId /\ docId <> []
    /\ LabelCache.memDocIdToSnapshot st !! docId = Some snapshot.

(** What a resolution ends in.  A result other than [ok] has no snapshot
    and comes with the stores untouched; a result [ok] is the snapshot of
    the query, pinned in the in-process maps; an exception comes with the
    stores untouched, or is the rejection of a write that was refused. *)
Definition settled (drugQuery drugKey : Js.str) (st : LabelCache.Stores)
    (c : Js.completion LabelCache.LabelResolutionResult.t) (st' : LabelCache.Stores)
    : Prop :=
  match c with
  | Js.Return r =>
      (st' = st
       /\ LabelCache.LabelResolutionResult.kind r <> LabelCache.ok
       /\ LabelCache.LabelResolutionResult.snapshot r = None)
      \/ (exists snapshot,
            r = LabelCache.found drugQuery drugKey snapshot
            /\ remembers st' drugKey snapshot)
  | Js.Throw e => st' = st \/ exists w, LabelCache.refuses st w = Some e
  end.


(** The same stores at a time when the services refuse other writes. *)
Definition facing (refuses : LabelCache.Write -> option Js.exn) (st : LabelCache.Stores)
    : LabelCache.Stores :=
  {| LabelCache.memDrugToDocId := LabelCache.memDrugToDocId st;
     LabelCache.memDocIdToSnapshot := LabelCache.memDocIdToSnapshot st;
     LabelCache.labels := LabelCache.labels st;
     LabelCache.drugIndex := LabelCache.drugIndex st;
     LabelCache.bucket := LabelCache.bucket st;
     LabelCache.refuses := refuses |}.

(** The stores once a snapshot is pinned for a query key: the label
    document merged into the collection, the evidence text in the bucket
    when it is too long for the document, the index document, and both
    in-process maps. *)
Definition pinnedIn (snapshot : LabelSnapshot.t) (drugKey : Js.str)
    (st : LabelCache.Stores) : LabelCache.Stores :=
  let docId := LabelCache.makeLabelDocId snapshot in
  let inline :=
    Utils.bytesUtf8 (LabelSnapshot.evidenceText snapshot)
    <=? LabelCache.MAX_FIRESTORE_DOC_BYTES in
  let path := Js.lit "rxguard/labels/" ++ docId ++ Js.lit ".txt" in
  {| LabelCache.memDrugToDocId := <[drugKey := docId]> (LabelCache.memDrugToDocId st);
     LabelCache.memDocIdToSnapshot :=
       <[docId := snapshot]> (LabelCache.memDocIdToSnapshot st);
     LabelCache.labels :=
       <[docId :=
           LabelCache.mergeLabelDoc (LabelCache.labels st !! docId)
             {| LabelCache.LabelDoc.setId := LabelSnapshot.setId snapshot;
                LabelCache.LabelDoc.effectiveTime := LabelSnapshot.effectiveTime snapshot;
                LabelCache.LabelDoc.evidenceHash := LabelSnapshot.evidenceHash snapshot;
                LabelCache.LabelDoc.evidenceText :=
                  if inline
                  then LabelCache.truthyOpt (Some (LabelSnapshot.evidenceText snapshot))
                  else None;
                LabelCache.LabelDoc.evidenceStoragePath :=
                  if inline then None else Some path;
                LabelCache.LabelDoc.sections := LabelSnapshot.sections snapshot;
                LabelCache.LabelDoc.brandNames := Some (LabelSnapshot.brandNames snapshot);
                LabelCache.LabelDoc.genericNames :=
                  Some (LabelSnapshot.genericNames snapshot);
                LabelCache.LabelDoc.activeIngredientsList :=
                  Some (LabelSnapshot.activeIngredientsList snapshot) |}]>
         (LabelCache.labels st);
     LabelCache.drugIndex :=
       <[drugKey := {| LabelCache.IndexDoc.docId := Some docId;
                       LabelCache.IndexDoc.setId := LabelSnapshot.setId snapshot;
                       LabelCache.IndexDoc.effectiveTime :=
                         LabelSnapshot.effectiveTime snapshot |}]>
         (LabelCache.drugIndex st);
     LabelCache.bucket :=
       if inline then LabelCache.bucket st
       else <[path := Js.toWellFormed (LabelSnapshot.evidenceText snapshot)]>
              (LabelCache.bucket st);
     LabelCache.refuses := LabelCache.refuses st |}.

(** The vertical bar of the separator [" | "]. *)
Definition bar : N := 124%N.

Definition barFree (s : Js.str) : Prop := ~ In bar s.

Section WithHost.
Context `{Js.Host}.

(** The parsed effective time of a candidate. *)
Definition time (r : OpenFdaLabelRecord.t) : Q :=
  OpenFdaClient.effectiveTimeToNumber (OpenFdaLabelRecord.effective_time r).

(** [a] is sorted before [b], or ties with it. *)
Definition precedes (a b : OpenFdaLabelRecord.t) : Prop :=
  (time b < time a)%Q
  \/ ((time b == time a)%Q
      /\ Js.localeCompare (OpenFdaClient.stableId a) (OpenFdaClient.stableId b) <= 0).

(** What [toLowerCase] does to text of the Basic Latin block, on every
    engine: the letters A to Z become a to z, code unit by code unit, and
    nothing else changes.  (The case mappings of Unicode have no other
    entry for the block, and none of them depends on the context; text
    beyond the block is another matter: the capital sigma is lowered one
    way at the end of a word and another way inside.) *)
Definition lowersAscii : Prop :=
  forall s, ascii s -> Js.toLowerCase s = List.map BasicLatin.lowerUnit s.

(** A text mentions a name: the name occurs in the text, both read as
    the matcher reads them (lower case, whitespace squeezed). *)
Definition mentions (text name : Js.str) : Prop :=
  occursIn (Utils.normalizeForMatch name) (Utils.normalizeForMatch text).

(** One of the current medications of the profile mentions an
    anticoagulant. *)
Definition takesAnticoagulant (profile : option RxGuardProfile.t) : Prop :=
  exists p med name,
    profile = Some p
    /\ In med (default [] (RxGuardProfile.currentMeds p))
    /\ In name anticoagulants
    /\ mentions med name.

(** One of the conditions of the profile mentions a kidney word. *)
Definition hasKidneyCondition (profile : option RxGuardProfile.t) : Prop :=
  exists p condition word,
    profile = Some p
    /\ In condition (default [] (RxGuardProfile.conditions p))
    /\ In word kidneyWords
    /\ mentions condition word.

(** The interaction section mentions one of the other medications of
    the request, one that reads as something. *)
Definition otherMedMentioned (snapshot : LabelSnapshot.t)
    (otherMeds : option (list Js.str)) : Prop :=
  exists med,
    In med (default [] otherMeds)
    /\ med <> []
    /\ Utils.normalizeForMatch med <> []
    /\ mentions (EvidenceSections.drugInteractions (LabelSnapshot.sections snapshot)) med.

(** The profile lists an anticoagulant among the current medications. *)
Definition onAnticoagulant (profile : option RxGuardProfile.t) : bool :=
  Policy.profileHasMed profile (Js.lit "warfarin")
  || Policy.profileHasMed profile (Js.lit "apixaban")
  || Policy.profileHasMed profile (Js.lit "rivaroxaban")
  || Policy.profileHasMed profile (Js.lit "dabigatran").

(** The profile lists a kidney condition. *)
Definition kidneyCondition (profile : option RxGuardProfile.t) : bool :=
  Policy.profileHasCondition profile [Js.lit "ckd"; Js.lit "kidney"; Js.lit "renal"].

(** The other medications of the request that the interaction section
    mentions. *)
Definition interactionHits (snapshot : LabelSnapshot.t)
    (otherMeds : option (list Js.str)) : list Js.str :=
  Policy.anyOtherMedMentionedInInteractions snapshot
    (List.filter Js.truthy (default [] otherMeds)).

(** The key under which [detectAmbiguity] groups a candidate. *)
Definition ingredientKey (r : OpenFdaLabelRecord.t) : Js.str :=
  Js.join (Js.lit " | ") (OpenFdaClient.normalizedActiveIngredientList r).

End WithHost.
(** Hexadecimal, two digits a byte, with the letters in lower case. *)
Definition hexDigits : Js.str := Js.lit "0123456789abcdef".

Definition hexOf (bytes : list N) : Js.str :=
  flat_map (fun b => [nth (N.to_nat (b / 16)) hexDigits 0%N;
                      nth (N.to_nat (b mod 16)) hexDigits 0%N])
    bytes.

(** The hex-encoded SHA-256 hash of a text, taken on its UTF-8 bytes. *)
Definition sha256Hex (text : Js.str) : Js.str :=
  hexOf (Fips.sha256 (Js.utf8Encode text)).


End Spec.

(** * Properties *)

(** ** The risk scale *)

Module RiskOrder.

(** The table of [bumpRisk] ranks the labels as the scale does. *)
Lemma order_rank (r : RiskLabel) : Policy.order r = Z.of_nat (Spec.rank r).
Proof. now destruct r. Qed.

Lemma rank_inj (a b : RiskLabel) : Spec.rank a = Spec.rank b -> a = b.
Proof. destruct a, b; cbn; congruence. Qed.

Lemma le_total (a b : RiskLabel) : Spec.riskLe a b \/ Spec.riskLe b a.
Proof. unfold Spec.riskLe. lia. Qed.

Lemma le_antisym (a b : RiskLabel) : Spec.riskLe a b -> Spec.riskLe b a -> a = b.
Proof. unfold Spec.riskLe. intros. apply rank_inj. lia. Qed.

Lemma bumpRisk_max (a b : RiskLabel) : Policy.bumpRisk a b = Spec.riskMax a b.
Proof.
  unfold Policy.bumpRisk, Spec.riskMax. rewrite !order_rank.
  destruct (Z.gtb_spec (Z.of_nat (Spec.rank b)) (Z.of_nat (Spec.rank a)));
    destruct (Nat.ltb_spec (Spec.rank a) (Spec.rank b)); auto; lia.
Qed.

End RiskOrder.

(** C8. Over the scale UNKNOWN < LOW < MODERATE < HIGH, [bumpRisk] is an
    upper bound of its two arguments, is idempotent, and is the maximum
    of the two: the least label above both. *)
Theorem bumpRisk_is_max (a b : RiskLabel) :
  Spec.riskLe a (Policy.bumpRisk a b)
  /\ Spec.riskLe b (Policy.bumpRisk a b)
  /\ Policy.bumpRisk a a = a
  /\ Policy.bumpRisk a b = Spec.riskMax a b
  /\ (forall c, Spec.riskLe a c -> Spec.riskLe b c -> Spec.riskLe (Policy.bumpRisk a b) c).
Proof.
  rewrite !RiskOrder.bumpRisk_max. unfold Spec.riskLe, Spec.riskMax.
  rewrite Nat.ltb_irrefl.
  destruct (Nat.ltb_spec (Spec.rank a) (Spec.rank b)); repeat split; auto; lia.
Qed.

(** ** The rule run never lowers into LOW *)

Section PolicyInvariants.
Context `{Js.Host}.

Lemma bumpRisk_not_LOW (current next : RiskLabel) :
  current <> LOW -> next <> LOW -> Policy.bumpRisk current next <> LOW.
Proof.
  unfold Policy.bumpRisk. destruct (_ >? _); auto.
Qed.

Lemma applyRule_not_LOW snapshot profile st rule :
  Policy.KeywordRule.severity rule <> LOW ->
  Policy.risk st <> LOW ->
  Policy.risk (Policy.applyRule snapshot profile st rule) <> LOW.
Proof.
  intros Hsev Hst. unfold Policy.applyRule.
  destruct (negb (Js.truthy _)); auto.
  destruct (negb (Regex.test _ _)); auto.
  destruct (_ && _); auto.
  cbn. now apply bumpRisk_not_LOW.
Qed.

Lemma rules_not_LOW snapshot profile rules st :
  Forall (fun rule => Policy.KeywordRule.severity rule <> LOW) rules ->
  Policy.risk st <> LOW ->
  Policy.risk (fold_left (Policy.applyRule snapshot profile) rules st) <> LOW.
Proof.
  intros Hall; revert st.
  induction Hall as [|rule rules Hsev _ IH]; intros st Hst; cbn; auto.
  apply IH. now apply applyRule_not_LOW.
Qed.

Lemma BASE_RULES_severity :
  Forall (fun rule => Policy.KeywordRule.severity rule = HIGH \/ Policy.KeywordRule.severity rule = MODERATE)
    Policy.BASE_RULES.
Proof.
  unfold Policy.BASE_RULES.
  repeat (apply List.Forall_cons; [cbn; auto |]). apply List.Forall_nil.
Qed.

Lemma upgrade_not_LOW (c : bool) (st : Policy.Running) (marker : list Js.str) :
  Policy.risk st <> LOW ->
  Policy.risk
    (if c
     then {| Policy.rulesTriggered := marker;
             Policy.quotes := Policy.quotes st;
             Policy.risk := Policy.bumpRisk (Policy.risk st) HIGH |}
     else st) <> LOW.
Proof.
  intros Hst. destruct c; [cbn [Policy.risk] | exact Hst].
  apply bumpRisk_not_LOW; [exact Hst | discriminate].
Qed.

Lemma runRules_not_LOW snapshot profile otherMeds :
  Policy.risk (Policy.runRules snapshot profile otherMeds) <> LOW.
Proof.
  unfold Policy.runRules. cbv zeta.
  match goal with
  | |- Policy.risk (match ?hits with [] => ?st | _ :: _ => _ end) <> LOW =>
      assert (Hst : Policy.risk st <> LOW); [| destruct hits]
  end.
  - do 2 apply upgrade_not_LOW.
    apply rules_not_LOW; [| cbn [Policy.risk]; discriminate].
    eapply List.Forall_impl; [| apply BASE_RULES_severity].
    intros rule [-> | ->]; discriminate.
  - exact Hst.
  - cbn [Policy.risk]. apply bumpRisk_not_LOW; [exact Hst | discriminate].
Qed.

Lemma evaluatePolicy_risk snapshot profile otherMeds :
  Policy.PolicyResult.risk (Policy.evaluatePolicy snapshot profile otherMeds)
  = if Js.truthy (LabelSnapshot.evidenceText snapshot)
    then Policy.risk (Policy.runRules snapshot profile otherMeds)
    else UNKNOWN.
Proof.
  unfold Policy.evaluatePolicy. cbv zeta.
  destruct (Js.truthy (LabelSnapshot.evidenceText snapshot)); cbn [negb].
  - destruct (Policy.risk (Policy.runRules snapshot profile otherMeds)); reflexivity.
  - reflexivity.
Qed.

Lemma evaluatePolicy_decision snapshot profile otherMeds :
  Policy.PolicyResult.decision (Policy.evaluatePolicy snapshot profile otherMeds)
  = if Js.truthy (LabelSnapshot.evidenceText snapshot)
    then match Policy.risk (Policy.runRules snapshot profile otherMeds) with
         | HIGH => BLOCK
         | MODERATE => CAUTION
         | LOW => INFO
         | UNKNOWN => CLARIFY
         end
    else CLARIFY.
Proof.
  unfold Policy.evaluatePolicy. cbv zeta.
  destruct (Js.truthy (LabelSnapshot.evidenceText snapshot)); cbn [negb].
  - destruct (Policy.risk (Policy.runRules snapshot profile otherMeds)); reflexivity.
  - reflexivity.
Qed.

Lemma evaluatePolicy_question snapshot profile otherMeds :
  Policy.PolicyResult.clarifyingQuestion (Policy.evaluatePolicy snapshot profile otherMeds)
  = if Js.truthy (LabelSnapshot.evidenceText snapshot)
    then match Policy.risk (Policy.runRules snapshot profile otherMeds) with
         | UNKNOWN => Some Policy.moreContextQuestion
         | _ => None
         end
    else Some Policy.noEvidenceQuestion.
Proof.
  unfold Policy.evaluatePolicy. cbv zeta.
  destruct (Js.truthy (LabelSnapshot.evidenceText snapshot)); cbn [negb].
  - destruct (Policy.risk (Policy.runRules snapshot profile otherMeds)); reflexivity.
  - reflexivity.
Qed.

(** C3. A snapshot with an empty evidence text is answered CLARIFY with
    risk UNKNOWN, whatever the profile, the other medications and the
    section texts (which may well match rules). *)
Theorem empty_evidence_clarifies snapshot profile otherMeds :
  LabelSnapshot.evidenceText snapshot = [] ->
  Policy.PolicyResult.decision (Policy.evaluatePolicy snapshot profile otherMeds) = CLARIFY
  /\ Policy.PolicyResult.risk (Policy.evaluatePolicy snapshot profile otherMeds) = UNKNOWN.
Proof.
  intros Hempty.
  rewrite evaluatePolicy_decision, evaluatePolicy_risk, Hempty.
  split; reflexivity.
Qed.

(** C9. [evaluatePolicy] never returns the risk LOW nor the decision
    INFO: its risk is UNKNOWN, MODERATE or HIGH. *)
Theorem policy_never_LOW_nor_INFO snapshot profile otherMeds :
  let result := Policy.evaluatePolicy snapshot profile otherMeds in
  Policy.PolicyResult.risk result <> LOW
  /\ Policy.PolicyResult.decision result <> INFO
  /\ (Policy.PolicyResult.risk result = UNKNOWN
      \/ Policy.PolicyResult.risk result = MODERATE
      \/ Policy.PolicyResult.risk result = HIGH).
Proof.
  cbv zeta.
  rewrite evaluatePolicy_decision, evaluatePolicy_risk.
  pose proof (runRules_not_LOW snapshot profile otherMeds) as Hrun.
  destruct (Js.truthy (LabelSnapshot.evidenceText snapshot)).
  - destruct (Policy.risk (Policy.runRules snapshot profile otherMeds));
      try congruence; repeat split; auto; discriminate.
  - repeat split; auto; discriminate.
Qed.

End PolicyInvariants.


(** ** Substrings *)

Module StrFacts.

Lemma occursIn_refl (s : Js.str) : Spec.occursIn s s.
Proof. exists [], []. cbn. now rewrite app_nil_r. Qed.

Lemma occursIn_trans (a b c : Js.str) :
  Spec.occursIn a b -> Spec.occursIn b c -> Spec.occursIn a c.
Proof.
  intros (p1 & q1 & ->) (p2 & q2 & ->).
  exists (p2 ++ p1), (q1 ++ q2). now rewrite <- !app_assoc.
Qed.

Lemma occursIn_app_l (n a b : Js.str) : Spec.occursIn n a -> Spec.occursIn n (a ++ b).
Proof.
  intros (p & q & ->). exists p, (q ++ b). now rewrite <- !app_assoc.
Qed.

Lemma occursIn_app_r (n a b : Js.str) : Spec.occursIn n b -> Spec.occursIn n (a ++ b).
Proof.
  intros (p & q & ->). exists (a ++ p), q. now rewrite <- !app_assoc.
Qed.

Lemma startsWith_spec (h n : Js.str) :
  Js.startsWith h n = true <-> exists post, h = n ++ post.
Proof.
  revert h; induction n as [|x n IH]; intros h; cbn.
  - split; [intros _; now exists h | reflexivity].
  - destruct h as [|y h].
    + split; [discriminate | intros (post & Hpost); discriminate].
    + rewrite andb_true_iff, N.eqb_eq, IH. split.
      * intros (-> & post & ->). now exists post.
      * intros (post & Hpost). injection Hpost as -> ->. split; eauto.
Qed.

Lemma indexOfFrom_lower (h n : Js.str) (i : Z) :
  0 <= i -> Js.indexOfFrom h n i = -1 \/ i <= Js.indexOfFrom h n i.
Proof.
  revert i; induction h as [|y h IH]; intros i Hi; cbn.
  - destruct (Js.startsWith [] n); lia.
  - destruct (Js.startsWith (y :: h) n); [lia |].
    destruct (IH (i + 1)) as [-> | Hge]; lia.
Qed.

Lemma indexOfFrom_found (h n : Js.str) (i : Z) :
  0 <= i -> (0 <= Js.indexOfFrom h n i <-> Spec.occursIn n h).
Proof.
  revert i; induction h as [|y h IH]; intros i Hi; cbn.
  - destruct (Js.startsWith [] n) eqn:E.
    + split; [intros _ | lia].
      apply startsWith_spec in E as (post & E). exists [], post. exact E.
    + split; [lia |]. intros (pre & post & Hh).
      destruct pre; [| discriminate].
      assert (Js.startsWith [] n = true) by (apply startsWith_spec; eauto).
      congruence.
  - destruct (Js.startsWith (y :: h) n) eqn:E.
    + split; [intros _ | lia].
      apply startsWith_spec in E as (post & E). exists [], post. exact E.
    + rewrite (IH (i + 1)) by lia. split.
      * intros (pre & post & ->). now exists (y :: pre), post.
      * intros (pre & post & Hh). destruct pre as [|z pre].
        -- assert (Js.startsWith (y :: h) n = true)
             by (apply startsWith_spec; eauto).
           congruence.
        -- injection Hh as -> ->. now exists pre, post.
Qed.

Lemma includes_spec (h n : Js.str) : Js.includes h n = true <-> Spec.occursIn n h.
Proof.
  unfold Js.includes, Js.indexOf.
  rewrite Z.leb_le. now apply indexOfFrom_found.
Qed.

Lemma occursIn_join (sep p : Js.str) (parts : list Js.str) :
  In p parts -> Spec.occursIn p (Js.join sep parts).
Proof.
  induction parts as [|q parts IH]; [intros [] |].
  intros [-> | Hin].
  - destruct parts; cbn; [apply occursIn_refl |].
    apply occursIn_app_l, occursIn_refl.
  - destruct parts as [|q' parts]; [destruct Hin |].
    change (Js.join sep (q :: q' :: parts))
      with (q ++ sep ++ Js.join sep (q' :: parts)).
    now apply occursIn_app_r, occursIn_app_r, IH.
Qed.

End StrFacts.

(** ** evidence.ts *)

Section EvidenceFacts.
Context `{Js.Host}.

(** C2. The quotes of a proof card are exactly the candidates whose
    normalized text is non-empty and occurs in the normalized evidence
    text of the same snapshot: every surviving quote is a substring after
    normalization, and a candidate that fails the check is left out (the
    builder is total; nothing is thrown). *)
Theorem proof_card_quotes_verified
    (setId effectiveTime evidenceHash evidenceText : Js.str)
    (quotes : list EvidenceQuote.t) (q : EvidenceQuote.t) :
  let card := RxGuard.buildProofCard setId effectiveTime evidenceHash evidenceText quotes in
  ProofCard.quotes card
    = List.filter (fun c => Evidence.quoteExistsInEvidence evidenceText (EvidenceQuote.quote c)) quotes
  /\ (In q (ProofCard.quotes card) ->
      In q quotes
      /\ Spec.occursIn (Utils.normalizeForMatch (EvidenceQuote.quote q))
                           (Utils.normalizeForMatch evidenceText))
  /\ (In q quotes ->
      ~ Spec.occursIn (Utils.normalizeForMatch (EvidenceQuote.quote q))
                          (Utils.normalizeForMatch evidenceText) ->
      ~ In q (ProofCard.quotes card)).
Proof.
  cbv zeta. unfold RxGuard.buildProofCard. cbn [ProofCard.quotes].
  assert (Hkept : forall c,
             In c (List.filter
                     (fun c => Evidence.quoteExistsInEvidence evidenceText (EvidenceQuote.quote c))
                     quotes) ->
             In c quotes
             /\ Spec.occursIn (Utils.normalizeForMatch (EvidenceQuote.quote c))
                                  (Utils.normalizeForMatch evidenceText)).
  { intros c Hc. apply filter_In in Hc as (Hin & Hok). split; [exact Hin |].
    unfold Evidence.quoteExistsInEvidence in Hok.
    apply andb_true_iff in Hok as (_ & Hinc).
    now apply StrFacts.includes_spec. }
  split; [reflexivity |]. split.
  - apply Hkept.
  - intros _ Hnot Hin. now apply Hkept in Hin as (_ & Hocc).
Qed.

End EvidenceFacts.

(** ** Snapshots *)

Module SnapshotFacts.

Lemma lacks_falsy (v : option Js.str) :
  Spec.lacks v <-> Js.truthy (default [] v) = false.
Proof.
  unfold Spec.lacks. destruct v as [[|c s]|]; cbn; split; intros; auto; try discriminate.
  destruct H as [H | H]; discriminate.
Qed.

Lemma parts_titles (sections : EvidenceSections.t) :
  List.map fst (Evidence.parts sections) = Spec.titles.
Proof. reflexivity. Qed.

Lemma header_in_text (sections : EvidenceSections.t) (title : Js.str) :
  In title Spec.titles ->
  Spec.occursIn (Evidence.header title) (Evidence.buildCanonicalEvidenceText sections).
Proof.
  rewrite <- (parts_titles sections). intros Hin.
  apply in_map_iff in Hin as (p & <- & Hp).
  apply StrFacts.occursIn_trans with (b := Evidence.renderPart p).
  - unfold Evidence.renderPart. apply StrFacts.occursIn_app_l, StrFacts.occursIn_refl.
  - apply StrFacts.occursIn_join. now apply in_map.
Qed.

Lemma text_not_empty (sections : EvidenceSections.t) :
  Evidence.buildCanonicalEvidenceText sections <> [].
Proof.
  pose proof (header_in_text sections (Js.lit "ACTIVE INGREDIENTS")) as Hocc.
  destruct Hocc as (pre & post & Heq); [now left |].
  rewrite Heq. destruct pre; discriminate.
Qed.

Lemma join_length_le (sep : Js.str) (l1 l2 : list Js.str) :
  Forall2 (fun a b => (List.length a <= List.length b)%nat) l1 l2 ->
  (List.length (Js.join sep l1) <= List.length (Js.join sep l2))%nat.
Proof.
  induction 1 as [|a b l1 l2 Hab Hrest IH]; [reflexivity |].
  destruct Hrest as [|a' b' l1 l2 Hab' Hrest].
  - exact Hab.
  - change (Js.join sep (a :: a' :: l1)) with (a ++ sep ++ Js.join sep (a' :: l1)).
    change (Js.join sep (b :: b' :: l2)) with (b ++ sep ++ Js.join sep (b' :: l2)).
    rewrite !length_app. lia.
Qed.

(** The canonical text is at least as long as its twelve header lines
    and the eleven blank lines between them: 290 code units. *)
Lemma canonical_text_length (sections : EvidenceSections.t) :
  290 <= Js.len (Evidence.buildCanonicalEvidenceText sections).
Proof.
  assert (Hheaders :
            List.length (Js.join (Js.newline ++ Js.newline)
                           (List.map (fun p => Evidence.header (fst p)) (Evidence.parts sections)))
            = 290%nat) by (vm_compute; reflexivity).
  unfold Js.len, Evidence.buildCanonicalEvidenceText.
  enough ((290 <= List.length (Js.join (Js.newline ++ Js.newline)
                                 (List.map Evidence.renderPart (Evidence.parts sections))))%nat)
    by lia.
  rewrite <- Hheaders. apply join_length_le.
  generalize (Evidence.parts sections) as ps.
  induction ps as [|p ps IH]; cbn [List.map]; constructor; [| exact IH].
  unfold Evidence.renderPart. rewrite length_app. lia.
Qed.

Lemma snapshot_fields (record : OpenFdaLabelRecord.t) (snapshot : LabelSnapshot.t) :
  Evidence.buildLabelSnapshot record = Js.Return snapshot ->
  OpenFdaLabelRecord.set_id record = Some (LabelSnapshot.setId snapshot)
  /\ OpenFdaLabelRecord.effective_time record = Some (LabelSnapshot.effectiveTime snapshot)
  /\ LabelSnapshot.sections snapshot = Evidence.extractEvidenceSections record
  /\ LabelSnapshot.evidenceText snapshot
     = Evidence.buildCanonicalEvidenceText (Evidence.extractEvidenceSections record)
  /\ LabelSnapshot.evidenceHash snapshot
     = Utils.sha256Hex (Evidence.buildCanonicalEvidenceText (Evidence.extractEvidenceSections record)).
Proof.
  unfold Evidence.buildLabelSnapshot. cbv zeta.
  destruct (OpenFdaLabelRecord.set_id record) as [[|c s]|];
    destruct (OpenFdaLabelRecord.effective_time record) as [[|d t]|];
    cbn [default Js.truthy negb orb]; try discriminate.
  intros [= <-].
  cbn [LabelSnapshot.setId LabelSnapshot.effectiveTime LabelSnapshot.sections
       LabelSnapshot.evidenceText LabelSnapshot.evidenceHash].
  repeat split; reflexivity.
Qed.

End SnapshotFacts.

(** ** utils.ts: the content hash is the SHA-256 of the standard

    The computation of the library, on bit operations, against the
    definition of FIPS 180-4, on arithmetic. *)

Module FipsFacts.

#[local] Open Scope N_scope.
Import Js.Sha256.

Lemma mask32_ones : mask32 = N.ones 32.
Proof. reflexivity. Qed.





Lemma rotr_word (n x : N) : rotr n x < 2 ^ 32.
Proof.
  unfold rotr. rewrite mask32_ones, N.land_ones. apply N.mod_lt. discriminate.
Qed.









(** *** The message schedule *)





(** *** The compression of a block *)






(** *** The blocks of a message *)



(** *** Padding and parsing *)








(** *** The digest and its hexadecimal form *)






(** *** The bytes of a string *)









End FipsFacts.


(** C7, as the code has it.  Construction throws the missing-identity
    error exactly when [set_id] or [effective_time] is lacking (absent or
    empty), one of them being enough; it throws nothing else, and a record
    that carries both yields a snapshot with these two fields. *)
Theorem snapshot_identity (record : OpenFdaLabelRecord.t) :
  (Evidence.buildLabelSnapshot record = Js.Throw (Js.Error Evidence.missingIdentityMessage)
   <-> Spec.lacks (OpenFdaLabelRecord.set_id record)
       \/ Spec.lacks (OpenFdaLabelRecord.effective_time record))
  /\ (forall e, Evidence.buildLabelSnapshot record = Js.Throw e ->
                e = Js.Error Evidence.missingIdentityMessage)
  /\ (forall setId effectiveTime,
        OpenFdaLabelRecord.set_id record = Some setId -> setId <> [] ->
        OpenFdaLabelRecord.effective_time record = Some effectiveTime -> effectiveTime <> [] ->
        exists snapshot,
          Evidence.buildLabelSnapshot record = Js.Return snapshot
          /\ LabelSnapshot.setId snapshot = setId
          /\ LabelSnapshot.effectiveTime snapshot = effectiveTime).
Proof.
  rewrite !SnapshotFacts.lacks_falsy.
  unfold Evidence.buildLabelSnapshot. cbv zeta.
  destruct (OpenFdaLabelRecord.set_id record) as [[|c s]|];
    destruct (OpenFdaLabelRecord.effective_time record) as [[|d t]|];
    cbn [default Js.truthy negb orb].
  all: split; [split; [auto | try reflexivity] | split].
  all: try (intros [? | ?]; discriminate).
  all: try (intros e [= <-]; reflexivity).
  all: try discriminate.
  all: try (intros ? ? ? ? ? ?; congruence).
  intros setId effectiveTime [= <-] _ [= <-] _.
  eexists. split; [reflexivity |]. split; reflexivity.
Qed.

(** C10. The canonical text of any sections, all empty or not, is not
    empty and holds the twelve upper-case header lines; hence a snapshot
    constructed by [buildLabelSnapshot] has a non-empty evidence text, the
    guard of the no-evidence branch of [evaluatePolicy] is false for it,
    and its answer never carries the no-evidence question. *)
Theorem canonical_text_never_empty `{Js.Host} :
  (forall sections : EvidenceSections.t,
      Evidence.buildCanonicalEvidenceText sections <> []
      /\ Forall (fun title =>
                   Spec.occursIn (Evidence.header title)
                     (Evidence.buildCanonicalEvidenceText sections))
                Spec.titles)
  /\ List.length Spec.titles = 12%nat
  /\ forallb (forallb (fun c => negb ((97 <=? c) && (c <=? 122))%N)) Spec.titles = true
  /\ (forall record snapshot,
        Evidence.buildLabelSnapshot record = Js.Return snapshot ->
        LabelSnapshot.evidenceText snapshot <> []
        /\ negb (Js.truthy (LabelSnapshot.evidenceText snapshot)) = false
        /\ forall profile otherMeds,
             Policy.PolicyResult.clarifyingQuestion
               (Policy.evaluatePolicy snapshot profile otherMeds)
             <> Some Policy.noEvidenceQuestion).
Proof.
  split; [| split; [reflexivity | split; [reflexivity |]]].
  - intros sections. split; [apply SnapshotFacts.text_not_empty |].
    apply List.Forall_forall. intros title Hin.
    now apply SnapshotFacts.header_in_text.
  - intros record snapshot Hbuilt.
    apply SnapshotFacts.snapshot_fields in Hbuilt as (_ & _ & _ & Htext & _).
    assert (Hne : LabelSnapshot.evidenceText snapshot <> []).
    { rewrite Htext. apply SnapshotFacts.text_not_empty. }
    assert (Htruthy : Js.truthy (LabelSnapshot.evidenceText snapshot) = true).
    { destruct (LabelSnapshot.evidenceText snapshot); [congruence | reflexivity]. }
    split; [exact Hne |]. split; [now rewrite Htruthy |].
    intros profile otherMeds. rewrite evaluatePolicy_question, Htruthy.
    destruct (Policy.risk _); discriminate.
Qed.

(** ** Sorting with a consistent comparator *)

Section SortFacts.
Context {A : Type} (cmp : A -> A -> comparison).
Hypothesis cmp_total : forall a b, cmp a b = Gt -> cmp b a <> Gt.
Hypothesis cmp_trans : forall a b c, cmp a b <> Gt -> cmp b c <> Gt -> cmp a c <> Gt.

Lemma cmp_refl (a : A) : cmp a a <> Gt.
Proof. intros Hgt. exact (cmp_total a a Hgt Hgt). Qed.

Lemma insertSorted_In (x y : A) (l : list A) :
  In y (Js.insertSorted cmp x l) <-> y = x \/ In y l.
Proof.
  induction l as [|z l IH]; cbn.
  - intuition auto.
  - destruct (cmp x z); cbn; rewrite ?IH; intuition auto.
Qed.

Lemma sort_In (y : A) (l : list A) : In y (Js.sort cmp l) <-> In y l.
Proof.
  unfold Js.sort. induction l as [|x l IH]; cbn; [reflexivity |].
  rewrite insertSorted_In, IH. intuition auto.
Qed.

Lemma head_insertSorted (x : A) (l : list A) :
  head (Js.insertSorted cmp x l)
  = match head l with
    | None => Some x
    | Some y => match cmp x y with Gt => Some y | _ => Some x end
    end.
Proof. destruct l as [|y l]; cbn; [reflexivity |]. now destruct (cmp x y). Qed.

(** The first element of the sorted array comes before every element. *)
Lemma sort_head_min (l : list A) (m : A) :
  head (Js.sort cmp l) = Some m ->
  In m l /\ forall x, In x l -> cmp m x <> Gt.
Proof.
  revert m; induction l as [|x l IH]; intros m; [discriminate |].
  change (Js.sort cmp (x :: l)) with (Js.insertSorted cmp x (Js.sort cmp l)).
  rewrite head_insertSorted.
  destruct (head (Js.sort cmp l)) as [y|] eqn:Hhead.
  - destruct (IH y eq_refl) as (Hin & Hmin).
    destruct (cmp x y) eqn:Hxy; intros [= <-].
    + split; [now left |]. intros z [<- | Hz]; [apply cmp_refl |].
      apply cmp_trans with y; [congruence | auto].
    + split; [now left |]. intros z [<- | Hz]; [apply cmp_refl |].
      apply cmp_trans with y; [congruence | auto].
    + split; [now right |]. intros z [<- | Hz]; [now apply cmp_total | auto].
  - intros [= <-]. split; [now left |].
    intros z [<- | Hz]; [apply cmp_refl |].
    apply sort_In in Hz. destruct (Js.sort cmp l); [destruct Hz | discriminate].
Qed.

Lemma sort_head_some (l : list A) : l <> [] -> exists m, head (Js.sort cmp l) = Some m.
Proof.
  destruct l as [|x l]; [congruence | intros _].
  change (Js.sort cmp (x :: l)) with (Js.insertSorted cmp x (Js.sort cmp l)).
  rewrite head_insertSorted.
  destruct (head (Js.sort cmp l)); [destruct (cmp x a) |]; eauto.
Qed.

End SortFacts.

(** ** openfda.ts: the deterministic choice *)

Section ChoiceFacts.
Context `{Js.Host}.

Lemma compareRecords_precedes (a b : OpenFdaLabelRecord.t) :
  OpenFdaClient.compareRecords a b <> Gt <-> Spec.precedes a b.
Proof.
  unfold OpenFdaClient.compareRecords, Spec.precedes, Spec.time. cbv zeta.
  set (ta := OpenFdaClient.effectiveTimeToNumber (OpenFdaLabelRecord.effective_time a)).
  set (tb := OpenFdaClient.effectiveTimeToNumber (OpenFdaLabelRecord.effective_time b)).
  destruct (Qeq_bool tb ta) eqn:Heq; cbn [negb].
  - apply Qeq_bool_iff in Heq. split.
    + intros Hle. right. split; [exact Heq | exact Hle].
    + intros [Hlt | (_ & Hle)]; [| exact Hle].
      rewrite Heq in Hlt. now apply Qlt_irrefl in Hlt.
  - apply Qeq_bool_neq in Heq. rewrite <- Qle_alt. split.
    + intros Hle. left. lra.
    + intros [Hlt | (Heq' & _)]; [lra | contradiction].
Qed.

Lemma precedes_total (a b : OpenFdaLabelRecord.t) : ~ Spec.precedes a b -> Spec.precedes b a.
Proof.
  unfold Spec.precedes. intros Hnot.
  destruct (Q_dec (Spec.time a) (Spec.time b)) as [[Hlt | Hgt] | Heq].
  - now left.
  - exfalso. apply Hnot. now left.
  - right. split; [exact Heq |].
    pose proof (Js.localeCompare_sgn (OpenFdaClient.stableId a) (OpenFdaClient.stableId b)) as Hsgn.
    destruct (Z_le_gt_dec (Js.localeCompare (OpenFdaClient.stableId a) (OpenFdaClient.stableId b)) 0)
      as [Hle | Hgt].
    + exfalso. apply Hnot. right. split; [now symmetry | exact Hle].
    + lia.
Qed.

Lemma precedes_trans (a b c : OpenFdaLabelRecord.t) :
  Spec.precedes a b -> Spec.precedes b c -> Spec.precedes a c.
Proof.
  unfold Spec.precedes.
  intros [Hab | (Hab & Lab)] [Hbc | (Hbc & Lbc)].
  - left. lra.
  - left. lra.
  - left. lra.
  - right. split; [lra |]. eapply Js.localeCompare_trans; eauto.
Qed.

Lemma compareRecords_total (a b : OpenFdaLabelRecord.t) :
  OpenFdaClient.compareRecords a b = Gt -> OpenFdaClient.compareRecords b a <> Gt.
Proof.
  intros Hgt. apply compareRecords_precedes, precedes_total.
  rewrite <- compareRecords_precedes. congruence.
Qed.

Lemma compareRecords_trans (a b c : OpenFdaLabelRecord.t) :
  OpenFdaClient.compareRecords a b <> Gt -> OpenFdaClient.compareRecords b c <> Gt ->
  OpenFdaClient.compareRecords a c <> Gt.
Proof. rewrite !compareRecords_precedes. apply precedes_trans. Qed.

(** C6, amended. From a non-empty list [chooseDeterministicRecord]
    returns a candidate of the list whose parsed effective time is the
    greatest and whose stable identifier ([id], else [set_id]) comes
    first, in the order of [localeCompare], among those with that time.
    The parsed effective time is the number that the engine reads the
    field as when that number is finite; a missing, empty or non-numeric
    effective time counts as 0.  The empty list gives null. *)
Theorem chooseDeterministicRecord_latest :
  OpenFdaClient.chooseDeterministicRecord [] = None
  /\ OpenFdaClient.effectiveTimeToNumber None = 0%Q
  /\ OpenFdaClient.effectiveTimeToNumber (Some []) = 0%Q
  /\ (forall s, (forall n, Js.Number s <> Js.Finite n) ->
                OpenFdaClient.effectiveTimeToNumber (Some s) = 0%Q)
  /\ (forall s n, s <> [] -> Js.Number s = Js.Finite n ->
                  OpenFdaClient.effectiveTimeToNumber (Some s) = n)
  /\ (forall r, OpenFdaClient.stableId r
                = match OpenFdaLabelRecord.id r, OpenFdaLabelRecord.set_id r with
                  | Some i, _ => i
                  | None, Some s => s
                  | None, None => []
                  end)
  /\ (forall records, records <> [] ->
        exists chosen,
          OpenFdaClient.chooseDeterministicRecord records = Some chosen
          /\ In chosen records
          /\ forall other, In other records ->
               (Spec.time other <= Spec.time chosen)%Q
               /\ ((Spec.time other == Spec.time chosen)%Q ->
                   Js.localeCompare (OpenFdaClient.stableId chosen)
                                    (OpenFdaClient.stableId other) <= 0)).
Proof.
  split; [reflexivity |]. split; [reflexivity |]. split; [reflexivity |].
  split; [| split; [| split]].
  - intros s Hnan. unfold OpenFdaClient.effectiveTimeToNumber.
    destruct (negb (Js.truthy s)); [reflexivity |].
    destruct (Js.Number s) as [| |n] eqn:Hn; try reflexivity.
    now destruct (Hnan n).
  - intros s n Hne Hn. unfold OpenFdaClient.effectiveTimeToNumber.
    destruct s; [congruence |]. cbn [Js.truthy negb]. now rewrite Hn.
  - intros r. unfold OpenFdaClient.stableId.
    destruct (OpenFdaLabelRecord.id r), (OpenFdaLabelRecord.set_id r); reflexivity.
  - intros records Hne.
    destruct (sort_head_some OpenFdaClient.compareRecords records Hne) as (chosen & Hhead).
    exists chosen.
    destruct (sort_head_min OpenFdaClient.compareRecords
                compareRecords_total compareRecords_trans records chosen Hhead)
      as (Hin & Hmin).
    split; [| split; [exact Hin |]].
    + unfold OpenFdaClient.chooseDeterministicRecord.
      destruct records; [congruence | exact Hhead].
    + intros other Hother.
      apply Hmin, compareRecords_precedes in Hother.
      destruct Hother as [Hlt | (Heq & Hle)].
      * split; [lra |]. intros Heq. lra.
      * split; [lra |]. intros _. exact Hle.
Qed.

End ChoiceFacts.

(** C6 as stated, with ties resolved in the lexicographic order of the
    identifiers.  On an engine that collates, of two candidates of the
    same date with the identifiers [B] and [a], the one chosen is [a],
    although [B] comes first in the order of the code units: the tie is
    resolved by [localeCompare], not by that order. *)
Lemma tie_break_not_lexicographic :
  exists chosen other,
    OpenFdaClient.chooseDeterministicRecord (H := Collation.engine) Samples.cased
    = Some chosen
    /\ In other Samples.cased
    /\ (Spec.time (H := Collation.engine) other == Spec.time (H := Collation.engine) chosen)%Q
    /\ OpenFdaClient.stableId chosen = Js.lit "a"
    /\ OpenFdaClient.stableId other = Js.lit "B"
    /\ Js.compareUnits (OpenFdaClient.stableId other) (OpenFdaClient.stableId chosen) = Lt
    /\ Js.localeCompare (Host := Collation.engine)
         (OpenFdaClient.stableId chosen) (OpenFdaClient.stableId other) < 0.
Proof.
  eexists _, (Samples.label (Some (Js.lit "B")) None (Some (Js.lit "20210101")) None None).
  split; [vm_compute; reflexivity |].
  split; [left; reflexivity |].
  split; [vm_compute; reflexivity |].
  repeat split; reflexivity.
Qed.

(** ** The statements at sample data *)

Lemma empty_evidence_clarifies_sample :
  In Policy.BOXED_WARNING_PRESENT
     (Policy.PolicyResult.rulesTriggered
        (Policy.evaluatePolicy (H := BasicLatin.engine) Samples.withoutEvidence None None))
  /\ Policy.PolicyResult.decision
       (Policy.evaluatePolicy (H := BasicLatin.engine) Samples.withoutEvidence None None)
     = CLARIFY
  /\ Policy.PolicyResult.risk
       (Policy.evaluatePolicy (H := BasicLatin.engine) Samples.withoutEvidence None None)
     = UNKNOWN.
Proof.
  split.
  - vm_compute. left. reflexivity.
  - apply (empty_evidence_clarifies (H := BasicLatin.engine) Samples.withoutEvidence None None).
    reflexivity.
Defined.


(** C7 as stated fails: a record that has its [set_id] and lacks only its
    [effective_time] does not lack both fields, and construction throws. *)
Lemma snapshot_identity_one_missing :
  Evidence.buildLabelSnapshot Samples.undated
  = Js.Throw (Js.Error Evidence.missingIdentityMessage)
  /\ ~ (Spec.lacks (OpenFdaLabelRecord.set_id Samples.undated)
        /\ Spec.lacks (OpenFdaLabelRecord.effective_time Samples.undated)).
Proof.
  split; [reflexivity |].
  intros ([Hnone | Hempty] & _); discriminate.
Qed.

Lemma chooseDeterministicRecord_sample :
  exists chosen,
    OpenFdaClient.chooseDeterministicRecord (H := BasicLatin.engine) Samples.candidates
    = Some chosen
    /\ OpenFdaClient.stableId chosen = Js.lit "a"
    /\ In chosen Samples.candidates
    /\ forall other, In other Samples.candidates ->
         (OpenFdaClient.effectiveTimeToNumber (H := BasicLatin.engine)
            (OpenFdaLabelRecord.effective_time other)
          <= OpenFdaClient.effectiveTimeToNumber (H := BasicLatin.engine)
               (OpenFdaLabelRecord.effective_time chosen))%Q.
Proof.
  destruct (chooseDeterministicRecord_latest (H := BasicLatin.engine))
    as (_ & _ & _ & _ & _ & _ & Hchoice).
  destruct (Hchoice Samples.candidates) as (chosen & Hchosen & Hin & Hmax);
    [discriminate |].
  exists chosen. split; [exact Hchosen |]. split.
  - vm_compute in Hchosen. injection Hchosen as <-. reflexivity.
  - split; [exact Hin |]. intros other Hother. now apply Hmax.
Defined.

(** ** The response composer at two label records *)

Section PolicyQuotes.
Context `{Js.Host}.

Lemma evaluatePolicy_quotes snapshot profile otherMeds :
  let result := Policy.evaluatePolicy snapshot profile otherMeds in
  Policy.PolicyResult.quotes result
  = match Policy.PolicyResult.decision result,
          Policy.quotes (Policy.runRules snapshot profile otherMeds) with
    | (BLOCK | CAUTION), [] => [Spec.preview snapshot]
    | _, qs => qs
    end.
Proof.
  cbv zeta. rewrite evaluatePolicy_decision.
  unfold Policy.evaluatePolicy. cbv zeta.
  destruct (Js.truthy (LabelSnapshot.evidenceText snapshot)); cbn [negb].
  - destruct (Policy.risk (Policy.runRules snapshot profile otherMeds)); reflexivity.
  - reflexivity.
Qed.

(** The guarantee of the policy engine: a BLOCK or CAUTION result has a
    quote, the rule-derived ones or else the single preview of the
    evidence text. *)
Theorem policy_quotes_not_empty snapshot profile otherMeds :
  let result := Policy.evaluatePolicy snapshot profile otherMeds in
  Policy.PolicyResult.decision result = BLOCK
  \/ Policy.PolicyResult.decision result = CAUTION ->
  Policy.PolicyResult.quotes result <> []
  /\ (Policy.quotes (Policy.runRules snapshot profile otherMeds) = [] ->
      Policy.PolicyResult.quotes result = [Spec.preview snapshot]).
Proof.
  cbv zeta. intros Hdecision. rewrite evaluatePolicy_quotes.
  destruct (Policy.quotes (Policy.runRules snapshot profile otherMeds)) as [|q qs].
  - destruct Hdecision as [-> | ->]; split; [discriminate | reflexivity | discriminate | reflexivity].
  - split; [| discriminate].
    destruct (Policy.PolicyResult.decision _); discriminate.
Qed.

End PolicyQuotes.

(** C1, at a label whose interaction section opens with 220 line feeds
    and a request naming a medication that the section mentions across a
    line break.  The interaction hit raises the risk to HIGH and yields no
    quote, the engine falls back to the preview, whose text ends in the
    ellipsis, and the proof card drops it: the response is BLOCK with an
    empty quote list. *)
Theorem blocked_with_empty_proof_card :
  let answer :=
    RxGuard.rxguardAnswer (H := BasicLatin.engine)
      (Samples.source [Samples.paddedInteractions]) None Samples.noBaseline
      (Samples.request (Js.lit "Aspirin") [Js.lit "aspirin tablets"])
      Samples.emptyStores in
  option_map
    (fun response =>
       (RxGuard.RxGuardResponse.decision response,
        option_map ProofCard.quotes (RxGuard.RxGuardResponse.proofCard response)))
    (Spec.returned (fst answer))
  = Some (BLOCK, Some [])
  /\ (exists snapshot,
        Evidence.buildLabelSnapshot Samples.paddedInteractions = Js.Return snapshot
        /\ Policy.PolicyResult.quotes
             (Policy.evaluatePolicy (H := BasicLatin.engine) snapshot None
                (Some [Js.lit "aspirin tablets"]))
           = [Spec.preview snapshot]
        /\ Evidence.quoteExistsInEvidence (H := BasicLatin.engine)
             (LabelSnapshot.evidenceText snapshot)
             (EvidenceQuote.quote (Spec.preview snapshot)) = false
        /\ Evidence.quoteExistsInEvidence (H := BasicLatin.engine)
             (LabelSnapshot.evidenceText snapshot)
             (Js.slice (LabelSnapshot.evidenceText snapshot) 0 280) = true).
Proof.
  cbv zeta. split; [vm_compute; reflexivity |].
  eexists. split; [reflexivity |].
  split; [vm_compute; reflexivity |].
  split; vm_compute; reflexivity.
Qed.

(** ** Ambiguity *)

Section AmbiguityFacts.
Context `{Js.Host}.

Lemma two_elements (keys : list Js.str) :
  (1 < size (list_to_set keys : gset Js.str))%nat
  <-> exists x y, In x keys /\ In y keys /\ x <> y.
Proof.
  split.
  - intros Hsize.
    destruct (set_choose_or_empty (list_to_set keys : gset Js.str)) as [(x & Hx) | Hempty].
    + assert (Hrest : (0 < size ((list_to_set keys : gset Js.str) ∖ {[x]}))%nat).
      { rewrite size_difference by (now apply singleton_subseteq_l).
        rewrite size_singleton. lia. }
      apply size_pos_elem_of in Hrest as (y & Hy).
      apply elem_of_difference in Hy as (Hy & Hne).
      apply elem_of_list_to_set, list_elem_of_In in Hx.
      apply elem_of_list_to_set, list_elem_of_In in Hy.
      exists x, y. repeat split; auto.
      intros <-. apply Hne. now apply elem_of_singleton.
    + apply size_empty_iff in Hempty. lia.
  - intros (x & y & Hx & Hy & Hne).
    apply list_elem_of_In in Hx. apply list_elem_of_In in Hy.
    assert (Hsub : ({[x; y]} : gset Js.str) ⊆ list_to_set keys).
    { intros z Hz. apply elem_of_list_to_set.
      apply elem_of_union in Hz as [Hz | Hz]; apply elem_of_singleton in Hz; now subst. }
    apply subseteq_size in Hsub.
    assert (Htwo : size ({[x; y]} : gset Js.str) = 2%nat).
    { rewrite size_union by (now apply disjoint_singleton_l, not_elem_of_singleton).
      now rewrite !size_singleton. }
    lia.
Qed.


(** [detectAmbiguity] answers true exactly when two candidates have
    different keys. *)
Lemma detectAmbiguity_spec (records : list OpenFdaLabelRecord.t) :
  OpenFdaClient.ambiguous (OpenFdaClient.detectAmbiguity records) = true
  <-> exists a b, In a records /\ In b records /\ Spec.ingredientKey a <> Spec.ingredientKey b.
Proof.
  unfold OpenFdaClient.detectAmbiguity. cbn [OpenFdaClient.ambiguous].
  rewrite List.map_map. cbn [OpenFdaClient.aiKey].
  fold Spec.ingredientKey.
  change (List.map (fun r => Spec.ingredientKey r) records) with (List.map Spec.ingredientKey records).
  rewrite andb_true_iff, !Z.ltb_lt. split.
  - intros (Hsize & _).
    assert (Hnat : (1 < size (list_to_set (List.map Spec.ingredientKey records) : gset Js.str))%nat) by lia.
    apply two_elements in Hnat as (x & y & Hx & Hy & Hne).
    apply in_map_iff in Hx as (a & <- & Ha). apply in_map_iff in Hy as (b & <- & Hb).
    now exists a, b.
  - intros (a & b & Ha & Hb & Hne). split.
    + assert (Hnat : (1 < size (list_to_set (List.map Spec.ingredientKey records) : gset Js.str))%nat).
      { apply two_elements. exists (Spec.ingredientKey a), (Spec.ingredientKey b).
        repeat split; auto using in_map. }
      lia.
    + unfold Js.len.
      destruct records as [|r1 [|r2 rest]]; cbn [List.length]; [destruct Ha | | lia].
      destruct Ha as [<- | []], Hb as [<- | []]. congruence.
Qed.

End AmbiguityFacts.

Lemma slice_prefix {A} (l : list A) (k : Z) :
  0 <= k -> Js.slice l 0 k = firstn (Z.to_nat k) l.
Proof.
  intros Hk. unfold Js.slice, Js.relIndex.
  destruct (Z.ltb_spec k 0) as [Hneg | _]; [lia |].
  change (0 <? 0) with false. cbv beta iota zeta.
  replace (Z.min 0 (Z.of_nat (List.length l))) with 0 by lia.
  rewrite Z.sub_0_r. change (Z.to_nat 0) with 0%nat. rewrite skipn_O.
  destruct (Z.min_spec k (Z.of_nat (List.length l))) as [(Hlt & ->) | (Hge & ->)];
    [reflexivity |].
  rewrite Nat2Z.id, firstn_all. symmetry. apply firstn_all2. lia.
Qed.

Section ResolutionFacts.
Context `{Js.Host}.
Variable fetch : OpenFdaClient.Request -> Js.completion OpenFdaClient.Response.
Variable envApiKey : option Js.str.



End ResolutionFacts.

(** ** Keys and ingredient lists *)

Section KeyFacts.

Lemma first_bar (p q r r' : Js.str) :
  Spec.barFree p -> Spec.barFree q -> p ++ Spec.bar :: r = q ++ Spec.bar :: r' -> p = q /\ r = r'.
Proof.
  revert q; induction p as [|x p IH]; intros [|y q] Hp Hq Heq; cbn in Heq.
  - injection Heq as ->. now split.
  - injection Heq as <- _. destruct Hq. now left.
  - injection Heq as -> _. destruct Hp. now left.
  - injection Heq as -> Heq.
    destruct (IH q) as (-> & ->); auto.
    + intros Hin. apply Hp. now right.
    + intros Hin. apply Hq. now right.
Qed.

Lemma join_bar_cons (p q : Js.str) (rest : list Js.str) :
  Js.join (Js.lit " | ") (p :: q :: rest)
  = (p ++ [Js.space]) ++ Spec.bar :: Js.space :: Js.join (Js.lit " | ") (q :: rest).
Proof.
  change (Js.join (Js.lit " | ") (p :: q :: rest))
    with (p ++ Js.lit " | " ++ Js.join (Js.lit " | ") (q :: rest)).
  now rewrite <- app_assoc.
Qed.

Lemma barFree_space (p : Js.str) : Spec.barFree p -> Spec.barFree (p ++ [Js.space]).
Proof.
  intros Hp Hin. apply in_app_or in Hin as [Hin | [Hin | []]]; [auto | discriminate].
Qed.

(** Joining with [" | "] loses nothing when no name is empty or holds a
    bar. *)
Lemma join_bar_inj (l1 l2 : list Js.str) :
  Forall (fun s => Spec.barFree s /\ s <> []) l1 ->
  Forall (fun s => Spec.barFree s /\ s <> []) l2 ->
  Js.join (Js.lit " | ") l1 = Js.join (Js.lit " | ") l2 -> l1 = l2.
Proof.
  intros H1; revert l2.
  induction H1 as [|p l1 (Hp & Hpne) H1 IH]; intros l2 H2 Heq.
  - destruct H2 as [|q l2 (Hq & Hqne) H2]; [reflexivity |].
    destruct l2 as [|q' l2]; cbn in Heq; [congruence |].
    destruct q; [congruence | discriminate].
  - destruct H2 as [|q l2 (Hq & Hqne) H2].
    + destruct l1 as [|p' l1]; cbn in Heq; [congruence |].
      destruct p; [congruence | discriminate].
    + destruct l1 as [|p' l1], l2 as [|q' l2].
      * cbn in Heq. congruence.
      * exfalso. rewrite join_bar_cons in Heq. cbn [Js.join] in Heq.
        apply Hp. rewrite Heq. apply in_or_app. right. now left.
      * exfalso. rewrite join_bar_cons in Heq. cbn [Js.join] in Heq.
        apply Hq. rewrite <- Heq. apply in_or_app. right. now left.
      * rewrite !join_bar_cons in Heq.
        apply first_bar in Heq as (Hpq & Hrest); auto using barFree_space.
        apply app_inj_tail in Hpq as (-> & _).
        injection Hrest as Hrest. f_equal. now apply IH.
Qed.

End KeyFacts.

Section GroupFacts.
Context `{Js.Host}.

Lemma ingredient_names_not_empty (r : OpenFdaLabelRecord.t) (name : Js.str) :
  In name (OpenFdaClient.normalizedActiveIngredientList r) -> name <> [].
Proof.
  unfold OpenFdaClient.normalizedActiveIngredientList. cbv zeta.
  rewrite sort_In, filter_In. intros (_ & Htruthy) ->. discriminate.
Qed.

(** Candidates whose ingredient names hold no bar have the same key only
    if they have the same ingredient list. *)
Lemma ingredientKey_inj (a b : OpenFdaLabelRecord.t) :
  Forall Spec.barFree (OpenFdaClient.normalizedActiveIngredientList a) ->
  Forall Spec.barFree (OpenFdaClient.normalizedActiveIngredientList b) ->
  Spec.ingredientKey a = Spec.ingredientKey b ->
  OpenFdaClient.normalizedActiveIngredientList a
  = OpenFdaClient.normalizedActiveIngredientList b.
Proof.
  intros Ha Hb. apply join_bar_inj.
  - apply List.Forall_forall. intros name Hin. split.
    + revert name Hin. now apply List.Forall_forall.
    + now apply (ingredient_names_not_empty a).
  - apply List.Forall_forall. intros name Hin. split.
    + revert name Hin. now apply List.Forall_forall.
    + now apply (ingredient_names_not_empty b).
Qed.

(** The converse half: one candidate at most, or candidates that
    all have the same ingredient list, are not ambiguous. *)
Theorem single_group_not_ambiguous (records : list OpenFdaLabelRecord.t) :
  Js.len records <= 1
  \/ (forall a b, In a records -> In b records ->
        OpenFdaClient.normalizedActiveIngredientList a
        = OpenFdaClient.normalizedActiveIngredientList b) ->
  OpenFdaClient.ambiguous (OpenFdaClient.detectAmbiguity records) = false.
Proof.
  intros Hsingle.
  destruct (OpenFdaClient.ambiguous (OpenFdaClient.detectAmbiguity records)) eqn:Hamb;
    [exfalso | reflexivity].
  apply detectAmbiguity_spec in Hamb as (a & b & Ha & Hb & Hne).
  destruct Hsingle as [Hlen | Hsame].
  - unfold Js.len in Hlen.
    destruct records as [|r1 [|r2 rest]]; cbn [List.length] in Hlen; [destruct Ha | | lia].
    destruct Ha as [<- | []], Hb as [<- | []]. congruence.
  - apply Hne. unfold Spec.ingredientKey. now rewrite (Hsame a b).
Qed.

(** Where the keys are faithful, the direct half holds: two candidates of
    different ingredient lists, no ingredient name holding a bar, are
    ambiguous. *)
Theorem distinct_groups_ambiguous (records : list OpenFdaLabelRecord.t) :
  (forall r, In r records ->
     Forall Spec.barFree (OpenFdaClient.normalizedActiveIngredientList r)) ->
  (exists a b, In a records /\ In b records
               /\ OpenFdaClient.normalizedActiveIngredientList a
                  <> OpenFdaClient.normalizedActiveIngredientList b) ->
  OpenFdaClient.ambiguous (OpenFdaClient.detectAmbiguity records) = true
  /\ 2 <= Js.len records.
Proof.
  intros Hfree (a & b & Ha & Hb & Hne).
  assert (Hamb : OpenFdaClient.ambiguous (OpenFdaClient.detectAmbiguity records) = true).
  { apply detectAmbiguity_spec. exists a, b. repeat split; auto.
    intros Hkey. apply Hne. apply ingredientKey_inj; auto. }
  split; [exact Hamb |].
  unfold OpenFdaClient.detectAmbiguity in Hamb. cbn [OpenFdaClient.ambiguous] in Hamb.
  apply andb_true_iff in Hamb as (_ & Hlen). apply Z.ltb_lt in Hlen. lia.
Qed.

End GroupFacts.

(** C5, at two candidates of different ingredient lists, [["a | b"]] and
    [["a"; "b"]], on stores that hold nothing.  Both lists join into the
    key [a | b]: the candidates count as one group, the outcome is [ok]
    and not [ambiguous], and the later record is pinned and persisted. *)
Theorem distinct_lists_one_key :
  let records := [Samples.oneIngredient; Samples.twoIngredients] in
  let outcome :=
    LabelCache.resolveDrugToPinnedLabel (H := BasicLatin.engine)
      (Samples.source records) None (Js.lit "Combo") Samples.emptyStores in
  OpenFdaClient.normalizedActiveIngredientList (H := BasicLatin.engine) Samples.oneIngredient
  <> OpenFdaClient.normalizedActiveIngredientList (H := BasicLatin.engine) Samples.twoIngredients
  /\ Spec.ingredientKey (H := BasicLatin.engine) Samples.oneIngredient
     = Spec.ingredientKey (H := BasicLatin.engine) Samples.twoIngredients
  /\ OpenFdaClient.ambiguous (OpenFdaClient.detectAmbiguity (H := BasicLatin.engine) records)
     = false
  /\ option_map
       (fun result =>
          (LabelCache.LabelResolutionResult.kind result,
           option_map LabelSnapshot.setId (LabelCache.LabelResolutionResult.snapshot result)))
       (Spec.returned (fst outcome))
     = Some (LabelCache.ok, Some (Js.lit "set-1"))
  /\ option_map LabelCache.LabelDoc.setId
       (LabelCache.labels (snd outcome) !! Js.lit "set-1_20240101")
     = Some (Js.lit "set-1")
  /\ LabelCache.memDrugToDocId (snd outcome) !! Js.lit "combo"
     = Some (Js.lit "set-1_20240101").
Proof.
  cbv zeta. split; [vm_compute; discriminate |].
  repeat split; vm_compute; reflexivity.
Qed.

(** ** More sample evaluations *)

Lemma proof_card_sample :
  let card :=
    RxGuard.buildProofCard (H := BasicLatin.engine) (Js.lit "set-1") (Js.lit "20240101")
      (Utils.sha256Hex Samples.warningText) Samples.warningText
      [Samples.fabricated; Samples.verbatim] in
  ProofCard.quotes card = [Samples.verbatim]
  /\ Spec.occursIn
       (Utils.normalizeForMatch (H := BasicLatin.engine) (EvidenceQuote.quote Samples.verbatim))
       (Utils.normalizeForMatch (H := BasicLatin.engine) Samples.warningText).
Proof.
  cbv zeta. split; [vm_compute; reflexivity |].
  pose proof (proof_card_quotes_verified (H := BasicLatin.engine)
                (Js.lit "set-1") (Js.lit "20240101")
                (Utils.sha256Hex Samples.warningText) Samples.warningText
                [Samples.fabricated; Samples.verbatim] Samples.verbatim)
    as (Hfilter & Hkept & _).
  apply Hkept. rewrite Hfilter. vm_compute. left. reflexivity.
Defined.

Lemma canonical_text_sample :
  Evidence.buildCanonicalEvidenceText Samples.noSections <> []
  /\ Js.len (Evidence.buildCanonicalEvidenceText Samples.noSections) = 290
  /\ exists snapshot,
       Evidence.buildLabelSnapshot Samples.ibuprofen = Js.Return snapshot
       /\ LabelSnapshot.evidenceText snapshot <> [].
Proof.
  destruct (canonical_text_never_empty (H := BasicLatin.engine)) as (Htext & _ & _ & Hbuilt).
  split; [apply Htext |]. split; [vm_compute; reflexivity |].
  eexists. split; [reflexivity |].
  now apply (Hbuilt Samples.ibuprofen).
Defined.

Lemma policy_quotes_not_empty_sample :
  exists snapshot,
    Evidence.buildLabelSnapshot Samples.ibuprofen = Js.Return snapshot
    /\ Policy.PolicyResult.decision
         (Policy.evaluatePolicy (H := BasicLatin.engine) snapshot None None) = CAUTION
    /\ Policy.PolicyResult.quotes
         (Policy.evaluatePolicy (H := BasicLatin.engine) snapshot None None) <> [].
Proof.
  eexists. split; [reflexivity |]. split; [vm_compute; reflexivity |].
  eapply (policy_quotes_not_empty (H := BasicLatin.engine)).
  right. vm_compute. reflexivity.
Defined.


Lemma single_group_sample :
  OpenFdaClient.ambiguous
    (OpenFdaClient.detectAmbiguity (H := BasicLatin.engine) [Samples.ibuprofen; Samples.ibuprofen])
  = false.
Proof.
  apply (single_group_not_ambiguous (H := BasicLatin.engine)).
  right. intros a b [<- | [<- | []]] [<- | [<- | []]]; reflexivity.
Defined.

Lemma barFree_check (s : Js.str) :
  forallb (fun c => negb (c =? Spec.bar)%N) s = true -> Spec.barFree s.
Proof.
  intros Hall Hin. rewrite forallb_forall in Hall.
  apply Hall in Hin. now rewrite N.eqb_refl in Hin.
Qed.

Lemma all_barFree_check (names : list Js.str) :
  forallb (forallb (fun c => negb (c =? Spec.bar)%N)) names = true ->
  Forall Spec.barFree names.
Proof.
  intros Hall. apply List.Forall_forall. intros name Hin.
  rewrite forallb_forall in Hall. now apply barFree_check, Hall.
Qed.

Lemma distinct_groups_sample :
  OpenFdaClient.ambiguous
    (OpenFdaClient.detectAmbiguity (H := BasicLatin.engine)
       [Samples.ibuprofen; Samples.twoIngredients])
  = true.
Proof.
  apply (distinct_groups_ambiguous (H := BasicLatin.engine)
           [Samples.ibuprofen; Samples.twoIngredients]).
  - intros r [<- | [<- | []]]; apply all_barFree_check; vm_compute; reflexivity.
  - exists Samples.ibuprofen, Samples.twoIngredients.
    split; [now left |]. split; [right; now left |].
    vm_compute. discriminate.
Defined.

(** ** The response composer without a medication name *)

Section ComposerFacts.
Context `{Js.Host}.
Variable fetch : OpenFdaClient.Request -> Js.completion OpenFdaClient.Response.
Variable envApiKey : option Js.str.
Variable maybeGetNakedAnswers : RxGuard.RxGuardRequest.t -> option RxGuard.Naked.

(** A request whose medication name is absent or blank is answered
    CLARIFY with risk UNKNOWN, whatever its other fields, before any store
    or the label source is consulted. *)
Theorem missing_drug_clarifies (input : RxGuard.RxGuardRequest.t) (st : LabelCache.Stores) :
  Js.trim (default [] (RxGuard.RxGuardRequest.primaryDrug input)) = [] ->
  exists response,
    RxGuard.rxguardAnswer fetch envApiKey maybeGetNakedAnswers input st
    = (Js.Return response, st)
    /\ RxGuard.RxGuardResponse.decision response = CLARIFY
    /\ RxGuard.RxGuardResponse.risk response = UNKNOWN
    /\ RxGuard.RxGuardResponse.proofCard response = None
    /\ RxGuard.RxGuardResponse.naked response = None.
Proof.
  intros Hblank. unfold RxGuard.rxguardAnswer. cbv zeta. rewrite Hblank.
  cbn [Js.truthy negb]. unfold LabelCache.ret.
  eexists. split; [reflexivity |]. repeat split; reflexivity.
Qed.

End ComposerFacts.

Lemma missing_drug_sample :
  exists response,
    RxGuard.rxguardAnswer (H := BasicLatin.engine)
      (Samples.source [Samples.ibuprofen]) None Samples.noBaseline
      (Samples.request (Js.lit "   ") [Js.lit "warfarin"]) Samples.emptyStores
    = (Js.Return response, Samples.emptyStores)
    /\ RxGuard.RxGuardResponse.decision response = CLARIFY
    /\ RxGuard.RxGuardResponse.risk response = UNKNOWN.
Proof.
  destruct (missing_drug_clarifies (H := BasicLatin.engine)
              (Samples.source [Samples.ibuprofen]) None Samples.noBaseline
              (Samples.request (Js.lit "   ") [Js.lit "warfarin"]) Samples.emptyStores)
    as (response & Hanswer & Hdecision & Hrisk & _).
  - reflexivity.
  - exists response. repeat split; assumption.
Defined.

(** ** Two scenarios of the specification *)

(** A boxed warning, no profile, no other medication: the boxed-warning
    rule fires, the risk is HIGH and the answer BLOCK. *)
Example boxed_warning_blocks :
  exists snapshot,
    Evidence.buildLabelSnapshot Samples.boxed = Js.Return snapshot
    /\ let result := Policy.evaluatePolicy (H := BasicLatin.engine) snapshot None None in
       In Policy.BOXED_WARNING_PRESENT (Policy.PolicyResult.rulesTriggered result)
       /\ Policy.PolicyResult.risk result = HIGH
       /\ Policy.PolicyResult.decision result = BLOCK.
Proof.
  eexists. split; [reflexivity |]. vm_compute.
  split; [left; reflexivity |]. split; reflexivity.
Qed.

(** The interaction section names warfarin, in another case than the
    request does: the interaction rule fires, the answer is BLOCK, and the
    proof card holds a quote of the interaction section. *)
Example interaction_hit_blocks :
  let answer :=
    RxGuard.rxguardAnswer (H := BasicLatin.engine)
      (Samples.source [Samples.ibuprofen]) None Samples.noBaseline
      (Samples.request (Js.lit "Advil") [Js.lit "WARFARIN"])
      Samples.emptyStores in
  option_map
    (fun response =>
       (RxGuard.RxGuardResponse.decision response,
        RxGuard.RxGuardResponse.risk response,
        option_map RxGuard.rulesTriggered (RxGuard.RxGuardResponse.debug response),
        option_map (fun card => List.map EvidenceQuote.section (ProofCard.quotes card))
          (RxGuard.RxGuardResponse.proofCard response)))
    (Spec.returned (fst answer))
  = Some (BLOCK, HIGH,
          Some [Policy.DRUG_INTERACTION_SECTION; Policy.INTERACTION_OTHER_MED_MENTIONED],
          Some [Js.lit "drugInteractions"; Js.lit "drugInteractions"]).
Proof. vm_compute. reflexivity. Qed.

(** ** The content hash on the test vectors of FIPS 180-4 *)

Example sha256Hex_abc :
  Utils.sha256Hex (Js.lit "abc")
  = Js.lit "ba7816bf8f01cfea414140de5dae2223b00361a396177a9cb410ff61f20015ad".
Proof. vm_compute. reflexivity. Qed.

Example sha256Hex_empty :
  Utils.sha256Hex []
  = Js.lit "e3b0c44298fc1c149afbf4c8996fb92427ae41e4649b934ca495991b7852b855".
Proof. vm_compute. reflexivity. Qed.

Example sha256Hex_two_blocks :
  Utils.sha256Hex (Js.lit "abcdbcdecdefdefgefghfghighijhijkijkljklmklmnlmnomnopnopq")
  = Js.lit "248d6a61d20638b8e5c026930c3e6039a33ce45964ff2167f6ecedd419db06c1".
Proof. vm_compute. reflexivity. Qed.

(** The same vectors on the definition of the standard. *)
Example fips_abc :
  Spec.sha256Hex (Js.lit "abc")
  = Js.lit "ba7816bf8f01cfea414140de5dae2223b00361a396177a9cb410ff61f20015ad".
Proof. vm_compute. reflexivity. Qed.

Example fips_empty :
  Spec.sha256Hex []
  = Js.lit "e3b0c44298fc1c149afbf4c8996fb92427ae41e4649b934ca495991b7852b855".
Proof. vm_compute. reflexivity. Qed.

Example fips_two_blocks :
  Spec.sha256Hex (Js.lit "abcdbcdecdefdefgefghfghighijhijkijkljklmklmnlmnomnopnopq")
  = Js.lit "248d6a61d20638b8e5c026930c3e6039a33ce45964ff2167f6ecedd419db06c1".
Proof. vm_compute. reflexivity. Qed.

(** The euro sign, three bytes in UTF-8. *)
Example sha256Hex_euro :
  Js.utf8Encode [8364%N] = [0xE2; 0x82; 0xAC]%N.
Proof. reflexivity. Qed.

(** * Further properties *)

(** ** Trimming and whitespace *)

Module TrimFacts.

Lemma blank_app (a b : Js.str) : Spec.blank (a ++ b) <-> Spec.blank a /\ Spec.blank b.
Proof. unfold Spec.blank. apply List.Forall_app. Qed.

Lemma trimStart_blank (w s : Js.str) : Spec.blank w -> Js.trimStart (w ++ s) = Js.trimStart s.
Proof.
  induction 1 as [|c w Hc _ IH]; [reflexivity |].
  cbn. now rewrite Hc.
Qed.

Lemma trimStart_opens (s : Js.str) : Spec.opens s -> Js.trimStart s = s.
Proof. destruct s as [|c s]; [intros [] |]. cbn. now intros ->. Qed.

(** What [trimStart] strips is whitespace, and what it leaves does not
    begin with whitespace. *)
Lemma trimStart_spec (s : Js.str) :
  exists w, s = w ++ Js.trimStart s /\ Spec.blank w
            /\ (Js.trimStart s = [] \/ Spec.opens (Js.trimStart s)).
Proof.
  induction s as [|c s (w & Hs & Hw & Hopen)].
  - exists []. repeat split; [constructor | now left].
  - cbn [Js.trimStart]. destruct (Js.isWhiteSpace c) eqn:Hc.
    + exists (c :: w). split; [cbn; now f_equal |]. split; [now constructor | exact Hopen].
    + exists []. split; [reflexivity |]. split; [constructor | now right].
Qed.

Lemma trimStart_app_opens (x z : Js.str) :
  Spec.opens z -> Js.trimStart (x ++ z) = Js.trimStart x ++ z.
Proof.
  intros Hz. induction x as [|c x IH]; cbn.
  - now apply trimStart_opens.
  - destruct (Js.isWhiteSpace c); [exact IH | reflexivity].
Qed.

Lemma trimEnd_blank (s w : Js.str) : Spec.blank w -> Js.trimEnd (s ++ w) = Js.trimEnd s.
Proof.
  intros Hw. unfold Js.trimEnd. rewrite rev_app_distr, trimStart_blank; [reflexivity |].
  unfold Spec.blank. now apply Forall_rev.
Qed.

Lemma trimEnd_closes (s : Js.str) : Spec.closes s -> Js.trimEnd s = s.
Proof.
  intros Hs. unfold Js.trimEnd. rewrite trimStart_opens by exact Hs. apply rev_involutive.
Qed.

Lemma trimEnd_app_closes (p y : Js.str) :
  Spec.closes p -> Js.trimEnd (p ++ y) = p ++ Js.trimEnd y.
Proof.
  intros Hp. unfold Js.trimEnd.
  rewrite rev_app_distr, trimStart_app_opens by exact Hp.
  now rewrite rev_app_distr, rev_involutive.
Qed.

Lemma closes_app (a b : Js.str) : Spec.closes b -> Spec.closes (a ++ b).
Proof.
  unfold Spec.closes. rewrite rev_app_distr.
  destruct (rev b); [intros [] | auto].
Qed.

Lemma opens_app (a b : Js.str) : Spec.opens a -> Spec.opens (a ++ b).
Proof. destruct a; [intros [] | auto]. Qed.

Lemma closes_last (s : Js.str) :
  Spec.closes s <-> exists p c, s = p ++ [c] /\ Js.isWhiteSpace c = false.
Proof.
  unfold Spec.closes. split.
  - destruct (rev s) as [|c r] eqn:Hrev; [intros [] |]. intros Hc.
    exists (rev r), c. split; [| exact Hc].
    rewrite <- (rev_involutive s), Hrev. reflexivity.
  - intros (p & c & -> & Hc). rewrite rev_app_distr. exact Hc.
Qed.

Lemma trimEnd_spec (s : Js.str) :
  exists w, s = Js.trimEnd s ++ w /\ Spec.blank w
            /\ (Js.trimEnd s = [] \/ Spec.closes (Js.trimEnd s)).
Proof.
  destruct (trimStart_spec (rev s)) as (w & Hs & Hw & Hopen).
  exists (rev w). split; [| split].
  - unfold Js.trimEnd. rewrite <- rev_app_distr, <- Hs. symmetry. apply rev_involutive.
  - unfold Spec.blank. now apply Forall_rev.
  - unfold Js.trimEnd, Spec.closes. rewrite rev_involutive.
    destruct Hopen as [-> | Hopen]; [now left | now right].
Qed.

(** [trim] strips whitespace at both ends, and what it leaves neither
    begins nor ends with whitespace. *)
Lemma trim_spec (s : Js.str) :
  exists w1 w2, s = w1 ++ Js.trim s ++ w2 /\ Spec.blank w1 /\ Spec.blank w2
                /\ (Js.trim s = [] \/ (Spec.opens (Js.trim s) /\ Spec.closes (Js.trim s))).
Proof.
  destruct (trimStart_spec s) as (w1 & Hs & Hw1 & Hopen).
  destruct (trimEnd_spec (Js.trimStart s)) as (w2 & Ht & Hw2 & Hclose).
  exists w1, w2. unfold Js.trim. split; [| split; [exact Hw1 | split; [exact Hw2 |]]].
  - now rewrite <- Ht.
  - destruct Hclose as [Hnil | Hclose]; [now left | right].
    split; [| exact Hclose].
    destruct Hopen as [Hnil | Hopen].
    + rewrite Hnil in Hclose. destruct Hclose.
    + destruct (Js.trimEnd (Js.trimStart s)) as [|c t] eqn:Hend; [destruct Hclose |].
      rewrite Ht in Hopen. exact Hopen.
Qed.

Lemma trim_blank (s : Js.str) : Spec.blank s -> Js.trim s = [].
Proof.
  intros Hs. unfold Js.trim.
  rewrite <- (app_nil_r s), trimStart_blank by exact Hs. reflexivity.
Qed.

(** A text that neither begins nor ends with whitespace is what [trim]
    returns from it, whatever whitespace surrounds it. *)
Lemma trim_core (w1 m w2 : Js.str) :
  Spec.blank w1 -> Spec.blank w2 -> Spec.opens m -> Spec.closes m ->
  Js.trim (w1 ++ m ++ w2) = m.
Proof.
  intros Hw1 Hw2 Hopen Hclose. unfold Js.trim.
  rewrite trimStart_blank by exact Hw1.
  rewrite trimStart_opens by now apply opens_app.
  rewrite trimEnd_blank by exact Hw2.
  now apply trimEnd_closes.
Qed.

Lemma trim_fixed (m : Js.str) : Spec.opens m -> Spec.closes m -> Js.trim m = m.
Proof.
  intros Hopen Hclose.
  rewrite <- (trim_core [] m []) at 2; try assumption; try constructor.
  now rewrite app_nil_r.
Qed.

Lemma trim_idempotent (s : Js.str) : Js.trim (Js.trim s) = Js.trim s.
Proof.
  destruct (trim_spec s) as (_ & _ & _ & _ & _ & [-> | (Hopen & Hclose)]); [reflexivity |].
  now apply trim_fixed.
Qed.

(** A text that begins and ends with other than whitespace survives the
    trimming of any text it occurs in. *)
Lemma trim_keeps (x m y : Js.str) :
  Spec.opens m -> Spec.closes m ->
  Js.trim (x ++ m ++ y) = Js.trimStart x ++ m ++ Js.trimEnd y.
Proof.
  intros Hopen Hclose. unfold Js.trim.
  rewrite trimStart_app_opens by now apply opens_app.
  rewrite app_assoc, trimEnd_app_closes by now apply closes_app.
  now rewrite <- app_assoc.
Qed.

Lemma trim_occurs (s : Js.str) : Spec.occursIn (Js.trim s) s.
Proof. destruct (trim_spec s) as (w1 & w2 & Hs & _). now exists w1, w2. Qed.

Lemma trim_length (s : Js.str) : (List.length (Js.trim s) <= List.length s)%nat.
Proof.
  destruct (trim_spec s) as (w1 & w2 & Hs & _).
  rewrite Hs at 2. rewrite !length_app. lia.
Qed.

Lemma trim_not_blank (s : Js.str) : Js.trim s <> [] <-> ~ Spec.blank s.
Proof.
  split.
  - intros Hne Hblank. now apply Hne, trim_blank.
  - intros Hnot Hnil. apply Hnot.
    destruct (trim_spec s) as (w1 & w2 & Hs & Hw1 & Hw2 & _).
    rewrite Hs, Hnil. apply blank_app. split; [exact Hw1 | exact Hw2].
Qed.

End TrimFacts.

Module SqueezeFacts.
Import TrimFacts.

(** The replacement of a character that is not of the class. *)
Lemma replaceRuns_keep (cls : N -> bool) (b : bool) (c : N) (s : Js.str) :
  cls c = false -> Js.replaceRuns cls b (c :: s) = c :: Js.replaceRuns cls false s.
Proof. intros Hc. cbn. now rewrite Hc. Qed.

Lemma replaceRuns_opens (b : bool) (s : Js.str) :
  Spec.opens s ->
  Js.replaceRuns Js.isWhiteSpace b s = Js.replaceRuns Js.isWhiteSpace false s
  /\ Spec.opens (Js.replaceRuns Js.isWhiteSpace b s).
Proof.
  destruct s as [|c s]; [intros [] |]. intros Hc.
  rewrite !replaceRuns_keep by exact Hc. split; [reflexivity | exact Hc].
Qed.

(** A text is replaced piece by piece, the second piece from the state
    the first one ends in. *)
Lemma replaceRuns_app (cls : N -> bool) (b : bool) (x y : Js.str) :
  exists b', Js.replaceRuns cls b (x ++ y)
             = Js.replaceRuns cls b x ++ Js.replaceRuns cls b' y.
Proof.
  revert b; induction x as [|c x IH]; intros b.
  - exists b. reflexivity.
  - cbn. destruct (cls c).
    + destruct (IH true) as (b' & ->). exists b'. now destruct b.
    + destruct (IH false) as (b' & ->). exists b'. reflexivity.
Qed.

Lemma replaceRuns_app_closes (b : bool) (x y : Js.str) :
  Spec.closes x ->
  Js.replaceRuns Js.isWhiteSpace b (x ++ y)
  = Js.replaceRuns Js.isWhiteSpace b x ++ Js.replaceRuns Js.isWhiteSpace false y.
Proof.
  intros Hx. apply closes_last in Hx as (p & c & -> & Hc).
  rewrite <- app_assoc. cbn [app].
  destruct (replaceRuns_app Js.isWhiteSpace b p (c :: y)) as (b1 & ->).
  destruct (replaceRuns_app Js.isWhiteSpace b p [c]) as (b2 & ->).
  rewrite !replaceRuns_keep by exact Hc. cbn [Js.replaceRuns].
  now rewrite <- app_assoc.
Qed.

Lemma replaceRuns_closes (b : bool) (s : Js.str) :
  Spec.closes s -> Spec.closes (Js.replaceRuns Js.isWhiteSpace b s).
Proof.
  intros Hs. apply closes_last in Hs as (p & c & -> & Hc).
  destruct (replaceRuns_app Js.isWhiteSpace b p [c]) as (b' & ->).
  rewrite replaceRuns_keep by exact Hc. cbn [Js.replaceRuns].
  apply closes_last. eauto.
Qed.

Lemma replaceRuns_blank (b : bool) (w : Js.str) :
  Spec.blank w -> Spec.blank (Js.replaceRuns Js.isWhiteSpace b w).
Proof.
  intros Hw; revert b. induction Hw as [|c w Hc _ IH]; intros b; cbn; [constructor |].
  rewrite Hc. destruct b; [apply IH |]. constructor; [reflexivity | apply IH].
Qed.

(** Squeezing keeps, of a text, its trimmed part with its runs of
    whitespace replaced. *)
Lemma squeeze_trim (s : Js.str) :
  Spec.squeeze s = Js.replaceRuns Js.isWhiteSpace false (Js.trim s).
Proof.
  unfold Spec.squeeze.
  destruct (trim_spec s) as (w1 & w2 & Hs & Hw1 & Hw2 & Hcore).
  destruct Hcore as [Hnil | (Hopen & Hclose)].
  - rewrite Hnil in *. cbn [app] in Hs. cbn [Js.replaceRuns].
    apply trim_blank, replaceRuns_blank. rewrite Hs. apply blank_app. now split.
  - rewrite Hs at 1.
    destruct (replaceRuns_app Js.isWhiteSpace false w1 (Js.trim s ++ w2)) as (b1 & ->).
    rewrite replaceRuns_app_closes by exact Hclose.
    rewrite (proj1 (replaceRuns_opens b1 _ Hopen)).
    apply trim_core.
    + now apply replaceRuns_blank.
    + now apply replaceRuns_blank.
    + now apply replaceRuns_opens.
    + now apply replaceRuns_closes.
Qed.

Lemma squeeze_shape (s : Js.str) :
  Spec.squeeze s = []
  \/ (Spec.opens (Spec.squeeze s) /\ Spec.closes (Spec.squeeze s)).
Proof. unfold Spec.squeeze. destruct (trim_spec (Js.replaceRuns Js.isWhiteSpace false s)) as (_ & _ & _ & _ & _ & Hcore). exact Hcore. Qed.

Lemma replaceRuns_idempotent (cls : N -> bool) (b : bool) (s : Js.str) :
  cls Js.space = true ->
  Js.replaceRuns cls b (Js.replaceRuns cls b s) = Js.replaceRuns cls b s.
Proof.
  intros Hspace. revert b; induction s as [|c s IH]; intros b; [reflexivity |].
  cbn [Js.replaceRuns]. destruct (cls c) eqn:Hc.
  - destruct b; [apply IH |].
    cbn [Js.replaceRuns]. rewrite Hspace. f_equal. apply IH.
  - cbn [Js.replaceRuns]. rewrite Hc. f_equal. apply IH.
Qed.

Lemma squeeze_idempotent (s : Js.str) : Spec.squeeze (Spec.squeeze s) = Spec.squeeze s.
Proof.
  rewrite (squeeze_trim (Spec.squeeze s)).
  unfold Spec.squeeze at 1. rewrite trim_idempotent. fold (Spec.squeeze s).
  rewrite squeeze_trim. now apply replaceRuns_idempotent.
Qed.

Lemma squeeze_of_trim (s : Js.str) : Spec.squeeze (Js.trim s) = Spec.squeeze s.
Proof. now rewrite !squeeze_trim, trim_idempotent. Qed.

(** Line breaks are whitespace: replacing their runs first changes
    nothing to the replacement of the runs of whitespace. *)
Lemma replaceRuns_CrLf (b0 b : bool) (s : Js.str) :
  (b0 = true -> b = true) ->
  Js.replaceRuns Js.isWhiteSpace b (Js.replaceRuns Js.isCrLf b0 s)
  = Js.replaceRuns Js.isWhiteSpace b s.
Proof.
  revert b0 b; induction s as [|c s IH]; intros b0 b Hb; [reflexivity |].
  cbn [Js.replaceRuns]. destruct (Js.isCrLf c) eqn:Hcrlf.
  - assert (Hws : Js.isWhiteSpace c = true).
    { unfold Js.isCrLf in Hcrlf. unfold Js.isWhiteSpace.
      apply orb_true_iff in Hcrlf as [Hc | Hc]; apply N.eqb_eq in Hc; subst; reflexivity. }
    rewrite Hws. destruct b0.
    + rewrite (Hb eq_refl). now apply IH.
    + cbn [Js.replaceRuns]. change (Js.isWhiteSpace Js.space) with true. cbv iota.
      destruct b; [| f_equal]; now apply IH.
  - cbn [Js.replaceRuns]. destruct (Js.isWhiteSpace c).
    + destruct b; [| f_equal]; apply IH; discriminate.
    + f_equal. apply IH. discriminate.
Qed.

Lemma squeeze_safeOneLine (s : Js.str) : Spec.squeeze (Utils.safeOneLine s) = Spec.squeeze s.
Proof.
  unfold Utils.safeOneLine. rewrite squeeze_of_trim.
  unfold Spec.squeeze. now rewrite replaceRuns_CrLf.
Qed.

(** Squeezing is monotone for occurrence: what occurs in a text occurs,
    squeezed, in the squeezed text. *)
Lemma squeeze_occurs (q t : Js.str) :
  Spec.occursIn q t -> Spec.occursIn (Spec.squeeze q) (Spec.squeeze t).
Proof.
  intros (pre & post & ->).
  rewrite (squeeze_trim q).
  destruct (trim_spec q) as (w1 & w2 & Hq & Hw1 & Hw2 & Hcore).
  remember (Js.trim q) as m eqn:Hm. clear Hm. subst q.
  destruct Hcore as [Hnil | (Hopen & Hclose)].
  - rewrite Hnil. now exists [], (Spec.squeeze (pre ++ (w1 ++ [] ++ w2) ++ post)).
  - unfold Spec.squeeze.
    replace (pre ++ (w1 ++ m ++ w2) ++ post)
      with ((pre ++ w1) ++ m ++ (w2 ++ post))
      by now rewrite <- !app_assoc.
    destruct (replaceRuns_app Js.isWhiteSpace false (pre ++ w1) (m ++ (w2 ++ post)))
      as (b1 & ->).
    rewrite (replaceRuns_app_closes b1 m (w2 ++ post)) by exact Hclose.
    rewrite (proj1 (replaceRuns_opens b1 _ Hopen)).
    rewrite trim_keeps.
    + eexists _, _. reflexivity.
    + now apply replaceRuns_opens.
    + now apply replaceRuns_closes.
Qed.

Lemma squeeze_not_blank (s : Js.str) : Spec.squeeze s <> [] <-> ~ Spec.blank s.
Proof.
  rewrite squeeze_trim, <- trim_not_blank.
  destruct (trim_spec s) as (_ & _ & _ & _ & _ & [-> | (Hopen & _)]).
  - reflexivity.
  - destruct (Js.trim s) as [|c t]; [destruct Hopen |].
    rewrite replaceRuns_keep by exact Hopen. split; discriminate.
Qed.

End SqueezeFacts.

(** ** utils.ts: the window of [chunkTextAround] *)

Module ChunkFacts.
Import TrimFacts.

Lemma slice_occurs {A} (l : list A) (from to : Z) :
  exists pre post, l = pre ++ Js.slice l from to ++ post.
Proof.
  unfold Js.slice. cbv zeta.
  set (a := Z.to_nat (Js.relIndex (Z.of_nat (List.length l)) from)).
  set (n := Z.to_nat (_ - _)).
  exists (firstn a l), (skipn n (skipn a l)).
  now rewrite firstn_skipn, firstn_skipn.
Qed.

Lemma slice_length {A} (l : list A) (from to : Z) :
  0 <= from -> 0 <= to ->
  Js.len (Js.slice l from to) <= Z.max 0 (to - from).
Proof.
  intros Hfrom Hto. unfold Js.len, Js.slice, Js.relIndex. cbv zeta.
  destruct (Z.ltb_spec from 0); [lia |]. destruct (Z.ltb_spec to 0); [lia |].
  rewrite length_firstn, length_skipn. lia.
Qed.

(** The element at a position within the bounds of a slice is in the
    slice. *)
Lemma slice_holds {A} (x y : list A) (c : A) (from to : Z) :
  0 <= from <= Js.len x -> Js.len x < to ->
  In c (Js.slice (x ++ c :: y) from to).
Proof.
  intros Hfrom Hto. unfold Js.len in *. unfold Js.slice, Js.relIndex. cbv zeta.
  destruct (Z.ltb_spec from 0); [lia |]. destruct (Z.ltb_spec to 0); [lia |].
  rewrite length_app. cbn [List.length].
  set (n := Z.of_nat (List.length x + S (List.length y))).
  assert (Ha : (Z.to_nat (Z.min from n) <= List.length x)%nat) by lia.
  rewrite skipn_app.
  replace (Z.to_nat (Z.min from n) - List.length x)%nat with 0%nat by lia.
  rewrite skipn_O, firstn_app.
  apply in_or_app. right.
  rewrite length_skipn.
  destruct (Z.to_nat (Z.min to n - Z.min from n) - (List.length x - Z.to_nat (Z.min from n)))%nat
    eqn:Hk; [lia |].
  now left.
Qed.

Lemma clamp_bounds (n lo hi : Z) : lo <= hi -> lo <= Utils.clamp n lo hi <= hi.
Proof. unfold Utils.clamp. lia. Qed.

Lemma chunk_occurs (text : Js.str) (index radius : Z) :
  Spec.occursIn (Utils.chunkTextAround text index radius) text.
Proof.
  unfold Utils.chunkTextAround. cbv zeta.
  eapply StrFacts.occursIn_trans; [apply trim_occurs |].
  apply slice_occurs.
Qed.

Lemma chunk_length (text : Js.str) (index radius : Z) :
  Js.len (Utils.chunkTextAround text index radius) <= Z.max 0 (2 * radius).
Proof.
  unfold Utils.chunkTextAround. cbv zeta.
  set (n := Js.len text).
  assert (Hn : 0 <= n) by (unfold n, Js.len; lia).
  pose proof (clamp_bounds (index - radius) 0 n Hn) as Hs.
  pose proof (clamp_bounds (index + radius) 0 n Hn) as He.
  pose proof (slice_length text (Utils.clamp (index - radius) 0 n)
                (Utils.clamp (index + radius) 0 n) (proj1 Hs) (proj1 He)) as Hlen.
  pose proof (trim_length (Js.slice text (Utils.clamp (index - radius) 0 n)
                             (Utils.clamp (index + radius) 0 n))) as Htrim.
  unfold Js.len in *. unfold Utils.clamp in *. lia.
Qed.

Lemma chunk_shape (text : Js.str) (index radius : Z) :
  Utils.chunkTextAround text index radius = []
  \/ (Spec.opens (Utils.chunkTextAround text index radius)
      /\ Spec.closes (Utils.chunkTextAround text index radius)).
Proof.
  unfold Utils.chunkTextAround. cbv zeta.
  destruct (trim_spec (Js.slice text (Utils.clamp (index - radius) 0 (Js.len text))
                         (Utils.clamp (index + radius) 0 (Js.len text))))
    as (_ & _ & _ & _ & _ & Hcore).
  exact Hcore.
Qed.

Lemma not_blank_In (s : Js.str) (c : N) :
  In c s -> Js.isWhiteSpace c = false -> ~ Spec.blank s.
Proof.
  intros Hin Hc Hblank. unfold Spec.blank in Hblank.
  rewrite List.Forall_forall in Hblank. apply Hblank in Hin. congruence.
Qed.

Lemma opens_not_blank (s : Js.str) : Spec.opens s -> ~ Spec.blank s.
Proof.
  destruct s as [|c s]; [intros [] |]. intros Hc.
  apply (not_blank_In (c :: s) c); [now left | exact Hc].
Qed.

Lemma truthy_not_nil (s : Js.str) : Js.truthy s = true <-> s <> [].
Proof. destruct s; cbn; split; congruence. Qed.

(** A chunk cut at a position that has a character other than whitespace
    at it, or right before it, is not empty. *)
Lemma chunk_not_empty (pre suf : Js.str) (radius : Z) :
  1 <= radius ->
  Spec.opens suf \/ Spec.closes pre ->
  Utils.chunkTextAround (pre ++ suf) (Js.len pre) radius <> [].
Proof.
  intros Hr Hgood. unfold Utils.chunkTextAround. cbv zeta.
  apply trim_not_blank.
  set (n := Js.len (pre ++ suf)).
  assert (Hn : n = Js.len pre + Js.len suf).
  { unfold n, Js.len. rewrite length_app. lia. }
  assert (Hpre : 0 <= Js.len pre) by (unfold Js.len; lia).
  assert (Hsuf : 0 <= Js.len suf) by (unfold Js.len; lia).
  destruct Hgood as [Hopen | Hclose].
  - destruct suf as [|c rest]; [destruct Hopen |].
    apply (not_blank_In _ c); [| exact Hopen].
    assert (Hpos : 1 <= Js.len (c :: rest)) by (unfold Js.len; cbn [List.length]; lia).
    apply slice_holds; unfold Utils.clamp; lia.
  - apply closes_last in Hclose as (p & c & -> & Hc).
    rewrite <- app_assoc. cbn [app].
    apply (not_blank_In _ c); [| exact Hc].
    assert (Hp : Js.len (p ++ [c]) = Js.len p + 1).
    { unfold Js.len. rewrite length_app. cbn [List.length]. lia. }
    assert (Hp0 : 0 <= Js.len p) by (unfold Js.len; lia).
    apply slice_holds; unfold Utils.clamp; lia.
Qed.

End ChunkFacts.

(** ** Patterns of the rule table *)

Module RegexFacts.

(** Boolean tests on code units, as arithmetic. *)
Ltac unbool H :=
  repeat first [ rewrite orb_true_iff in H | rewrite andb_true_iff in H
               | rewrite N.leb_le in H | rewrite N.eqb_eq in H ].

Lemma word_char_not_space (c : N) : Js.isWordChar c = true -> Js.isWhiteSpace c = false.
Proof.
  intros Hword. destruct (Js.isWhiteSpace c) eqn:Hws; [exfalso | reflexivity].
  unfold Js.isWordChar in Hword. unfold Js.isWhiteSpace in Hws.
  unbool Hword. unbool Hws. lia.
Qed.

Lemma canonicalize_space (x : N) :
  Js.isWhiteSpace x = true -> Regex.canonicalize x = x.
Proof.
  intros Hws. unfold Regex.canonicalize.
  destruct ((97 <=? x) && (x <=? 122))%N eqn:Hrange; [exfalso | reflexivity].
  unfold Js.isWhiteSpace in Hws.
  unbool Hrange. unbool Hws. lia.
Qed.

Lemma atom_not_space (c x : N) :
  Js.isWhiteSpace (Regex.canonicalize c) = false ->
  Regex.atomMatches (Regex.Chr c) x = true -> Js.isWhiteSpace x = false.
Proof.
  intros Hc Hmatch. cbn in Hmatch. apply N.eqb_eq in Hmatch.
  destruct (Js.isWhiteSpace x) eqn:Hx; [| reflexivity].
  rewrite (canonicalize_space x Hx) in Hmatch. congruence.
Qed.

(** A match of an anchored pattern begins at a character that is not
    whitespace, or follows one. *)
Lemma run_anchored (r : Regex.t) :
  Spec.anchored r = true ->
  forall prev s k, Regex.run r prev s k = true ->
    Spec.opens s \/ exists p, prev = Some p /\ Js.isWhiteSpace p = false.
Proof.
  induction r as [|[c|]| |r1 IH1 r2 _|r1 IH1 r2 IH2|[c|]]; cbn [Spec.anchored];
    try discriminate; intros Hanch prev s k Hrun; cbn [Regex.run] in Hrun.
  - destruct s as [|x rest]; [discriminate |].
    apply andb_true_iff in Hrun as (Hx & _). left.
    apply (atom_not_space c x); [now apply negb_true_iff | exact Hx].
  - apply andb_true_iff in Hrun as (Hxor & _).
    destruct (Regex.isWordAt s) eqn:Hat.
    + left. destruct s as [|x rest]; [discriminate |].
      now apply word_char_not_space.
    + right. rewrite xorb_false_r in Hxor.
      destruct prev as [p|]; [| discriminate].
      exists p. split; [reflexivity | now apply word_char_not_space].
  - eapply IH1; eauto.
  - apply andb_true_iff in Hanch as (H1 & H2).
    apply orb_true_iff in Hrun as [Hrun | Hrun]; eauto.
  - destruct s as [|x rest]; [discriminate |]. cbn [Regex.plus] in Hrun.
    apply andb_true_iff in Hrun as (Hx & _). left.
    apply (atom_not_space c x); [now apply negb_true_iff | exact Hx].
Qed.

Lemma before_last (prev : option N) (pre : Js.str) (x : N) :
  Spec.before prev (pre ++ [x]) = Some x.
Proof. unfold Spec.before. rewrite List.map_app. cbn. apply last_last. Qed.

Lemma last_any_default {A} (a : A) (l : list A) (d d' : A) :
  List.last (a :: l) d = List.last (a :: l) d'.
Proof. revert a; induction l as [|b l IH]; intros a; [reflexivity | apply (IH b)]. Qed.

Lemma before_cons (prev : option N) (x : N) (pre : Js.str) :
  Spec.before prev (x :: pre) = Spec.before (Some x) pre.
Proof.
  unfold Spec.before. destruct pre as [|y pre]; [reflexivity |].
  exact (last_any_default (Some y) (List.map Some pre) prev (Some x)).
Qed.

(** The index that the scan returns is a position of the text at which
    the pattern matches. *)
Lemma execFrom_spec (r : Regex.t) (s : Js.str) :
  forall prev i j,
    Regex.execFrom r prev s i = Some j ->
    exists pre suf, s = pre ++ suf /\ j = i + Js.len pre
                    /\ Regex.matchesAt r (Spec.before prev pre) suf = true.
Proof.
  induction s as [|x s IH]; intros prev i j; cbn [Regex.execFrom].
  - destruct (Regex.matchesAt r prev []) eqn:Hm; [| discriminate].
    intros [= <-]. exists [], []. repeat split; [unfold Js.len; cbn [List.length]; lia | exact Hm].
  - destruct (Regex.matchesAt r prev (x :: s)) eqn:Hm.
    + intros [= <-]. exists [], (x :: s). repeat split; [unfold Js.len; cbn [List.length]; lia | exact Hm].
    + intros Hexec. apply IH in Hexec as (pre & suf & -> & -> & Hmatch).
      exists (x :: pre), suf. split; [reflexivity |]. split.
      * unfold Js.len. cbn [List.length]. lia.
      * now rewrite before_cons.
Qed.

Lemma before_closes (pre : Js.str) (p : N) :
  Spec.before None pre = Some p -> Js.isWhiteSpace p = false -> Spec.closes pre.
Proof.
  intros Hbefore Hp. apply TrimFacts.closes_last.
  destruct (rev pre) as [|c r] eqn:Hrev.
  - apply (f_equal (@rev N)) in Hrev. rewrite rev_involutive in Hrev. subst pre.
    discriminate.
  - apply (f_equal (@rev N)) in Hrev. rewrite rev_involutive in Hrev. cbn in Hrev. subst pre.
    rewrite before_last in Hbefore. injection Hbefore as ->.
    exists (rev r), p. now split.
Qed.

End RegexFacts.

(** ** policy.ts: the quote of a rule *)

Module QuoteFacts.
Import ChunkFacts RegexFacts.

(** The leftmost match of an anchored pattern is at a position with a
    character other than whitespace at it or right before it. *)
Lemma exec_position (pattern : Regex.t) (text : Js.str) (index : Z) :
  Spec.anchored pattern = true ->
  Regex.exec pattern text = Some index ->
  exists pre suf, text = pre ++ suf /\ index = Js.len pre
                  /\ (Spec.opens suf \/ Spec.closes pre).
Proof.
  intros Hanch Hexec. unfold Regex.exec in Hexec.
  apply execFrom_spec in Hexec as (pre & suf & -> & -> & Hmatch).
  exists pre, suf. split; [reflexivity |]. split; [lia |].
  unfold Regex.matchesAt in Hmatch.
  apply (run_anchored pattern Hanch) in Hmatch as [Hopen | (p & Hp & Hws)].
  - now left.
  - right. now apply (before_closes pre p).
Qed.

Lemma extractQuote_spec (text : Js.str) (pattern : Regex.t) (quote : Js.str) :
  Policy.extractQuote text pattern = Some quote ->
  quote <> [] /\ Spec.occursIn quote text /\ Js.len quote <= 440
  /\ Spec.opens quote /\ Spec.closes quote.
Proof.
  unfold Policy.extractQuote.
  destruct (Regex.exec pattern text) as [index|]; [| discriminate].
  cbv zeta. destruct (Js.truthy _) eqn:Htruthy; [| discriminate].
  intros [= <-]. apply truthy_not_nil in Htruthy.
  split; [exact Htruthy |]. split; [apply chunk_occurs |].
  split; [apply (chunk_length text index 220) |].
  destruct (chunk_shape text index 220) as [Hnil | Hshape]; [contradiction | exact Hshape].
Qed.

Lemma extractQuote_anchored (text : Js.str) (pattern : Regex.t) :
  Spec.anchored pattern = true ->
  Regex.test pattern text = true ->
  exists quote, Policy.extractQuote text pattern = Some quote.
Proof.
  intros Hanch Htest. unfold Regex.test in Htest. unfold Policy.extractQuote.
  destruct (Regex.exec pattern text) as [index|] eqn:Hexec; [| discriminate].
  destruct (exec_position pattern text index Hanch Hexec) as (pre & suf & -> & -> & Hgood).
  cbv zeta.
  pose proof (chunk_not_empty pre suf 220 ltac:(lia) Hgood) as Hne.
  apply truthy_not_nil in Hne. rewrite Hne. eauto.
Qed.

Lemma BASE_RULES_anchored (rule : Policy.KeywordRule.t) :
  In rule Policy.BASE_RULES -> Spec.anchored (Policy.KeywordRule.pattern rule) = true.
Proof.
  assert (Hall : forallb (fun rule => Spec.anchored (Policy.KeywordRule.pattern rule))
                   Policy.BASE_RULES = true) by reflexivity.
  rewrite forallb_forall in Hall. apply Hall.
Qed.

End QuoteFacts.

(** Every rule of the table that matches a text yields a quote of it: a
    window of at most 440 code units around the match, cut from the text
    and trimmed, never empty. *)
Theorem fired_rule_has_quote (rule : Policy.KeywordRule.t) (text : Js.str) :
  In rule Policy.BASE_RULES ->
  Regex.test (Policy.KeywordRule.pattern rule) text = true ->
  exists quote,
    Policy.extractQuote text (Policy.KeywordRule.pattern rule) = Some quote
    /\ quote <> []
    /\ Spec.occursIn quote text
    /\ Js.len quote <= 440
    /\ Spec.opens quote /\ Spec.closes quote.
Proof.
  intros Hin Htest.
  destruct (QuoteFacts.extractQuote_anchored text _ (QuoteFacts.BASE_RULES_anchored rule Hin) Htest)
    as (quote & Hquote).
  exists quote. split; [exact Hquote |].
  now apply (QuoteFacts.extractQuote_spec text (Policy.KeywordRule.pattern rule)).
Qed.

(** ** policy.ts: the rule run, step by step *)

Section RunFacts.
Context `{Js.Host}.

Lemma applyRule_fires snapshot profile st rule :
  Policy.applyRule snapshot profile st rule
  = if Spec.fires snapshot profile rule
    then {| Policy.rulesTriggered := Policy.rulesTriggered st ++ [Policy.KeywordRule.id rule];
            Policy.risk := Policy.bumpRisk (Policy.risk st) (Policy.KeywordRule.severity rule);
            Policy.quotes :=
              match Policy.extractQuote
                      (Policy.getSectionText snapshot (Policy.KeywordRule.section rule))
                      (Policy.KeywordRule.pattern rule) with
              | Some quote =>
                  Policy.quotes st ++
                  [ {| EvidenceQuote.section := Policy.quoteSection (Policy.KeywordRule.section rule);
                       EvidenceQuote.quote := quote;
                       EvidenceQuote.reason := Some (Policy.KeywordRule.reason rule) |} ]
              | None => Policy.quotes st
              end |}
    else st.
Proof.
  unfold Policy.applyRule, Spec.fires. cbv zeta.
  destruct (Js.truthy _); cbn [negb andb]; [| reflexivity].
  destruct (Regex.test _ _); cbn [negb andb]; [| reflexivity].
  destruct (_ && _); reflexivity.
Qed.

Lemma loop_rules snapshot profile rules st :
  Policy.rulesTriggered (fold_left (Policy.applyRule snapshot profile) rules st)
  = Policy.rulesTriggered st
    ++ List.map Policy.KeywordRule.id (List.filter (Spec.fires snapshot profile) rules).
Proof.
  revert st; induction rules as [|rule rules IH]; intros st; cbn [fold_left List.filter].
  - cbn. now rewrite app_nil_r.
  - rewrite IH, applyRule_fires.
    destruct (Spec.fires snapshot profile rule); [| reflexivity].
    cbn [Policy.rulesTriggered List.map]. now rewrite <- app_assoc.
Qed.

Lemma loop_risk snapshot profile rules st :
  Policy.risk (fold_left (Policy.applyRule snapshot profile) rules st)
  = fold_left Policy.bumpRisk
      (List.map Policy.KeywordRule.severity (List.filter (Spec.fires snapshot profile) rules))
      (Policy.risk st).
Proof.
  revert st; induction rules as [|rule rules IH]; intros st; cbn [fold_left List.filter];
    [reflexivity |].
  rewrite IH, applyRule_fires.
  destruct (Spec.fires snapshot profile rule); reflexivity.
Qed.

(** What holds of the quotes before the loop and of the quote of every
    rule holds of the quotes after the loop. *)
Lemma loop_quotes (P : EvidenceQuote.t -> Prop) snapshot profile rules st :
  Forall P (Policy.quotes st) ->
  (forall rule quote,
      In rule rules -> Spec.fires snapshot profile rule = true ->
      Policy.extractQuote (Policy.getSectionText snapshot (Policy.KeywordRule.section rule))
        (Policy.KeywordRule.pattern rule) = Some quote ->
      P {| EvidenceQuote.section := Policy.quoteSection (Policy.KeywordRule.section rule);
           EvidenceQuote.quote := quote;
           EvidenceQuote.reason := Some (Policy.KeywordRule.reason rule) |}) ->
  Forall P (Policy.quotes (fold_left (Policy.applyRule snapshot profile) rules st)).
Proof.
  revert st; induction rules as [|rule rules IH]; intros st Hst Hrule; cbn [fold_left];
    [exact Hst |].
  apply IH; [| intros r q Hin; apply Hrule; now right].
  rewrite applyRule_fires.
  destruct (Spec.fires snapshot profile rule) eqn:Hfires; [| exact Hst].
  cbn [Policy.quotes].
  destruct (Policy.extractQuote _ _) as [quote|] eqn:Hquote; [| exact Hst].
  apply List.Forall_app. split; [exact Hst |].
  constructor; [| constructor]. apply Hrule; auto. now left.
Qed.

Lemma loop_quotes_length snapshot profile rules st :
  (List.length (Policy.quotes (fold_left (Policy.applyRule snapshot profile) rules st))
   <= List.length (Policy.quotes st) + List.length rules)%nat.
Proof.
  revert st; induction rules as [|rule rules IH]; intros st; cbn [fold_left List.length];
    [lia |].
  etransitivity; [apply IH |]. rewrite applyRule_fires.
  destruct (Spec.fires snapshot profile rule); [| lia].
  cbn [Policy.quotes]. destruct (Policy.extractQuote _ _); [| lia].
  rewrite length_app. cbn [List.length]. lia.
Qed.

(** A rule of the table that fires leaves a quote. *)
Lemma loop_quotes_fired snapshot profile rules st rule :
  (forall r, In r rules -> Spec.anchored (Policy.KeywordRule.pattern r) = true) ->
  In rule rules -> Spec.fires snapshot profile rule = true ->
  Policy.quotes (fold_left (Policy.applyRule snapshot profile) rules st) <> [].
Proof.
  intros Hanch Hin Hfires.
  assert (Hgrow : forall rs s, Policy.quotes s <> [] ->
            Policy.quotes (fold_left (Policy.applyRule snapshot profile) rs s) <> []).
  { induction rs as [|r rs IH]; intros s Hs; cbn [fold_left]; [exact Hs |].
    apply IH. rewrite applyRule_fires.
    destruct (Spec.fires snapshot profile r); [| exact Hs].
    cbn [Policy.quotes]. destruct (Policy.extractQuote _ _); [| exact Hs].
    destruct (Policy.quotes s); [contradiction | discriminate]. }
  revert st; induction rules as [|r rules IH]; intros st; [destruct Hin |].
  cbn [fold_left]. destruct Hin as [-> | Hin].
  - apply Hgrow. rewrite applyRule_fires, Hfires. cbn [Policy.quotes].
    unfold Spec.fires in Hfires. cbv zeta in Hfires.
    apply andb_true_iff in Hfires as (Hfires & _).
    apply andb_true_iff in Hfires as (_ & Htest).
    destruct (QuoteFacts.extractQuote_anchored _ _ (Hanch rule (or_introl eq_refl)) Htest)
      as (quote & ->).
    destruct (Policy.quotes st); discriminate.
  - apply IH; [| exact Hin]. intros r' Hr'. apply Hanch. now right.
Qed.

Lemma interactionHits_eq snapshot otherMeds :
  match List.filter Js.truthy (default [] otherMeds) with
  | [] => []
  | _ :: _ =>
      Policy.anyOtherMedMentionedInInteractions snapshot
        (List.filter Js.truthy (default [] otherMeds))
  end
  = Spec.interactionHits snapshot otherMeds.
Proof.
  unfold Spec.interactionHits.
  destruct (List.filter Js.truthy (default [] otherMeds)); reflexivity.
Qed.

(** [runRules] in three steps after the loop. *)
Lemma runRules_steps snapshot profile otherMeds :
  Policy.runRules snapshot profile otherMeds
  = let st0 := Spec.base snapshot profile in
    let st1 :=
      if Spec.onAnticoagulant profile
         && existsb (Js.str_eqb Policy.BLEEDING_RISK_LANGUAGE) (Policy.rulesTriggered st0)
      then {| Policy.rulesTriggered :=
                Policy.rulesTriggered st0 ++ [Policy.PROFILE_ANTICOAGULANT_UPGRADE];
              Policy.quotes := Policy.quotes st0;
              Policy.risk := Policy.bumpRisk (Policy.risk st0) HIGH |}
      else st0 in
    let st2 :=
      if Spec.kidneyCondition profile
         && existsb (Js.str_eqb Policy.RENAL_RISK_LANGUAGE) (Policy.rulesTriggered st1)
      then {| Policy.rulesTriggered :=
                Policy.rulesTriggered st1 ++ [Policy.PROFILE_CKD_UPGRADE];
              Policy.quotes := Policy.quotes st1;
              Policy.risk := Policy.bumpRisk (Policy.risk st1) HIGH |}
      else st1 in
    match Spec.interactionHits snapshot otherMeds with
    | [] => st2
    | _ :: _ =>
        {| Policy.rulesTriggered :=
             Policy.rulesTriggered st2 ++ [Policy.INTERACTION_OTHER_MED_MENTIONED];
           Policy.quotes :=
             Policy.quotes st2
             ++ Policy.interactionQuotes snapshot (Spec.interactionHits snapshot otherMeds);
           Policy.risk := Policy.bumpRisk (Policy.risk st2) HIGH |}
    end.
Proof.
  unfold Policy.runRules. cbv zeta. rewrite interactionHits_eq.
  unfold Spec.base, Spec.onAnticoagulant, Spec.kidneyCondition. reflexivity.
Qed.

Lemma bumpRisk_HIGH (r : RiskLabel) : Policy.bumpRisk r HIGH = HIGH.
Proof. now destruct r. Qed.

Lemma upgrade_quotes (c : bool) (st : Policy.Running) (marker : list Js.str) (r : RiskLabel) :
  Policy.quotes
    (if c
     then {| Policy.rulesTriggered := marker; Policy.quotes := Policy.quotes st; Policy.risk := r |}
     else st)
  = Policy.quotes st.
Proof. now destruct c. Qed.

(** The quotes of the run: those of the loop, then those of the
    interaction hits. *)
Lemma runRules_quotes snapshot profile otherMeds :
  Policy.quotes (Policy.runRules snapshot profile otherMeds)
  = Policy.quotes (Spec.base snapshot profile)
    ++ Policy.interactionQuotes snapshot (Spec.interactionHits snapshot otherMeds).
Proof.
  rewrite runRules_steps. cbv zeta.
  generalize (Spec.base snapshot profile) as st0. intros st0.
  destruct (Spec.interactionHits snapshot otherMeds) as [|hit hits] eqn:Hhits.
  - rewrite !upgrade_quotes. unfold Policy.interactionQuotes.
    change (Js.slice [] 0 3) with (@nil Js.str). cbn [flat_map]. now rewrite app_nil_r.
  - cbn [Policy.quotes]. now rewrite !upgrade_quotes.
Qed.

End RunFacts.

(** ** evidence.ts: what the verification of a quote accepts *)

Section VerifyFacts.
Context `{Js.Host}.
Import TrimFacts SqueezeFacts ChunkFacts.

Lemma map_trimStart (f : N -> N) (s : Js.str) :
  (forall c, Js.isWhiteSpace (f c) = Js.isWhiteSpace c) ->
  List.map f (Js.trimStart s) = Js.trimStart (List.map f s).
Proof.
  intros Hf. induction s as [|c s IH]; [reflexivity |].
  cbn [Js.trimStart List.map]. rewrite Hf.
  destruct (Js.isWhiteSpace c); [exact IH | reflexivity].
Qed.

Lemma map_trim (f : N -> N) (s : Js.str) :
  (forall c, Js.isWhiteSpace (f c) = Js.isWhiteSpace c) ->
  List.map f (Js.trim s) = Js.trim (List.map f s).
Proof.
  intros Hf. unfold Js.trim, Js.trimEnd.
  now rewrite List.map_rev, map_trimStart, List.map_rev, map_trimStart by exact Hf.
Qed.

Lemma replaceRuns_map (f : N -> N) (b : bool) (s : Js.str) :
  (forall c, Js.isWhiteSpace (f c) = Js.isWhiteSpace c) ->
  Js.replaceRuns Js.isWhiteSpace b (List.map f s)
  = List.map (fun c => if Js.isWhiteSpace c then Js.space else f c)
      (Js.replaceRuns Js.isWhiteSpace b s).
Proof.
  intros Hf. revert b; induction s as [|c s IH]; intros b; [reflexivity |].
  cbn [Js.replaceRuns List.map]. rewrite Hf.
  destruct (Js.isWhiteSpace c) eqn:Hc.
  - destruct b; [apply IH |]. cbn [List.map].
    change (Js.isWhiteSpace Js.space) with true. cbv iota. f_equal. apply IH.
  - cbn [List.map]. rewrite Hc. f_equal. apply IH.
Qed.

Lemma lowerUnit_space (c : N) :
  Js.isWhiteSpace (BasicLatin.lowerUnit c) = Js.isWhiteSpace c.
Proof.
  unfold BasicLatin.lowerUnit.
  destruct ((65 <=? c) && (c <=? 90))%N eqn:Hupper; [| reflexivity].
  RegexFacts.unbool Hupper.
  assert (Hc : Js.isWhiteSpace c = false).
  { destruct (Js.isWhiteSpace c) eqn:Hws; [exfalso | reflexivity].
    unfold Js.isWhiteSpace in Hws. RegexFacts.unbool Hws. lia. }
  rewrite Hc.
  destruct (Js.isWhiteSpace (c + 32)) eqn:Hws; [exfalso | reflexivity].
  unfold Js.isWhiteSpace in Hws. RegexFacts.unbool Hws. lia.
Qed.

(** Text of the Basic Latin block, by evaluation. *)
Lemma ascii_check (s : Js.str) :
  forallb (fun c => c <? 128)%N s = true -> Spec.ascii s.
Proof.
  intros Hall. apply List.Forall_forall. intros c Hin.
  rewrite forallb_forall in Hall. now apply N.ltb_lt, Hall.
Qed.

Lemma ascii_piece (a b : Js.str) : Spec.occursIn a b -> Spec.ascii b -> Spec.ascii a.
Proof.
  intros (pre & post & ->) Hb. unfold Spec.ascii in *.
  apply List.Forall_app in Hb as (_ & Hb). now apply List.Forall_app in Hb as (Ha & _).
Qed.

Lemma ascii_replaceRuns (cls : N -> bool) (b : bool) (s : Js.str) :
  Spec.ascii s -> Spec.ascii (Js.replaceRuns cls b s).
Proof.
  intros Hs. revert b. induction Hs as [|c s Hc _ IH]; intros b; [constructor |].
  cbn [Js.replaceRuns]. destruct (cls c).
  - destruct b; [apply IH |]. constructor; [reflexivity | apply IH].
  - constructor; [exact Hc | apply IH].
Qed.

Lemma ascii_trim (s : Js.str) : Spec.ascii s -> Spec.ascii (Js.trim s).
Proof. apply ascii_piece, trim_occurs. Qed.

Lemma ascii_squeeze (s : Js.str) : Spec.ascii s -> Spec.ascii (Spec.squeeze s).
Proof. intros Hs. now apply ascii_trim, ascii_replaceRuns. Qed.

Lemma ascii_join (sep : Js.str) (items : list Js.str) :
  Spec.ascii sep -> Forall Spec.ascii items -> Spec.ascii (Js.join sep items).
Proof.
  intros Hsep Hitems. induction Hitems as [|p rest Hp Hrest IH]; [constructor |].
  destruct rest as [|q rest]; [exact Hp |].
  change (Js.join sep (p :: q :: rest)) with (p ++ sep ++ Js.join sep (q :: rest)).
  unfold Spec.ascii in *. rewrite !List.Forall_app. auto.
Qed.

(** On text of the Basic Latin block the matcher's normalization is the
    squeeze, followed by a change of letters that keeps whitespace
    apart. *)
Lemma normalizeForMatch_ascii :
  Spec.lowersAscii ->
  exists g : N -> N,
    forall s, Spec.ascii s -> Utils.normalizeForMatch s = List.map g (Spec.squeeze s).
Proof.
  intros Hlower.
  exists (fun c => if Js.isWhiteSpace c then Js.space else BasicLatin.lowerUnit c).
  intros s Hs. unfold Utils.normalizeForMatch, Spec.squeeze.
  rewrite (Hlower s Hs), replaceRuns_map by exact lowerUnit_space.
  symmetry. apply map_trim.
  intros c. destruct (Js.isWhiteSpace c) eqn:Hc; [reflexivity |].
  now rewrite lowerUnit_space.
Qed.

Lemma occursIn_map (g : N -> N) (a b : Js.str) :
  Spec.occursIn a b -> Spec.occursIn (List.map g a) (List.map g b).
Proof.
  intros (pre & post & ->). exists (List.map g pre), (List.map g post).
  now rewrite !List.map_app.
Qed.

(** The verification, on text of the Basic Latin block: the squeezed
    quote is not empty and occurs, up to the change of letters, in the
    squeezed text. *)
Lemma quote_squeezed (text quote : Js.str) :
  Spec.lowersAscii -> Spec.ascii text -> Spec.ascii quote ->
  Spec.squeeze quote <> [] ->
  Spec.occursIn (Spec.squeeze quote) (Spec.squeeze text) ->
  Evidence.quoteExistsInEvidence text quote = true.
Proof.
  intros Hlower Htext Hquote Hne Hocc.
  destruct (normalizeForMatch_ascii Hlower) as (g & Hnorm).
  unfold Evidence.quoteExistsInEvidence. cbv zeta. rewrite !Hnorm by assumption.
  apply andb_true_iff. split.
  - destruct (Spec.squeeze quote); [contradiction | reflexivity].
  - apply StrFacts.includes_spec. now apply occursIn_map.
Qed.

Lemma part_of_key (sections : EvidenceSections.t) (k : Policy.SectionKey) :
  exists title, In (title, Policy.sectionAt sections k) (Evidence.parts sections).
Proof.
  destruct k; eexists; unfold Evidence.parts; cbn [Policy.sectionAt];
    repeat first [left; reflexivity | right].
Qed.

Lemma renderPart_squeeze (p : Js.str * Js.str) :
  Evidence.renderPart p = Evidence.header (fst p) ++ Spec.squeeze (snd p).
Proof.
  unfold Evidence.renderPart. cbv zeta. f_equal.
  exact (squeeze_safeOneLine (snd p)).
Qed.

(** Each section is in the canonical text, squeezed. *)
Lemma section_in_text (sections : EvidenceSections.t) (k : Policy.SectionKey) :
  Spec.occursIn (Spec.squeeze (Policy.sectionAt sections k))
    (Evidence.buildCanonicalEvidenceText sections).
Proof.
  destruct (part_of_key sections k) as (title & Hin).
  apply StrFacts.occursIn_trans with (b := Evidence.renderPart (title, Policy.sectionAt sections k)).
  - rewrite renderPart_squeeze. apply StrFacts.occursIn_app_r, StrFacts.occursIn_refl.
  - apply StrFacts.occursIn_join. now apply in_map.
Qed.

(** What the rules read, the evidence text or a section, is in the
    squeezed evidence text of a canonical snapshot, squeezed. *)
Lemma sectionText_in_text (snapshot : LabelSnapshot.t) (key : Policy.RuleSection) :
  Spec.canonical snapshot ->
  Spec.occursIn (Spec.squeeze (Policy.getSectionText snapshot key))
    (Spec.squeeze (LabelSnapshot.evidenceText snapshot)).
Proof.
  intros Hcanon. destruct key as [k|]; cbn [Policy.getSectionText].
  - rewrite <- (squeeze_idempotent (Policy.sectionAt _ k)).
    apply squeeze_occurs. rewrite Hcanon. apply section_in_text.
  - apply StrFacts.occursIn_refl.
Qed.

(** The canonical text of sections of the Basic Latin block is in the
    block. *)
Lemma canonical_ascii (sections : EvidenceSections.t) :
  (forall k, Spec.ascii (Policy.sectionAt sections k)) ->
  Spec.ascii (Evidence.buildCanonicalEvidenceText sections).
Proof.
  intros Hsections. unfold Evidence.buildCanonicalEvidenceText.
  apply ascii_join; [apply ascii_check; reflexivity |].
  apply List.Forall_forall. intros part Hpart.
  apply in_map_iff in Hpart as ((title & body) & <- & Hin).
  rewrite renderPart_squeeze. cbn [fst snd].
  assert (Hboth : Spec.ascii (Evidence.header title) /\ Spec.ascii body).
  { unfold Evidence.parts in Hin. cbn [In] in Hin.
    repeat match type of Hin with
           | _ \/ _ => destruct Hin as [[= <- <-] | Hin]
           end;
      first [ destruct Hin
            | split; [apply ascii_check; reflexivity |] ].
    - exact (Hsections Policy.activeIngredients).
    - exact (Hsections Policy.boxedWarning).
    - exact (Hsections Policy.contraindications).
    - exact (Hsections Policy.warnings).
    - exact (Hsections Policy.warningsAndCautions).
    - exact (Hsections Policy.drugInteractions).
    - exact (Hsections Policy.pregnancy).
    - exact (Hsections Policy.lactation).
    - exact (Hsections Policy.pediatricUse).
    - exact (Hsections Policy.geriatricUse).
    - exact (Hsections Policy.doNotUse).
    - exact (Hsections Policy.askDoctor). }
  destruct Hboth as (Hheader & Hbody).
  unfold Spec.ascii in *. rewrite List.Forall_app. split; [exact Hheader |].
  now apply ascii_squeeze.
Qed.

(** What the rules read of a plain snapshot is text of the block. *)
Lemma plain_ascii (snapshot : LabelSnapshot.t) (key : Policy.RuleSection) :
  Spec.plain snapshot -> Spec.ascii (Policy.getSectionText snapshot key).
Proof.
  intros (Hcanon & Hsections). destruct key as [k|]; cbn [Policy.getSectionText].
  - apply Hsections.
  - rewrite Hcanon. now apply canonical_ascii.
Qed.

Lemma excerpt_verified (snapshot : LabelSnapshot.t) (key : Policy.RuleSection) (quote : Js.str) :
  Spec.lowersAscii -> Spec.plain snapshot ->
  Spec.occursIn quote (Policy.getSectionText snapshot key) ->
  ~ Spec.blank quote ->
  Evidence.quoteExistsInEvidence (LabelSnapshot.evidenceText snapshot) quote = true.
Proof.
  intros Hlower Hplain Hocc Hnot.
  apply quote_squeezed.
  - exact Hlower.
  - exact (plain_ascii snapshot Policy.CANONICAL Hplain).
  - exact (ascii_piece _ _ Hocc (plain_ascii snapshot key Hplain)).
  - now apply squeeze_not_blank.
  - eapply StrFacts.occursIn_trans; [apply squeeze_occurs, Hocc |].
    apply sectionText_in_text, Hplain.
Qed.

Lemma quoteAroundSubstring_spec (haystack needle quote : Js.str) :
  Policy.quoteAroundSubstring haystack needle = Some quote ->
  Spec.occursIn quote haystack /\ Spec.opens quote /\ Js.len quote <= 440.
Proof.
  unfold Policy.quoteAroundSubstring. cbv zeta.
  destruct (_ <? 0); [discriminate |].
  destruct (Js.truthy _) eqn:Htruthy; [| discriminate].
  intros [= <-]. apply truthy_not_nil in Htruthy.
  split; [apply chunk_occurs |]. split.
  - match goal with
    | |- Spec.opens (Utils.chunkTextAround ?t ?i ?r) =>
        destruct (chunk_shape t i r) as [Hnil | (Hopen & _)]; [contradiction | exact Hopen]
    end.
  - match goal with
    | |- Js.len (Utils.chunkTextAround ?t ?i ?r) <= _ => apply (chunk_length t i 220)
    end.
Qed.

Lemma interactionQuotes_spec (snapshot : LabelSnapshot.t) (hits : list Js.str)
    (q : EvidenceQuote.t) :
  In q (Policy.interactionQuotes snapshot hits) ->
  Spec.occursIn (EvidenceQuote.quote q)
    (Policy.getSectionText snapshot (Policy.Key Policy.drugInteractions))
  /\ Spec.opens (EvidenceQuote.quote q)
  /\ Js.len (EvidenceQuote.quote q) <= 440.
Proof.
  unfold Policy.interactionQuotes. intros Hin.
  apply in_flat_map in Hin as (hit & _ & Hin).
  destruct (Policy.quoteAroundSubstring _ hit) as [quote|] eqn:Hquote; [| destruct Hin].
  destruct Hin as [<- | []]. cbn [EvidenceQuote.quote].
  now apply quoteAroundSubstring_spec in Hquote.
Qed.

Lemma runRules_quotes_verified snapshot profile otherMeds :
  Spec.lowersAscii -> Spec.plain snapshot ->
  Forall (fun q => Evidence.quoteExistsInEvidence (LabelSnapshot.evidenceText snapshot)
                     (EvidenceQuote.quote q) = true)
    (Policy.quotes (Policy.runRules snapshot profile otherMeds)).
Proof.
  intros Hunit Hcanon. rewrite runRules_quotes. apply List.Forall_app. split.
  - unfold Spec.base. apply loop_quotes; [constructor |].
    intros rule quote _ _ Hquote. cbn [EvidenceQuote.quote].
    apply QuoteFacts.extractQuote_spec in Hquote as (_ & Hocc & _ & Hopen & _).
    apply (excerpt_verified snapshot (Policy.KeywordRule.section rule)); auto.
    now apply opens_not_blank.
  - apply List.Forall_forall. intros q Hq.
    apply interactionQuotes_spec in Hq as (Hocc & Hopen & _).
    apply (excerpt_verified snapshot (Policy.Key Policy.drugInteractions)); auto.
    now apply opens_not_blank.
Qed.

End VerifyFacts.

(** ** policy.ts: what the identifiers listed tell *)

Section RuleFacts.
Context `{Js.Host}.

Lemma str_eqb_eq (a b : Js.str) : Js.str_eqb a b = true <-> a = b.
Proof. unfold Js.str_eqb. apply bool_decide_eq_true. Qed.

Lemma existsb_str_eqb (id : Js.str) (ids : list Js.str) :
  existsb (Js.str_eqb id) ids = true <-> In id ids.
Proof.
  rewrite existsb_exists. split.
  - intros (x & Hin & Heq). apply str_eqb_eq in Heq. now subst.
  - intros Hin. exists id. split; [exact Hin | now apply str_eqb_eq].
Qed.

Lemma fold_bump_HIGH (l : list RiskLabel) (r0 : RiskLabel) :
  fold_left Policy.bumpRisk l r0 = HIGH <-> r0 = HIGH \/ In HIGH l.
Proof.
  revert r0; induction l as [|x l IH]; intros r0; cbn [fold_left In].
  - intuition auto.
  - rewrite IH. destruct r0, x; cbn; intuition (auto; discriminate).
Qed.

Lemma fold_bump_UNKNOWN (l : list RiskLabel) (r0 : RiskLabel) :
  fold_left Policy.bumpRisk l r0 = UNKNOWN <-> r0 = UNKNOWN /\ Forall (eq UNKNOWN) l.
Proof.
  revert r0; induction l as [|x l IH]; intros r0; cbn [fold_left].
  - split; [intros ->; split; [reflexivity | constructor] | now intros (-> & _)].
  - rewrite IH. split.
    + intros (Hbump & Hrest). destruct r0, x; cbn in Hbump; try discriminate.
      split; [reflexivity | now constructor].
    + intros (-> & Hall). inversion Hall as [|y l' <- Hrest]; subst.
      split; [reflexivity | exact Hrest].
Qed.

(** The identifiers of the table are pairwise different, and none is a
    marker of the later steps. *)
Lemma BASE_RULES_ids (rule rule' : Policy.KeywordRule.t) :
  In rule Policy.BASE_RULES -> In rule' Policy.BASE_RULES ->
  Policy.KeywordRule.id rule = Policy.KeywordRule.id rule' -> rule = rule'.
Proof.
  unfold Policy.BASE_RULES. cbn [In].
  intros Hin Hin' Hid.
  repeat (destruct Hin as [<- | Hin]); try contradiction;
    repeat (destruct Hin' as [<- | Hin']); try contradiction;
    first [reflexivity | exfalso; vm_compute in Hid; discriminate Hid].
Qed.

Lemma BASE_RULES_markers (rule : Policy.KeywordRule.t) :
  In rule Policy.BASE_RULES ->
  Policy.KeywordRule.id rule <> Policy.PROFILE_ANTICOAGULANT_UPGRADE
  /\ Policy.KeywordRule.id rule <> Policy.PROFILE_CKD_UPGRADE
  /\ Policy.KeywordRule.id rule <> Policy.INTERACTION_OTHER_MED_MENTIONED.
Proof.
  unfold Policy.BASE_RULES. cbn [In]. intros Hin.
  repeat (destruct Hin as [<- | Hin]); try contradiction;
    repeat split; intros Hid; vm_compute in Hid; discriminate Hid.
Qed.

Lemma BASE_RULES_high (rule : Policy.KeywordRule.t) :
  In rule Policy.BASE_RULES ->
  (Policy.KeywordRule.severity rule = HIGH <-> In (Policy.KeywordRule.id rule) Spec.highRules)
  /\ Policy.KeywordRule.severity rule <> UNKNOWN.
Proof.
  unfold Policy.BASE_RULES. cbn [In]. intros Hin.
  repeat (destruct Hin as [<- | Hin]); try contradiction;
    (split; [| discriminate]); rewrite <- existsb_str_eqb;
    vm_compute; split; congruence.
Qed.

Lemma base_listed snapshot profile (id : Js.str) :
  In id (Policy.rulesTriggered (Spec.base snapshot profile))
  <-> exists rule, In rule Policy.BASE_RULES /\ Spec.fires snapshot profile rule = true
                   /\ Policy.KeywordRule.id rule = id.
Proof.
  unfold Spec.base. rewrite loop_rules. cbn [Policy.rulesTriggered app].
  rewrite in_map_iff. split.
  - intros (rule & Hid & Hin). apply filter_In in Hin as (Hin & Hfires). eauto.
  - intros (rule & Hin & Hfires & Hid). exists rule. split; [exact Hid |].
    apply filter_In. now split.
Qed.

Lemma base_risk_HIGH snapshot profile :
  Policy.risk (Spec.base snapshot profile) = HIGH
  <-> exists id, In id (Policy.rulesTriggered (Spec.base snapshot profile))
                 /\ In id Spec.highRules.
Proof.
  unfold Spec.base at 1. rewrite loop_risk. cbn [Policy.risk].
  rewrite fold_bump_HIGH, in_map_iff. split.
  - intros [Hinit | (rule & Hsev & Hin)]; [discriminate |].
    apply filter_In in Hin as (Hin & Hfires).
    exists (Policy.KeywordRule.id rule). split.
    + apply base_listed. eauto.
    + now apply (BASE_RULES_high rule Hin).
  - intros (id & Hlisted & Hhigh). right.
    apply base_listed in Hlisted as (rule & Hin & Hfires & <-).
    exists rule. split; [now apply (BASE_RULES_high rule Hin) |].
    apply filter_In. now split.
Qed.

Lemma base_risk_UNKNOWN snapshot profile :
  Policy.risk (Spec.base snapshot profile) = UNKNOWN
  <-> Policy.rulesTriggered (Spec.base snapshot profile) = [].
Proof.
  unfold Spec.base. rewrite loop_risk, loop_rules. cbn [Policy.risk Policy.rulesTriggered app].
  rewrite fold_bump_UNKNOWN.
  assert (Hsub : forall rule, In rule (List.filter (Spec.fires snapshot profile) Policy.BASE_RULES) ->
                              In rule Policy.BASE_RULES)
    by (intros rule Hin; now apply filter_In in Hin).
  destruct (List.filter (Spec.fires snapshot profile) Policy.BASE_RULES) as [|rule rules].
  - split; [reflexivity | intros _; split; [reflexivity | constructor]].
  - split; [| discriminate]. intros (_ & Hall). exfalso.
    inversion Hall as [|x l Hx _]; subst.
    apply (BASE_RULES_high rule); [apply Hsub; now left | now symmetry].
Qed.

Lemma upgrade_rules (c : bool) (st : Policy.Running) (id marker : Js.str) (r : RiskLabel) :
  Js.str_eqb id marker = false ->
  existsb (Js.str_eqb id)
    (Policy.rulesTriggered
       (if c
        then {| Policy.rulesTriggered := Policy.rulesTriggered st ++ [marker];
                Policy.quotes := Policy.quotes st;
                Policy.risk := r |}
        else st))
  = existsb (Js.str_eqb id) (Policy.rulesTriggered st).
Proof.
  intros Hne. destruct c; [| reflexivity]. cbn [Policy.rulesTriggered].
  rewrite existsb_app. cbn [existsb]. rewrite Hne. now rewrite !orb_false_r.
Qed.

(** The identifiers of the run: those of the loop, then the markers of
    the three later steps, each under its condition. *)
Lemma runRules_rules snapshot profile otherMeds :
  Policy.rulesTriggered (Policy.runRules snapshot profile otherMeds)
  = Policy.rulesTriggered (Spec.base snapshot profile)
    ++ (if Spec.onAnticoagulant profile
           && existsb (Js.str_eqb Policy.BLEEDING_RISK_LANGUAGE)
                (Policy.rulesTriggered (Spec.base snapshot profile))
        then [Policy.PROFILE_ANTICOAGULANT_UPGRADE] else [])
    ++ (if Spec.kidneyCondition profile
           && existsb (Js.str_eqb Policy.RENAL_RISK_LANGUAGE)
                (Policy.rulesTriggered (Spec.base snapshot profile))
        then [Policy.PROFILE_CKD_UPGRADE] else [])
    ++ (match Spec.interactionHits snapshot otherMeds with
        | [] => []
        | _ :: _ => [Policy.INTERACTION_OTHER_MED_MENTIONED]
        end).
Proof.
  rewrite runRules_steps. cbv zeta.
  generalize (Spec.base snapshot profile) as st0. intros st0.
  rewrite upgrade_rules by reflexivity.
  destruct (Spec.onAnticoagulant profile && _);
    destruct (Spec.kidneyCondition profile && _);
    destruct (Spec.interactionHits snapshot otherMeds);
    cbn [Policy.rulesTriggered app]; rewrite <- ?app_assoc, ?app_nil_r; reflexivity.
Qed.

Lemma runRules_risk snapshot profile otherMeds :
  Policy.risk (Policy.runRules snapshot profile otherMeds)
  = if Spec.onAnticoagulant profile
         && existsb (Js.str_eqb Policy.BLEEDING_RISK_LANGUAGE)
              (Policy.rulesTriggered (Spec.base snapshot profile))
       || Spec.kidneyCondition profile
          && existsb (Js.str_eqb Policy.RENAL_RISK_LANGUAGE)
               (Policy.rulesTriggered (Spec.base snapshot profile))
       || negb (bool_decide (Spec.interactionHits snapshot otherMeds = []))
    then HIGH
    else Policy.risk (Spec.base snapshot profile).
Proof.
  rewrite runRules_steps. cbv zeta.
  generalize (Spec.base snapshot profile) as st0. intros st0.
  rewrite upgrade_rules by reflexivity.
  destruct (Spec.onAnticoagulant profile && _);
    destruct (Spec.kidneyCondition profile && _);
    destruct (Spec.interactionHits snapshot otherMeds);
    cbn [Policy.risk orb negb bool_decide]; rewrite ?bumpRisk_HIGH; reflexivity.
Qed.

Lemma evaluatePolicy_rules snapshot profile otherMeds :
  Policy.PolicyResult.rulesTriggered (Policy.evaluatePolicy snapshot profile otherMeds)
  = Policy.rulesTriggered (Policy.runRules snapshot profile otherMeds).
Proof.
  unfold Policy.evaluatePolicy. cbv zeta.
  destruct (Js.truthy (LabelSnapshot.evidenceText snapshot)); cbn [negb].
  - destruct (Policy.risk (Policy.runRules snapshot profile otherMeds)); reflexivity.
  - reflexivity.
Qed.

(** The run in short: the identifiers of the loop followed by markers,
    and the risk of the loop unless there is a marker. *)
Lemma run_summary snapshot profile otherMeds :
  exists markers,
    Policy.rulesTriggered (Policy.runRules snapshot profile otherMeds)
    = Policy.rulesTriggered (Spec.base snapshot profile) ++ markers
    /\ (forall id, In id markers ->
          id = Policy.PROFILE_ANTICOAGULANT_UPGRADE \/ id = Policy.PROFILE_CKD_UPGRADE
          \/ id = Policy.INTERACTION_OTHER_MED_MENTIONED)
    /\ Policy.risk (Policy.runRules snapshot profile otherMeds)
       = match markers with
         | [] => Policy.risk (Spec.base snapshot profile)
         | _ :: _ => HIGH
         end.
Proof.
  rewrite runRules_rules, runRules_risk.
  eexists. split; [reflexivity |].
  destruct (Spec.onAnticoagulant profile && _);
    destruct (Spec.kidneyCondition profile && _);
    destruct (Spec.interactionHits snapshot otherMeds);
    cbn [app orb negb bool_decide];
    (split; [cbn [In]; intuition auto | reflexivity]).
Qed.

Lemma marker_high (id : Js.str) :
  id = Policy.PROFILE_ANTICOAGULANT_UPGRADE \/ id = Policy.PROFILE_CKD_UPGRADE
  \/ id = Policy.INTERACTION_OTHER_MED_MENTIONED ->
  In id Spec.highRules.
Proof. unfold Spec.highRules. cbn [In]. intuition auto. Qed.

Lemma runRules_HIGH snapshot profile otherMeds :
  Policy.risk (Policy.runRules snapshot profile otherMeds) = HIGH
  <-> exists id, In id (Policy.rulesTriggered (Policy.runRules snapshot profile otherMeds))
                 /\ In id Spec.highRules.
Proof.
  destruct (run_summary snapshot profile otherMeds) as (markers & -> & Hmarkers & ->).
  split.
  - destruct markers as [|marker markers].
    + rewrite base_risk_HIGH, app_nil_r. auto.
    + intros _. exists marker. split.
      * apply in_or_app. right. now left.
      * apply marker_high, Hmarkers. now left.
  - intros (id & Hin & Hhigh). destruct markers as [|marker markers]; [| reflexivity].
    rewrite app_nil_r in Hin. apply base_risk_HIGH. eauto.
Qed.

Lemma runRules_UNKNOWN snapshot profile otherMeds :
  Policy.risk (Policy.runRules snapshot profile otherMeds) = UNKNOWN
  <-> Policy.rulesTriggered (Policy.runRules snapshot profile otherMeds) = [].
Proof.
  destruct (run_summary snapshot profile otherMeds) as (markers & -> & _ & ->).
  destruct markers as [|marker markers].
  - now rewrite base_risk_UNKNOWN, app_nil_r.
  - split; [discriminate |]. intros Hnil. apply app_eq_nil in Hnil as (_ & Hnil). discriminate.
Qed.

End RuleFacts.

(** ** policy.ts: the decision, read off the identifiers *)

Section PolicyTheorems.
Context `{Js.Host}.

(** When there is evidence, the decision is told by the identifiers
    listed: CLARIFY when none is, BLOCK when one of the HIGH ones is, and
    CAUTION otherwise. *)
Theorem decision_by_rules snapshot profile otherMeds :
  LabelSnapshot.evidenceText snapshot <> [] ->
  let result := Policy.evaluatePolicy snapshot profile otherMeds in
  (Policy.PolicyResult.decision result = CLARIFY
   <-> Policy.PolicyResult.rulesTriggered result = [])
  /\ (Policy.PolicyResult.decision result = BLOCK
      <-> exists id, In id (Policy.PolicyResult.rulesTriggered result) /\ In id Spec.highRules)
  /\ (Policy.PolicyResult.decision result = CAUTION
      <-> Policy.PolicyResult.rulesTriggered result <> []
          /\ forall id, In id (Policy.PolicyResult.rulesTriggered result) ->
                        ~ In id Spec.highRules).
Proof.
  intros Hne. cbv zeta.
  rewrite evaluatePolicy_decision, evaluatePolicy_rules.
  apply ChunkFacts.truthy_not_nil in Hne. rewrite Hne.
  pose proof (runRules_HIGH snapshot profile otherMeds) as Hhigh.
  pose proof (runRules_UNKNOWN snapshot profile otherMeds) as Hunknown.
  pose proof (runRules_not_LOW snapshot profile otherMeds) as Hlow.
  destruct (Policy.risk (Policy.runRules snapshot profile otherMeds)).
  - split; [| split].
    + split; [discriminate |]. intros Hnil. apply Hunknown in Hnil. discriminate.
    + split; [intros _; now apply Hhigh | reflexivity].
    + split; [discriminate |]. intros (_ & Hnone).
      destruct (proj1 Hhigh eq_refl) as (id & Hin & Hid). now destruct (Hnone id Hin).
  - split; [| split].
    + split; [discriminate |]. intros Hnil. apply Hunknown in Hnil. discriminate.
    + split; [discriminate |]. intros Hsome. apply Hhigh in Hsome. discriminate.
    + split; [intros _ | reflexivity]. split.
      * intros Hnil. apply Hunknown in Hnil. discriminate.
      * intros id Hin Hid. assert (Hrisk : MODERATE = HIGH) by (apply Hhigh; eauto).
        discriminate.
  - congruence.
  - split; [| split].
    + split; [intros _; now apply Hunknown | reflexivity].
    + split; [discriminate |]. intros Hsome. apply Hhigh in Hsome. discriminate.
    + split; [discriminate |]. intros (Hsome & _). destruct Hsome. now apply Hunknown.
Qed.

Lemma listed_iff_fires snapshot profile otherMeds rule :
  In rule Policy.BASE_RULES ->
  In (Policy.KeywordRule.id rule)
     (Policy.rulesTriggered (Policy.runRules snapshot profile otherMeds))
  <-> Spec.fires snapshot profile rule = true.
Proof.
  intros Hin.
  destruct (run_summary snapshot profile otherMeds) as (markers & -> & Hmarkers & _).
  rewrite in_app_iff, base_listed. split.
  - intros [(rule' & Hin' & Hfires & Hid) | Hmarker].
    + now rewrite (BASE_RULES_ids rule rule' Hin Hin' (eq_sym Hid)).
    + exfalso. apply Hmarkers in Hmarker.
      destruct (BASE_RULES_markers rule Hin) as (H1 & H2 & H3).
      destruct Hmarker as [Heq | [Heq | Heq]]; auto.
  - intros Hfires. left. eauto.
Qed.

(** [profileHasPregnancy] holds of the four statuses that state a
    pregnancy, and of nothing else: not of a missing profile, of a
    missing status, of [no] nor of [unknown]. *)
Lemma profileHasPregnancy_spec (profile : option RxGuardProfile.t) :
  Policy.profileHasPregnancy profile = true <-> Spec.statesPregnancy profile.
Proof.
  unfold Policy.profileHasPregnancy, Spec.statesPregnancy. split.
  - destruct profile as [p|]; [| discriminate]. cbn [mbind option_bind].
    destruct (RxGuardProfile.pregnancy p) as [status|] eqn:Hstatus; [| discriminate].
    intros Hstates. exists p, status. split; [reflexivity |]. split; [exact Hstatus |].
    destruct status; try discriminate; cbn [In]; auto.
  - intros (p & status & -> & Hstatus & Hin). cbn [mbind option_bind]. rewrite Hstatus.
    cbn [In] in Hin. destruct Hin as [<- | [<- | [<- | [<- | []]]]]; reflexivity.
Qed.

(** The pregnancy rule is listed exactly when the profile states a
    pregnancy (trying, or one of the three trimesters) and the pregnancy
    section matches the pattern of the rule: without a profile, without a
    status, or with the status no or unknown, it is never listed,
    whatever the label says. *)
Theorem pregnancy_rule_gated snapshot profile otherMeds :
  (In Policy.PREGNANCY_RISK_LANGUAGE
      (Policy.PolicyResult.rulesTriggered (Policy.evaluatePolicy snapshot profile otherMeds))
   <-> Spec.statesPregnancy profile
       /\ Regex.test Policy.pregnancyPattern
            (EvidenceSections.pregnancy (LabelSnapshot.sections snapshot)) = true)
  /\ (profile = None
      \/ (exists p, profile = Some p
                    /\ (RxGuardProfile.pregnancy p = None
                        \/ RxGuardProfile.pregnancy p = Some preg_no
                        \/ RxGuardProfile.pregnancy p = Some preg_unknown)) ->
      ~ In Policy.PREGNANCY_RISK_LANGUAGE
          (Policy.PolicyResult.rulesTriggered
             (Policy.evaluatePolicy snapshot profile otherMeds))).
Proof.
  assert (Hiff : In Policy.PREGNANCY_RISK_LANGUAGE
                   (Policy.PolicyResult.rulesTriggered
                      (Policy.evaluatePolicy snapshot profile otherMeds))
                 <-> Spec.statesPregnancy profile
                     /\ Regex.test Policy.pregnancyPattern
                          (EvidenceSections.pregnancy (LabelSnapshot.sections snapshot))
                        = true).
  2: { split; [exact Hiff |]. intros Hwithout Hlisted.
       apply Hiff in Hlisted as ((p & status & Hprofile & Hstatus & Hin) & _).
       cbn [In] in Hin.
       destruct Hwithout as [-> | (p' & -> & Hother)]; [discriminate |].
       injection Hprofile as <-. rewrite Hstatus in Hother.
       destruct Hother as [Hother | [Hother | Hother]]; [discriminate | |];
         injection Hother as ->;
         destruct Hin as [Hin | [Hin | [Hin | [Hin | []]]]]; discriminate. }
  rewrite <- profileHasPregnancy_spec.
  rewrite evaluatePolicy_rules.
  pose (rule := {| Policy.KeywordRule.id := Policy.PREGNANCY_RISK_LANGUAGE;
                   Policy.KeywordRule.section := Policy.Key Policy.pregnancy;
                   Policy.KeywordRule.pattern := Policy.pregnancyPattern;
                   Policy.KeywordRule.reason := Js.lit "Pregnancy-related risk language appears.";
                   Policy.KeywordRule.severity := HIGH |}).
  assert (Hin : In rule Policy.BASE_RULES) by (right; right; left; reflexivity).
  change Policy.PREGNANCY_RISK_LANGUAGE with (Policy.KeywordRule.id rule) at 1.
  rewrite (listed_iff_fires snapshot profile otherMeds rule Hin).
  unfold Spec.fires. cbv zeta.
  cbn [Policy.KeywordRule.section Policy.KeywordRule.pattern Policy.KeywordRule.id rule
       Policy.getSectionText Policy.sectionAt].
  assert (Hid : Js.str_eqb Policy.PREGNANCY_RISK_LANGUAGE Policy.PREGNANCY_RISK_LANGUAGE = true)
    by now apply str_eqb_eq.
  rewrite Hid. cbn [andb].
  destruct (EvidenceSections.pregnancy (LabelSnapshot.sections snapshot)) as [|c s] eqn:Htext.
  - split; [discriminate |]. intros (_ & Htest). vm_compute in Htest. discriminate.
  - cbn [Js.truthy andb]. rewrite andb_true_iff, negb_true_iff, negb_false_iff. tauto.
Qed.

Lemma bleeding_listed snapshot profile :
  existsb (Js.str_eqb Policy.BLEEDING_RISK_LANGUAGE)
    (Policy.rulesTriggered (Spec.base snapshot profile)) = true
  <-> LabelSnapshot.evidenceText snapshot <> []
      /\ Regex.test Policy.bleedingPattern (LabelSnapshot.evidenceText snapshot) = true.
Proof.
  rewrite existsb_str_eqb, base_listed. split.
  - intros (rule & Hin & Hfires & Hid).
    unfold Policy.BASE_RULES in Hin. cbn [In] in Hin.
    repeat (destruct Hin as [<- | Hin]); try contradiction;
      try (vm_compute in Hid; discriminate Hid).
    unfold Spec.fires in Hfires. cbv zeta in Hfires.
    cbn [Policy.KeywordRule.section Policy.KeywordRule.pattern Policy.getSectionText] in Hfires.
    apply andb_true_iff in Hfires as (Hfires & _).
    apply andb_true_iff in Hfires as (Htruthy & Htest).
    split; [now apply ChunkFacts.truthy_not_nil | exact Htest].
  - intros (Hne & Htest). eexists. split; [right; right; right; left; reflexivity |].
    split; [| reflexivity].
    unfold Spec.fires. cbv zeta.
    cbn [Policy.KeywordRule.section Policy.KeywordRule.pattern Policy.getSectionText
         Policy.KeywordRule.id].
    apply ChunkFacts.truthy_not_nil in Hne. rewrite Hne, Htest. reflexivity.
Qed.

Lemma renal_listed snapshot profile :
  existsb (Js.str_eqb Policy.RENAL_RISK_LANGUAGE)
    (Policy.rulesTriggered (Spec.base snapshot profile)) = true
  <-> LabelSnapshot.evidenceText snapshot <> []
      /\ Regex.test Policy.renalPattern (LabelSnapshot.evidenceText snapshot) = true.
Proof.
  rewrite existsb_str_eqb, base_listed. split.
  - intros (rule & Hin & Hfires & Hid).
    unfold Policy.BASE_RULES in Hin. cbn [In] in Hin.
    repeat (destruct Hin as [<- | Hin]); try contradiction;
      try (vm_compute in Hid; discriminate Hid).
    unfold Spec.fires in Hfires. cbv zeta in Hfires.
    cbn [Policy.KeywordRule.section Policy.KeywordRule.pattern Policy.getSectionText] in Hfires.
    apply andb_true_iff in Hfires as (Hfires & _).
    apply andb_true_iff in Hfires as (Htruthy & Htest).
    split; [now apply ChunkFacts.truthy_not_nil | exact Htest].
  - intros (Hne & Htest). eexists. split; [do 4 right; left; reflexivity |].
    split; [| reflexivity].
    unfold Spec.fires. cbv zeta.
    cbn [Policy.KeywordRule.section Policy.KeywordRule.pattern Policy.getSectionText
         Policy.KeywordRule.id].
    apply ChunkFacts.truthy_not_nil in Hne. rewrite Hne, Htest. reflexivity.
Qed.

(** [profileHasMed] searches the current medications of the profile
    for the name, both read as the matcher reads them. *)
Lemma profileHasMed_spec (profile : option RxGuardProfile.t) (name : Js.str) :
  Policy.profileHasMed profile name = true
  <-> exists p med,
        profile = Some p
        /\ In med (default [] (RxGuardProfile.currentMeds p))
        /\ Spec.mentions med name.
Proof.
  unfold Policy.profileHasMed, Spec.mentions. cbv zeta. rewrite existsb_exists. split.
  - intros (m & Hin & Hincludes). apply in_map_iff in Hin as (med & <- & Hin).
    apply StrFacts.includes_spec in Hincludes.
    destruct profile as [p|]; [| destruct Hin]. cbn [mbind option_bind] in Hin. eauto.
  - intros (p & med & -> & Hin & Hmentions). cbn [mbind option_bind].
    exists (Utils.normalizeForMatch med). split; [now apply in_map |].
    now apply StrFacts.includes_spec.
Qed.

Lemma onAnticoagulant_spec (profile : option RxGuardProfile.t) :
  Spec.onAnticoagulant profile = true <-> Spec.takesAnticoagulant profile.
Proof.
  unfold Spec.onAnticoagulant, Spec.takesAnticoagulant, Spec.anticoagulants.
  rewrite !orb_true_iff, !profileHasMed_spec. cbn [In]. split.
  - intros [[[(p & med & Hp & Hin & Hm) | (p & med & Hp & Hin & Hm)]
            | (p & med & Hp & Hin & Hm)] | (p & med & Hp & Hin & Hm)];
      exists p, med; eauto 10.
  - intros (p & med & name & Hp & Hin & [<- | [<- | [<- | [<- | []]]]] & Hm); eauto 10.
Qed.

Lemma kidneyCondition_spec (profile : option RxGuardProfile.t) :
  Spec.kidneyCondition profile = true <-> Spec.hasKidneyCondition profile.
Proof.
  unfold Spec.kidneyCondition, Policy.profileHasCondition, Spec.hasKidneyCondition,
    Spec.mentions.
  cbv zeta. rewrite existsb_exists. split.
  - intros (word & Hword & Hsome). apply existsb_exists in Hsome as (c & Hin & Hincludes).
    apply in_map_iff in Hin as (condition & <- & Hin).
    apply StrFacts.includes_spec in Hincludes.
    destruct profile as [p|]; [| destruct Hin]. cbn [mbind option_bind] in Hin.
    exists p, condition, word. auto.
  - intros (p & condition & word & -> & Hin & Hword & Hmentions). cbn [mbind option_bind].
    exists word. split; [exact Hword |]. apply existsb_exists.
    exists (Utils.normalizeForMatch condition). split; [now apply in_map |].
    now apply StrFacts.includes_spec.
Qed.

Lemma interactionHits_spec snapshot (otherMeds : option (list Js.str)) :
  Spec.interactionHits snapshot otherMeds <> [] <-> Spec.otherMedMentioned snapshot otherMeds.
Proof.
  unfold Spec.interactionHits, Policy.anyOtherMedMentionedInInteractions,
    Spec.otherMedMentioned, Spec.mentions.
  cbv zeta. split.
  - intros Hhits.
    destruct (List.filter _ (List.filter Js.truthy (default [] otherMeds)))
      as [|med hits] eqn:Hfilter; [contradiction |].
    assert (Hin : In med (med :: hits)) by now left.
    rewrite <- Hfilter in Hin.
    apply filter_In in Hin as (Hin & Hhit). apply filter_In in Hin as (Hin & Htruthy).
    apply andb_true_iff in Hhit as (Hsome & Hincludes).
    exists med. split; [exact Hin |].
    split; [now apply ChunkFacts.truthy_not_nil |].
    split; [now apply ChunkFacts.truthy_not_nil |].
    now apply StrFacts.includes_spec.
  - intros (med & Hin & Hmed & Hsome & Hmentions) Hnil.
    assert (Hhit : In med (List.filter
                             (fun med =>
                                Js.truthy (Utils.normalizeForMatch med)
                                && Js.includes
                                     (Utils.normalizeForMatch
                                        (EvidenceSections.drugInteractions
                                           (LabelSnapshot.sections snapshot)))
                                     (Utils.normalizeForMatch med))
                             (List.filter Js.truthy (default [] otherMeds)))).
    { apply filter_In. split.
      - apply filter_In. split; [exact Hin | now apply ChunkFacts.truthy_not_nil].
      - apply andb_true_iff. split; [now apply ChunkFacts.truthy_not_nil |].
        now apply StrFacts.includes_spec. }
    rewrite Hnil in Hhit. destruct Hhit.
Qed.

(** The three steps after the loop raise the answer to BLOCK: a profile
    whose medications mention an anticoagulant when the evidence text has
    bleeding language, a profile whose conditions mention a kidney word
    when it has renal language, and another medication that the
    interaction section mentions; each lists its marker. *)
Theorem profile_and_cross_check_block snapshot profile otherMeds :
  LabelSnapshot.evidenceText snapshot <> [] ->
  let result := Policy.evaluatePolicy snapshot profile otherMeds in
  let listed id := In id (Policy.PolicyResult.rulesTriggered result) in
  let blocked :=
    Policy.PolicyResult.decision result = BLOCK /\ Policy.PolicyResult.risk result = HIGH in
  (Spec.takesAnticoagulant profile ->
   Regex.test Policy.bleedingPattern (LabelSnapshot.evidenceText snapshot) = true ->
   blocked /\ listed Policy.BLEEDING_RISK_LANGUAGE
   /\ listed Policy.PROFILE_ANTICOAGULANT_UPGRADE)
  /\ (Spec.hasKidneyCondition profile ->
      Regex.test Policy.renalPattern (LabelSnapshot.evidenceText snapshot) = true ->
      blocked /\ listed Policy.RENAL_RISK_LANGUAGE /\ listed Policy.PROFILE_CKD_UPGRADE)
  /\ (Spec.otherMedMentioned snapshot otherMeds ->
      blocked /\ listed Policy.INTERACTION_OTHER_MED_MENTIONED).
Proof.
  intros Hne. cbv zeta.
  rewrite <- onAnticoagulant_spec, <- kidneyCondition_spec, <- interactionHits_spec.
  rewrite evaluatePolicy_decision, evaluatePolicy_risk, evaluatePolicy_rules.
  rewrite (proj2 (ChunkFacts.truthy_not_nil _) Hne).
  rewrite runRules_risk, runRules_rules.
  pose proof (bleeding_listed snapshot profile) as Hbleed.
  pose proof (renal_listed snapshot profile) as Hrenal.
  rewrite existsb_str_eqb in Hbleed, Hrenal.
  split; [| split].
  - intros Hanti Htest.
    assert (Hlisted : In Policy.BLEEDING_RISK_LANGUAGE
                        (Policy.rulesTriggered (Spec.base snapshot profile)))
      by (apply Hbleed; now split).
    rewrite Hanti, (proj2 (existsb_str_eqb _ _) Hlisted). cbn [andb orb].
    repeat split; [now apply in_or_app; left |].
    apply in_or_app. right. now left.
  - intros Hckd Htest.
    assert (Hlisted : In Policy.RENAL_RISK_LANGUAGE
                        (Policy.rulesTriggered (Spec.base snapshot profile)))
      by (apply Hrenal; now split).
    rewrite Hckd, (proj2 (existsb_str_eqb _ _) Hlisted). cbn [andb orb].
    rewrite orb_true_r. cbn [orb].
    repeat split; [now apply in_or_app; left |].
    apply in_or_app. right. apply in_or_app. right. now left.
  - intros Hhits.
    destruct (Spec.interactionHits snapshot otherMeds) as [|hit hits]; [contradiction |].
    cbn [bool_decide negb]. rewrite !orb_true_r.
    repeat split.
    do 3 (apply in_or_app; right). now left.
Qed.

Lemma fires_without_profile snapshot profile rule :
  Spec.fires snapshot None rule = true -> Spec.fires snapshot profile rule = true.
Proof.
  unfold Spec.fires. cbv zeta.
  destruct (Js.truthy _); [| discriminate].
  destruct (Regex.test _ _); [| discriminate].
  destruct (Js.str_eqb _ _); [discriminate | reflexivity].
Qed.

Lemma run_without_context snapshot :
  Policy.rulesTriggered (Policy.runRules snapshot None None)
  = Policy.rulesTriggered (Spec.base snapshot None)
  /\ Policy.risk (Policy.runRules snapshot None None) = Policy.risk (Spec.base snapshot None).
Proof.
  rewrite runRules_rules, runRules_risk.
  change (Spec.onAnticoagulant None) with false.
  change (Spec.kidneyCondition None) with false.
  change (Spec.interactionHits snapshot None) with (@nil Js.str).
  cbn [andb orb negb bool_decide app]. now rewrite app_nil_r.
Qed.

(** Telling more never lowers the risk: with a profile and other
    medications the risk is at least what it is without them. *)
Theorem more_context_never_lowers snapshot profile otherMeds :
  Spec.riskLe
    (Policy.PolicyResult.risk (Policy.evaluatePolicy snapshot None None))
    (Policy.PolicyResult.risk (Policy.evaluatePolicy snapshot profile otherMeds)).
Proof.
  rewrite !evaluatePolicy_risk.
  destruct (Js.truthy (LabelSnapshot.evidenceText snapshot)); [| unfold Spec.riskLe; lia].
  destruct (run_without_context snapshot) as (Hrules0 & Hrisk0).
  pose proof (runRules_HIGH snapshot profile otherMeds) as Hhigh.
  pose proof (runRules_UNKNOWN snapshot profile otherMeds) as Hunknown.
  pose proof (runRules_not_LOW snapshot profile otherMeds) as Hlow.
  pose proof (runRules_not_LOW snapshot None None) as Hlow0.
  pose proof (runRules_UNKNOWN snapshot None None) as Hunknown0.
  pose proof (runRules_HIGH snapshot None None) as Hhigh0.
  assert (Hmore : forall id,
            In id (Policy.rulesTriggered (Policy.runRules snapshot None None)) ->
            In id (Policy.rulesTriggered (Policy.runRules snapshot profile otherMeds))).
  { intros id Hid. rewrite Hrules0 in Hid.
    apply base_listed in Hid as (rule & Hin & Hfires & <-).
    apply listed_iff_fires; [exact Hin | now apply fires_without_profile]. }
  unfold Spec.riskLe.
  destruct (Policy.risk (Policy.runRules snapshot None None)) eqn:Hnone;
    destruct (Policy.risk (Policy.runRules snapshot profile otherMeds)) eqn:Hwith;
    cbn [Spec.rank]; try lia; try congruence; exfalso.
  - destruct (proj1 Hhigh0 eq_refl) as (id & Hin & Hid).
    assert (Hrisk : MODERATE = HIGH) by (apply Hhigh; eauto). discriminate.
  - destruct (proj1 Hhigh0 eq_refl) as (id & Hin & Hid).
    assert (Hrisk : UNKNOWN = HIGH) by (apply Hhigh; eauto). discriminate.
  - pose proof (proj1 Hunknown eq_refl) as Hnil.
    destruct (Policy.rulesTriggered (Policy.runRules snapshot None None)) as [|id ids] eqn:Hids.
    + assert (Hrisk : MODERATE = UNKNOWN) by now apply Hunknown0. discriminate.
    + specialize (Hmore id (or_introl eq_refl)). rewrite Hnil in Hmore. destruct Hmore.
Qed.

End PolicyTheorems.

(** ** rxguard.ts: what the proof card keeps *)

Section CardFacts.
Context `{Js.Host}.
Import TrimFacts SqueezeFacts ChunkFacts.

(** For an evidence text of the Basic Latin block, a quote cut from the
    text verifies as soon as it is not blank, and a blank quote of the
    block never does. *)
Theorem verbatim_quote_verified (text quote : Js.str) :
  Spec.lowersAscii -> Spec.ascii text ->
  (Spec.occursIn quote text -> ~ Spec.blank quote ->
   Evidence.quoteExistsInEvidence text quote = true)
  /\ (Spec.ascii quote -> Spec.blank quote ->
      Evidence.quoteExistsInEvidence text quote = false).
Proof.
  intros Hlower Htext. split.
  - intros Hocc Hnot. apply quote_squeezed.
    + exact Hlower.
    + exact Htext.
    + exact (ascii_piece _ _ Hocc Htext).
    + now apply squeeze_not_blank.
    + now apply squeeze_occurs.
  - intros Hquote Hblank.
    destruct (normalizeForMatch_ascii Hlower) as (g & Hnorm).
    unfold Evidence.quoteExistsInEvidence. cbv zeta. rewrite !Hnorm by assumption.
    assert (Hnil : Spec.squeeze quote = []).
    { destruct (Spec.squeeze quote) eqn:Hsq; [reflexivity |].
      exfalso. apply (proj1 (squeeze_not_blank quote)); [rewrite Hsq; discriminate | exact Hblank]. }
    now rewrite Hnil.
Qed.

Lemma filter_all {A} (f : A -> bool) (l : list A) :
  Forall (fun x => f x = true) l -> List.filter f l = l.
Proof.
  induction 1 as [|x l Hx _ IH]; [reflexivity |].
  cbn. now rewrite Hx, IH.
Qed.

Lemma evaluatePolicy_rule_quotes snapshot profile otherMeds :
  Policy.quotes (Policy.runRules snapshot profile otherMeds) <> [] ->
  Policy.PolicyResult.quotes (Policy.evaluatePolicy snapshot profile otherMeds)
  = Policy.quotes (Policy.runRules snapshot profile otherMeds).
Proof.
  intros Hne. rewrite evaluatePolicy_quotes.
  destruct (Policy.quotes (Policy.runRules snapshot profile otherMeds)); [contradiction |].
  now destruct (Policy.PolicyResult.decision _).
Qed.

Lemma answer_keeps_quotes
    (input : RxGuard.RxGuardRequest.t) (primaryDrug : Js.str)
    (snapshot : LabelSnapshot.t) (naked : option RxGuard.Naked) :
  Spec.lowersAscii -> Spec.plain snapshot ->
  Policy.quotes (Policy.runRules snapshot (RxGuard.RxGuardRequest.profile input)
                   (RxGuard.RxGuardRequest.otherMeds input)) <> [] ->
  option_map ProofCard.quotes
    (RxGuard.RxGuardResponse.proofCard
       (RxGuard.answerFromSnapshot input primaryDrug snapshot naked))
  = Some (Policy.quotes (Policy.runRules snapshot (RxGuard.RxGuardRequest.profile input)
                           (RxGuard.RxGuardRequest.otherMeds input))).
Proof.
  intros Hlower Hplain Hne.
  unfold RxGuard.answerFromSnapshot. cbv zeta.
  cbn [RxGuard.RxGuardResponse.proofCard option_map].
  unfold RxGuard.buildProofCard. cbn [ProofCard.quotes].
  rewrite evaluatePolicy_rule_quotes by exact Hne.
  f_equal. apply filter_all. now apply runRules_quotes_verified.
Qed.

(** For a canonical snapshot whose sections are text of the Basic Latin
    block, every quote that the rules and the cross-check derived passes
    the verification, and the proof card drops none of them: when there
    is one, the card holds them all, in their order. *)
Theorem proof_card_keeps_rule_quotes
    (input : RxGuard.RxGuardRequest.t) (primaryDrug : Js.str)
    (snapshot : LabelSnapshot.t) (naked : option RxGuard.Naked) :
  Spec.lowersAscii -> Spec.plain snapshot ->
  let derived :=
    Policy.quotes (Policy.runRules snapshot (RxGuard.RxGuardRequest.profile input)
                     (RxGuard.RxGuardRequest.otherMeds input)) in
  Forall (fun q => Evidence.quoteExistsInEvidence (LabelSnapshot.evidenceText snapshot)
                     (EvidenceQuote.quote q) = true) derived
  /\ (derived <> [] ->
      option_map ProofCard.quotes
        (RxGuard.RxGuardResponse.proofCard
           (RxGuard.answerFromSnapshot input primaryDrug snapshot naked))
      = Some derived).
Proof.
  intros Hlower Hplain. cbv zeta. split.
  - now apply runRules_quotes_verified.
  - now apply answer_keeps_quotes.
Qed.

Lemma no_quotes_no_rule snapshot profile :
  Policy.quotes (Spec.base snapshot profile) = [] ->
  Policy.rulesTriggered (Spec.base snapshot profile) = [].
Proof.
  intros Hquotes.
  destruct (Policy.rulesTriggered (Spec.base snapshot profile)) as [|id ids] eqn:Hrules;
    [reflexivity | exfalso].
  assert (Hin : In id (Policy.rulesTriggered (Spec.base snapshot profile)))
    by (rewrite Hrules; now left).
  apply base_listed in Hin as (rule & Hin & Hfires & _).
  revert Hquotes. unfold Spec.base.
  apply (loop_quotes_fired snapshot profile Policy.BASE_RULES _ rule); auto.
  apply QuoteFacts.BASE_RULES_anchored.
Qed.

(** For a canonical snapshot whose sections are text of the Basic Latin
    block, a BLOCK or CAUTION answer has an empty proof card only when no
    rule of the table fired and the cross-check of the other medications
    alone raised the risk: the answer is then BLOCK and lists that single
    marker. *)
Theorem empty_card_only_by_cross_check
    (input : RxGuard.RxGuardRequest.t) (primaryDrug : Js.str)
    (snapshot : LabelSnapshot.t) (naked : option RxGuard.Naked) :
  Spec.lowersAscii -> Spec.plain snapshot ->
  let response := RxGuard.answerFromSnapshot input primaryDrug snapshot naked in
  RxGuard.RxGuardResponse.decision response = BLOCK
  \/ RxGuard.RxGuardResponse.decision response = CAUTION ->
  option_map ProofCard.quotes (RxGuard.RxGuardResponse.proofCard response) = Some [] ->
  RxGuard.RxGuardResponse.decision response = BLOCK
  /\ option_map RxGuard.rulesTriggered (RxGuard.RxGuardResponse.debug response)
     = Some [Policy.INTERACTION_OTHER_MED_MENTIONED].
Proof.
  intros Hlower Hplain. cbv zeta. intros Hdecision Hcard.
  set (profile := RxGuard.RxGuardRequest.profile input) in *.
  set (otherMeds := RxGuard.RxGuardRequest.otherMeds input) in *.
  assert (Hquotes : Policy.quotes (Policy.runRules snapshot profile otherMeds) = []).
  { destruct (Policy.quotes (Policy.runRules snapshot profile otherMeds)) as [|q qs] eqn:Hq;
      [reflexivity | exfalso].
    rewrite (answer_keeps_quotes input primaryDrug snapshot naked Hlower Hplain) in Hcard.
    - fold profile otherMeds in Hcard. rewrite Hq in Hcard. discriminate.
    - fold profile otherMeds. rewrite Hq. discriminate. }
  rewrite runRules_quotes in Hquotes. apply app_eq_nil in Hquotes as (Hbase & _).
  apply no_quotes_no_rule in Hbase.
  unfold RxGuard.answerFromSnapshot in *. cbv zeta in *.
  cbn [RxGuard.RxGuardResponse.decision RxGuard.RxGuardResponse.debug option_map
       RxGuard.rulesTriggered] in *.
  fold profile otherMeds in Hdecision |- *.
  rewrite evaluatePolicy_rules. rewrite evaluatePolicy_decision in Hdecision |- *.
  pose proof (runRules_UNKNOWN snapshot profile otherMeds) as Hunknown.
  revert Hdecision Hunknown.
  rewrite runRules_risk, runRules_rules, Hbase. cbn [existsb andb orb app].
  rewrite !andb_false_r. cbn [orb app].
  destruct (Js.truthy (LabelSnapshot.evidenceText snapshot));
    [| intros [Hd | Hd]; discriminate].
  destruct (Spec.interactionHits snapshot otherMeds) as [|hit hits];
    cbn [bool_decide negb].
  - intros Hdecision Hunknown. rewrite (proj2 Hunknown eq_refl) in Hdecision.
    destruct Hdecision; discriminate.
  - intros _ _. split; reflexivity.
Qed.

End CardFacts.

(** The reference engine lowers the Basic Latin block as every engine
    does. *)
Lemma engine_lowersAscii : Spec.lowersAscii (H := BasicLatin.engine).
Proof. intros s _. reflexivity. Qed.

Lemma lower_ascii (afterLetter : bool) (s : Js.str) :
  Spec.ascii s -> Collation.lower afterLetter s = List.map BasicLatin.lowerUnit s.
Proof.
  intros Hs. revert afterLetter.
  induction Hs as [|c s Hc _ IH]; intros afterLetter; [reflexivity |].
  cbn [Collation.lower List.map]. rewrite IH. f_equal.
  unfold Collation.lowerUnit.
  destruct (N.eqb_spec c 931); [lia |].
  destruct (N.leb_spec 913 c); [lia | reflexivity].
Qed.

(** The engine with the final sigma lowers the Basic Latin block as every
    engine does. *)
Lemma collation_lowersAscii : Spec.lowersAscii (H := Collation.engine).
Proof. intros s Hs. now apply lower_ascii. Qed.

(** Beyond the Basic Latin block a quote cut from the evidence text may
    fail to verify: of the text alpha, sigma, alpha in capitals, the
    first two letters lower to an alpha and a final sigma, which the
    lowered text does not hold. *)
Example final_sigma_quote_rejected :
  Spec.occursIn [913; 931]%N [913; 931; 913]%N
  /\ ~ Spec.blank [913; 931]%N
  /\ Evidence.quoteExistsInEvidence (H := Collation.engine) [913; 931; 913]%N [913; 931]%N
     = false.
Proof.
  split; [exists [], [913%N]; reflexivity |].
  split; [apply ChunkFacts.opens_not_blank; reflexivity | reflexivity].
Qed.

Lemma built_canonical (record : OpenFdaLabelRecord.t) (snapshot : LabelSnapshot.t) :
  Evidence.buildLabelSnapshot record = Js.Return snapshot -> Spec.canonical snapshot.
Proof.
  intros Hbuilt. unfold Spec.canonical.
  apply SnapshotFacts.snapshot_fields in Hbuilt as (_ & _ & -> & -> & _). reflexivity.
Qed.

(** A plain snapshot, by evaluation of its sections. *)
Lemma plain_check (record : OpenFdaLabelRecord.t) (snapshot : LabelSnapshot.t) :
  Evidence.buildLabelSnapshot record = Js.Return snapshot ->
  forallb (fun c => c <? 128)%N
    (concat (List.map snd (Evidence.parts (LabelSnapshot.sections snapshot)))) = true ->
  Spec.plain snapshot.
Proof.
  intros Hbuilt Hall. split; [exact (built_canonical record snapshot Hbuilt) |].
  intros k. apply ascii_check. rewrite forallb_forall in Hall |- *.
  intros c Hc. apply Hall. apply in_concat.
  exists (Policy.sectionAt (LabelSnapshot.sections snapshot) k). split; [| exact Hc].
  apply in_map_iff.
  destruct (part_of_key (LabelSnapshot.sections snapshot) k) as (title & Hin).
  now exists (title, Policy.sectionAt (LabelSnapshot.sections snapshot) k).
Qed.

(** ** labelCache.ts: what a resolution leaves in the stores *)

Section CacheFacts.
Context `{Js.Host}.
Import LabelCache.

(** The calls of the monad, unfolded down to the stores. *)
Ltac run_cache :=
  repeat progress
    (unfold bind, ret, throw, get, lift, modify, send, readEvidenceTextFromStorage,
       writeEvidenceTextToStorage, setMemDrugToDocId, setMemDocIdToSnapshot,
       setLabelDoc, setIndexDoc;
     cbv beta iota).

(** The fields of stores that were just written. *)
Ltac simpl_stores :=
  cbn [memDrugToDocId memDocIdToSnapshot labels drugIndex bucket refuses].

Lemma docId_not_empty (snapshot : LabelSnapshot.t) : makeLabelDocId snapshot <> [].
Proof.
  unfold makeLabelDocId. destruct (LabelSnapshot.setId snapshot); discriminate.
Qed.

Lemma truthyOpt_some (s : Js.str) : s <> [] -> truthyOpt (Some s) = Some s.
Proof. destruct s; [congruence | reflexivity]. Qed.

Lemma truthyOpt_spec (v : option Js.str) (s : Js.str) :
  truthyOpt v = Some s <-> v = Some s /\ s <> [].
Proof.
  destruct v as [[|c t]|]; cbn; split; try discriminate.
  - now intros ([= <-] & Hne).
  - intros [= <-]. split; [reflexivity | discriminate].
  - now intros ([= <-] & _).
  - now intros (Hnone & _).
Qed.

Lemma getSnapshot_hit (docId : Js.str) (st : Stores) (snapshot : LabelSnapshot.t) :
  memDocIdToSnapshot st !! docId = Some snapshot ->
  getSnapshotByDocId docId st = (Js.Return (Some snapshot), st).
Proof.
  intros Hmem. unfold getSnapshotByDocId. run_cache. now rewrite Hmem.
Qed.

(** A lookup by document identifier changes nothing unless it returns a
    snapshot, which is then in the in-process map; it sends no write. *)
Lemma getSnapshot_cases (docId : Js.str) (st : Stores) c st' :
  getSnapshotByDocId docId st = (c, st') ->
  (st' = st /\ (c = Js.Return None \/ c = Js.Throw Js.Rejected))
  \/ (exists snapshot,
        c = Js.Return (Some snapshot)
        /\ memDocIdToSnapshot st' !! docId = Some snapshot
        /\ memDrugToDocId st' = memDrugToDocId st
        /\ drugIndex st' = drugIndex st).
Proof.
  unfold getSnapshotByDocId. run_cache.
  destruct (memDocIdToSnapshot st !! docId) as [mem|] eqn:Hmem.
  { intros [= <- <-]. right. exists mem. auto. }
  destruct (labels st !! docId) as [data|]; [| intros [= <- <-]; left; auto].
  destruct (truthyOpt (LabelDoc.evidenceText data)) as [text|] eqn:Htext.
  - apply truthyOpt_spec in Htext as (_ & Hne).
    destruct text as [|c0 text]; [congruence |]. cbn [Js.truthy negb].
    intros [= <- <-]. right. eexists. split; [reflexivity |].
    cbn [memDocIdToSnapshot memDrugToDocId drugIndex].
    split; [apply lookup_insert_eq | auto].
  - destruct (truthyOpt (LabelDoc.evidenceStoragePath data)) as [path|].
    + destruct (bucket st !! path) as [[|c0 text]|]; cbv beta iota; cbn [Js.truthy negb].
      * intros [= <- <-]. left. auto.
      * intros [= <- <-]. right. eexists. split; [reflexivity |].
        cbn [memDocIdToSnapshot memDrugToDocId drugIndex].
        split; [apply lookup_insert_eq | auto].
      * intros [= <- <-]. left. auto.
    + cbn [Js.truthy negb]. intros [= <- <-]. left. auto.
Qed.

(** [upsertSnapshot] pins the snapshot, or ends with the rejection of a
    write that the services refuse. *)
Lemma upsert_cases (snapshot : LabelSnapshot.t) (drugKey : Js.str) (st : Stores) :
  match upsertSnapshot snapshot drugKey st with
  | (Js.Return docId, st') =>
      docId = makeLabelDocId snapshot /\ st' = Spec.pinnedIn snapshot drugKey st
  | (Js.Throw e, _) => exists w, refuses st w = Some e
  end.
Proof.
  unfold upsertSnapshot, Spec.pinnedIn. cbv zeta.
  destruct (Utils.bytesUtf8 (LabelSnapshot.evidenceText snapshot) <=? MAX_FIRESTORE_DOC_BYTES).
  - unfold bind at 1. unfold ret at 1. cbv beta iota.
    unfold bind at 1. unfold setLabelDoc at 1. unfold send at 1.
    match goal with |- context [refuses st ?w] => destruct (refuses st w) as [e|] eqn:Hlabel end;
      [eauto |].
    cbv beta iota.
    unfold bind at 1. unfold setMemDrugToDocId at 1. unfold modify at 1. cbv beta iota. simpl_stores.
    unfold bind at 1. unfold setMemDocIdToSnapshot at 1. unfold modify at 1. cbv beta iota.
    simpl_stores.
    unfold bind at 1. unfold setIndexDoc at 1. unfold send at 1. simpl_stores.
    match goal with |- context [refuses st ?w] => destruct (refuses st w) as [e|] eqn:Hindex end;
      [eauto |].
    cbv beta iota. simpl_stores.
    unfold bind at 1. unfold setMemDrugToDocId at 1. unfold modify at 1. cbv beta iota. simpl_stores.
    unfold bind at 1. unfold setMemDocIdToSnapshot at 1. unfold modify at 1. cbv beta iota.
    simpl_stores. unfold ret.
    now rewrite !insert_insert_eq.
  - unfold bind at 1. unfold writeEvidenceTextToStorage at 1. unfold send at 1.
    match goal with |- context [refuses st ?w] => destruct (refuses st w) as [e|] eqn:Hobject end;
      [eauto |].
    cbv beta iota.
    unfold bind at 1. unfold setLabelDoc at 1. unfold send at 1. simpl_stores.
    match goal with |- context [refuses st ?w] => destruct (refuses st w) as [e|] eqn:Hlabel end;
      [eauto |].
    cbv beta iota. simpl_stores.
    unfold bind at 1. unfold setMemDrugToDocId at 1. unfold modify at 1. cbv beta iota. simpl_stores.
    unfold bind at 1. unfold setMemDocIdToSnapshot at 1. unfold modify at 1. cbv beta iota.
    simpl_stores.
    unfold bind at 1. unfold setIndexDoc at 1. unfold send at 1. simpl_stores.
    match goal with |- context [refuses st ?w] => destruct (refuses st w) as [e|] eqn:Hindex end;
      [eauto |].
    cbv beta iota. simpl_stores.
    unfold bind at 1. unfold setMemDrugToDocId at 1. unfold modify at 1. cbv beta iota. simpl_stores.
    unfold bind at 1. unfold setMemDocIdToSnapshot at 1. unfold modify at 1. cbv beta iota.
    simpl_stores. unfold ret.
    now rewrite !insert_insert_eq.
Qed.

(** What a pinned snapshot leaves in the in-process maps and in the
    index. *)
Lemma pinnedIn_spec (snapshot : LabelSnapshot.t) (drugKey : Js.str) (st : Stores) :
  let st' := Spec.pinnedIn snapshot drugKey st in
  memDrugToDocId st' !! drugKey = Some (makeLabelDocId snapshot)
  /\ memDocIdToSnapshot st' !! makeLabelDocId snapshot = Some snapshot
  /\ drugIndex st' !! drugKey
     = Some {| IndexDoc.docId := Some (makeLabelDocId snapshot);
               IndexDoc.setId := LabelSnapshot.setId snapshot;
               IndexDoc.effectiveTime := LabelSnapshot.effectiveTime snapshot |}.
Proof.
  cbv zeta. unfold Spec.pinnedIn. cbv zeta.
  cbn [memDrugToDocId memDocIdToSnapshot drugIndex].
  repeat split; apply lookup_insert_eq.
Qed.

Implicit Types (fetch : OpenFdaClient.Request -> Js.completion OpenFdaClient.Response)
  (envApiKey : option Js.str).

(** A resolution from the label source leaves the stores as they were
    and does not return [ok], or pins the snapshot of the chosen record,
    or ends with the rejection of a write that was refused. *)
Lemma source_cases fetch envApiKey (drugQuery drugKey : Js.str) (st : Stores) c st' :
  resolveFromSource fetch envApiKey drugQuery drugKey st = (c, st') ->
  (st' = st
   /\ forall r, c = Js.Return r ->
        LabelResolutionResult.kind r <> ok /\ LabelResolutionResult.snapshot r = None)
  \/ (exists found_ record snapshot,
        OpenFdaClient.fetchLabelCandidates fetch envApiKey drugQuery (Some 8) None
        = Js.Return found_
        /\ OpenFdaClient.ambiguous
             (OpenFdaClient.detectAmbiguity (OpenFdaClient.OpenFdaSearchResult.records found_))
           = false
        /\ OpenFdaClient.chooseDeterministicRecord (OpenFdaClient.OpenFdaSearchResult.records found_)
           = Some record
        /\ Evidence.buildLabelSnapshot record = Js.Return snapshot
        /\ c = Js.Return (found drugQuery drugKey snapshot)
        /\ st' = Spec.pinnedIn snapshot drugKey st)
  \/ (exists w e, refuses st w = Some e /\ c = Js.Throw e).
Proof.
  unfold resolveFromSource. run_cache.
  destruct (OpenFdaClient.fetchLabelCandidates fetch envApiKey drugQuery (Some 8) None)
    as [found_|e] eqn:Hfetch.
  2: { intros [= <- <-]. left. split; [reflexivity | discriminate]. }
  destruct (OpenFdaClient.OpenFdaSearchResult.records found_) as [|r0 rest] eqn:Hrecords.
  { intros [= <- <-]. left. split; [reflexivity |].
    intros r [= <-]. split; [discriminate | reflexivity]. }
  destruct (OpenFdaClient.ambiguous _) eqn:Hamb.
  { intros [= <- <-]. left. split; [reflexivity |].
    intros r [= <-]. split; [discriminate | reflexivity]. }
  destruct (OpenFdaClient.chooseDeterministicRecord (r0 :: rest)) as [record|] eqn:Hchoice.
  2: { intros [= <- <-]. left. split; [reflexivity |].
       intros r [= <-]. split; [discriminate | reflexivity]. }
  destruct (Evidence.buildLabelSnapshot record) as [snapshot|e] eqn:Hbuilt.
  2: { intros [= <- <-]. left. split; [reflexivity | discriminate]. }
  pose proof (upsert_cases snapshot drugKey st) as Hupsert.
  destruct (upsertSnapshot snapshot drugKey st) as ([docId|e] & st1).
  - destruct Hupsert as (-> & ->).
    destruct (pinnedIn_spec snapshot drugKey st) as (_ & Hmem & _).
    rewrite (getSnapshot_hit _ _ _ Hmem). cbn [default].
    intros [= <- <-]. right. left. exists found_, record, snapshot.
    rewrite Hrecords. auto 10.
  - destruct Hupsert as (w & Hrefused). intros [= <- <-]. right. right. eauto.
Qed.

Lemma source_settled fetch envApiKey (drugQuery drugKey : Js.str) (st : Stores) c st' :
  resolveFromSource fetch envApiKey drugQuery drugKey st = (c, st') ->
  Spec.settled drugQuery drugKey st c st'.
Proof.
  intros Hsource. apply source_cases in Hsource
    as [(-> & Hnot) | [(found_ & record & snapshot & _ & _ & _ & _ & -> & ->)
                      | (w & e & Hrefused & ->)]].
  - destruct c as [r|e]; [| now left].
    left. destruct (Hnot r eq_refl). auto.
  - right. exists snapshot. split; [reflexivity |].
    destruct (pinnedIn_spec snapshot drugKey st) as (Hdrug & Hmem & _).
    exists (makeLabelDocId snapshot). auto using docId_not_empty.
  - right. eauto.
Qed.

Lemma index_settled fetch envApiKey (drugQuery drugKey : Js.str) (st : Stores) c st' :
  resolveFromIndex fetch envApiKey drugQuery drugKey st = (c, st') ->
  Spec.settled drugQuery drugKey st c st'.
Proof.
  unfold resolveFromIndex. run_cache.
  destruct (truthyOpt (drugIndex st !! drugKey ≫= IndexDoc.docId)) as [docId|] eqn:Hidx;
    [| apply source_settled].
  apply truthyOpt_spec in Hidx as (_ & Hne).
  destruct (getSnapshotByDocId docId st) as (c1 & st1) eqn:Hget.
  apply getSnapshot_cases in Hget
    as [(-> & [-> | ->]) | (snapshot & -> & Hsnap & Hdrug & _)]; run_cache;
    cbn [option_map].
  - apply source_settled.
  - intros [= <- <-]. now left.
  - intros [= <- <-]. right. exists snapshot. split; [reflexivity |].
    exists docId. cbn [memDrugToDocId memDocIdToSnapshot].
    split; [apply lookup_insert_eq | auto].
Qed.

(** Every resolution is settled. *)
Lemma resolve_settled fetch envApiKey (drugQuery : Js.str) (st : Stores) c st' :
  resolveDrugToPinnedLabel fetch envApiKey drugQuery st = (c, st') ->
  Spec.settled drugQuery (Utils.normalizeForKey drugQuery) st c st'.
Proof.
  unfold resolveDrugToPinnedLabel. cbv zeta. run_cache.
  destruct (truthyOpt (memDrugToDocId st !! Utils.normalizeForKey drugQuery))
    as [memDocId|] eqn:Hmem; [| apply index_settled].
  apply truthyOpt_spec in Hmem as (Hmem & Hne).
  destruct (getSnapshotByDocId memDocId st) as (c1 & st1) eqn:Hget.
  apply getSnapshot_cases in Hget
    as [(-> & [-> | ->]) | (snapshot & -> & Hsnap & Hdrug & _)]; run_cache.
  - apply index_settled.
  - intros [= <- <-]. now left.
  - intros [= <- <-]. right. exists snapshot. split; [reflexivity |].
    exists memDocId. rewrite Hdrug. auto.
Qed.

(** A query that the in-process maps remember is answered from them:
    the label source is not asked and no write is sent. *)
Lemma resolve_remembered fetch envApiKey (drugQuery : Js.str) (st : Stores)
    (snapshot : LabelSnapshot.t) :
  Spec.remembers st (Utils.normalizeForKey drugQuery) snapshot ->
  resolveDrugToPinnedLabel fetch envApiKey drugQuery st
  = (Js.Return (found drugQuery (Utils.normalizeForKey drugQuery) snapshot), st).
Proof.
  intros (docId & Hdrug & Hne & Hsnap).
  unfold resolveDrugToPinnedLabel. cbv zeta. run_cache.
  rewrite Hdrug, (truthyOpt_some docId Hne), (getSnapshot_hit _ _ _ Hsnap). reflexivity.
Qed.

(** A resolution that returned [ok] is repeated from the in-process
    maps: the same query gets the same result again and the stores stay
    as they are, whatever the label source answers by then, should it be
    out of reach, and whatever the services refuse by then. *)
Theorem resolution_memoized fetch envApiKey (drugQuery : Js.str) (st st' : Stores)
    (result : LabelResolutionResult.t) :
  resolveDrugToPinnedLabel fetch envApiKey drugQuery st = (Js.Return result, st') ->
  LabelResolutionResult.kind result = ok ->
  forall fetch' envApiKey' refuses',
    resolveDrugToPinnedLabel fetch' envApiKey' drugQuery (Spec.facing refuses' st')
    = (Js.Return result, Spec.facing refuses' st').
Proof.
  intros Hresolve Hkind fetch' envApiKey' refuses'.
  apply resolve_settled in Hresolve as [(_ & Hnot & _) | (snapshot & -> & Hmem)];
    [contradiction |].
  apply resolve_remembered.
  destruct Hmem as (docId & Hdrug & Hne & Hsnap). now exists docId.
Qed.




End CacheFacts.

(** ** rxguard.ts: what every answer has *)

Section AnswerFacts.
Context `{Js.Host}.
Variable fetch : OpenFdaClient.Request -> Js.completion OpenFdaClient.Response.
Variable envApiKey : option Js.str.

Lemma ends_app (a b d : Js.str) :
  (exists body, b = body ++ d) -> exists body, a ++ b = body ++ d.
Proof. intros (body & ->). exists (a ++ body). apply app_assoc. Qed.

Lemma ends_refl (d : Js.str) : exists body, d = body ++ d.
Proof. now exists []. Qed.

Lemma buildCoreMessage_ends decision risk primaryDrug quotes clarifyingQuestion :
  exists body,
    RxGuard.buildCoreMessage decision risk primaryDrug quotes clarifyingQuestion
    = body ++ RxGuard.disclaimer.
Proof.
  unfold RxGuard.buildCoreMessage. cbv zeta.
  generalize RxGuard.disclaimer as d. intros d.
  destruct decision; repeat apply ends_app; apply ends_refl.
Qed.

(** The cases of [rxguardAnswer], by what the resolution returned. *)
Lemma rxguardAnswer_cases maybeGetNakedAnswers (input : RxGuard.RxGuardRequest.t)
    (st st' : LabelCache.Stores) (response : RxGuard.RxGuardResponse.t) :
  RxGuard.rxguardAnswer fetch envApiKey maybeGetNakedAnswers input st
  = (Js.Return response, st') ->
  let primaryDrug := Js.trim (default [] (RxGuard.RxGuardRequest.primaryDrug input)) in
  (RxGuard.RxGuardResponse.decision response = CLARIFY
   /\ RxGuard.RxGuardResponse.risk response = UNKNOWN
   /\ RxGuard.RxGuardResponse.proofCard response = None
   /\ RxGuard.RxGuardResponse.clarifyingQuestion response <> None
   /\ (RxGuard.RxGuardResponse.message response = RxGuard.missingDrugMessage
       \/ RxGuard.RxGuardResponse.message response = RxGuard.notFoundMessage primaryDrug
       \/ exists options,
            RxGuard.RxGuardResponse.message response
            = RxGuard.ambiguousMessage primaryDrug options))
  \/ (exists snapshot,
        Spec.remembers st' (Utils.normalizeForKey primaryDrug) snapshot
        /\ response = RxGuard.answerFromSnapshot input primaryDrug snapshot
                        (maybeGetNakedAnswers input)).
Proof.
  unfold RxGuard.rxguardAnswer. cbv zeta.
  destruct (Js.truthy (Js.trim _)); cbn [negb].
  2: { unfold LabelCache.ret. intros [= <- <-]. left.
       cbn [RxGuard.RxGuardResponse.decision RxGuard.RxGuardResponse.risk
            RxGuard.RxGuardResponse.proofCard RxGuard.RxGuardResponse.clarifyingQuestion
            RxGuard.RxGuardResponse.message RxGuard.RxGuardResponse.debug
            RxGuard.RxGuardResponse.naked].
       repeat split; auto; discriminate. }
  unfold LabelCache.bind.
  destruct (LabelCache.resolveDrugToPinnedLabel fetch envApiKey _ st) as (c & st1) eqn:Hresolve.
  apply resolve_settled in Hresolve.
  destruct c as [resolution|e]; [| discriminate].
  destruct Hresolve as [(-> & Hkind & Hsnapshot) | (snapshot & -> & Hmem)].
  - destruct (LabelCache.LabelResolutionResult.kind resolution); [congruence | |];
      unfold LabelCache.ret; intros [= <- <-]; left;
      cbn [RxGuard.RxGuardResponse.decision RxGuard.RxGuardResponse.risk
            RxGuard.RxGuardResponse.proofCard RxGuard.RxGuardResponse.clarifyingQuestion
            RxGuard.RxGuardResponse.message RxGuard.RxGuardResponse.debug
            RxGuard.RxGuardResponse.naked];
      repeat split; eauto; discriminate.
  - cbn [LabelCache.LabelResolutionResult.kind LabelCache.LabelResolutionResult.snapshot
         LabelCache.found].
    unfold LabelCache.ret. intros [= <- <-]. right. eauto.
Qed.

(** Every answer ends with the disclaimer. *)
Theorem answer_ends_with_disclaimer maybeGetNakedAnswers (input : RxGuard.RxGuardRequest.t)
    (st st' : LabelCache.Stores) (response : RxGuard.RxGuardResponse.t) :
  RxGuard.rxguardAnswer fetch envApiKey maybeGetNakedAnswers input st
  = (Js.Return response, st') ->
  exists body, RxGuard.RxGuardResponse.message response = body ++ RxGuard.disclaimer.
Proof.
  intros Hanswer. apply rxguardAnswer_cases in Hanswer.
  destruct Hanswer as [(_ & _ & _ & _ & [-> | [-> | (options & ->)]]) | (snapshot & _ & ->)].
  - unfold RxGuard.missingDrugMessage. generalize RxGuard.disclaimer as d. intros d.
    repeat apply ends_app. apply ends_refl.
  - unfold RxGuard.notFoundMessage. generalize RxGuard.disclaimer as d. intros d.
    repeat apply ends_app. apply ends_refl.
  - unfold RxGuard.ambiguousMessage. generalize RxGuard.disclaimer as d. intros d.
    repeat apply ends_app. apply ends_refl.
  - unfold RxGuard.answerFromSnapshot. cbv zeta. cbn [RxGuard.RxGuardResponse.message].
    apply buildCoreMessage_ends.
Qed.

(** The fields of an answer agree: BLOCK goes with the risk HIGH, CAUTION
    with MODERATE and CLARIFY with UNKNOWN, a clarifying question is
    present exactly for CLARIFY, the decision is never INFO, and an answer
    without a proof card is a CLARIFY.  The composer adds no failure of
    its own: when it throws, the resolution of the label threw that
    exception (the label source out of reach or in error, a write
    refused); it never reads the snapshot of a result that has none. *)
Theorem answer_coherent maybeGetNakedAnswers (input : RxGuard.RxGuardRequest.t)
    (st st' : LabelCache.Stores) (c : Js.completion RxGuard.RxGuardResponse.t) :
  RxGuard.rxguardAnswer fetch envApiKey maybeGetNakedAnswers input st = (c, st') ->
  (forall response, c = Js.Return response ->
     (RxGuard.RxGuardResponse.decision response = BLOCK
      <-> RxGuard.RxGuardResponse.risk response = HIGH)
     /\ (RxGuard.RxGuardResponse.decision response = CAUTION
         <-> RxGuard.RxGuardResponse.risk response = MODERATE)
     /\ (RxGuard.RxGuardResponse.decision response = CLARIFY
         <-> RxGuard.RxGuardResponse.risk response = UNKNOWN)
     /\ (RxGuard.RxGuardResponse.decision response = CLARIFY
         <-> RxGuard.RxGuardResponse.clarifyingQuestion response <> None)
     /\ RxGuard.RxGuardResponse.decision response <> INFO
     /\ (RxGuard.RxGuardResponse.proofCard response = None ->
         RxGuard.RxGuardResponse.decision response = CLARIFY))
  /\ (forall e, c = Js.Throw e ->
        LabelCache.resolveDrugToPinnedLabel fetch envApiKey
          (Js.trim (default [] (RxGuard.RxGuardRequest.primaryDrug input))) st
        = (Js.Throw e, st')).
Proof.
  intros Hanswer. split.
  - intros response ->. apply rxguardAnswer_cases in Hanswer.
    destruct Hanswer as [(-> & -> & -> & Hquestion & _) | (snapshot & _ & ->)].
    + repeat split; auto; discriminate.
    + unfold RxGuard.answerFromSnapshot. cbv zeta.
      cbn [RxGuard.RxGuardResponse.decision RxGuard.RxGuardResponse.risk
           RxGuard.RxGuardResponse.clarifyingQuestion RxGuard.RxGuardResponse.proofCard].
      rewrite evaluatePolicy_decision, evaluatePolicy_risk, evaluatePolicy_question.
      pose proof (runRules_not_LOW snapshot (RxGuard.RxGuardRequest.profile input)
                    (RxGuard.RxGuardRequest.otherMeds input)) as Hlow.
      destruct (Js.truthy (LabelSnapshot.evidenceText snapshot));
        [destruct (Policy.risk _) |];
        try congruence; repeat split; intros; try discriminate; try congruence.
  - intros e ->. revert Hanswer. unfold RxGuard.rxguardAnswer. cbv zeta.
    destruct (Js.truthy (Js.trim _)); cbn [negb]; [| discriminate].
    unfold LabelCache.bind.
    destruct (LabelCache.resolveDrugToPinnedLabel fetch envApiKey _ st) as (c & st1) eqn:Hresolve.
    apply resolve_settled in Hresolve.
    destruct c as [resolution|e']; [| now intros [= <- <-]].
    destruct Hresolve as [(-> & Hkind & Hsnapshot) | (snapshot & -> & Hmem)].
    + destruct (LabelCache.LabelResolutionResult.kind resolution); [congruence | |];
        discriminate.
    + discriminate.
Qed.

(** The baseline answers enter the response as they come and change
    nothing else: whatever the baseline collaborator returns, the outcome,
    the stores and every other field of the response are the same. *)
Theorem baseline_changes_nothing_else naked1 naked2 (input : RxGuard.RxGuardRequest.t)
    (st : LabelCache.Stores) :
  let answer1 := RxGuard.rxguardAnswer fetch envApiKey naked1 input st in
  let answer2 := RxGuard.rxguardAnswer fetch envApiKey naked2 input st in
  snd answer1 = snd answer2
  /\ match fst answer1, fst answer2 with
     | Js.Return r1, Js.Return r2 =>
         RxGuard.RxGuardResponse.decision r1 = RxGuard.RxGuardResponse.decision r2
         /\ RxGuard.RxGuardResponse.risk r1 = RxGuard.RxGuardResponse.risk r2
         /\ RxGuard.RxGuardResponse.message r1 = RxGuard.RxGuardResponse.message r2
         /\ RxGuard.RxGuardResponse.clarifyingQuestion r1
            = RxGuard.RxGuardResponse.clarifyingQuestion r2
         /\ RxGuard.RxGuardResponse.proofCard r1 = RxGuard.RxGuardResponse.proofCard r2
         /\ RxGuard.RxGuardResponse.debug r1 = RxGuard.RxGuardResponse.debug r2
         /\ (RxGuard.RxGuardResponse.naked r1 = None
             \/ RxGuard.RxGuardResponse.naked r1 = naked1 input)
     | Js.Throw e1, Js.Throw e2 => e1 = e2
     | _, _ => False
     end.
Proof.
  cbv zeta. unfold RxGuard.rxguardAnswer. cbv zeta.
  destruct (Js.truthy (Js.trim _)); cbn [negb].
  2: { unfold LabelCache.ret. cbn [fst snd].
       cbn [RxGuard.RxGuardResponse.decision RxGuard.RxGuardResponse.risk
            RxGuard.RxGuardResponse.proofCard RxGuard.RxGuardResponse.clarifyingQuestion
            RxGuard.RxGuardResponse.message RxGuard.RxGuardResponse.debug
            RxGuard.RxGuardResponse.naked].
       repeat split; auto. }
  unfold LabelCache.bind.
  destruct (LabelCache.resolveDrugToPinnedLabel fetch envApiKey _ st) as ([resolution|e] & st1);
    [| cbn; auto].
  destruct (LabelCache.LabelResolutionResult.kind resolution);
    [destruct (LabelCache.LabelResolutionResult.snapshot resolution) | |];
    unfold LabelCache.ret, LabelCache.throw; cbn [fst snd];
    (split; [reflexivity |]); try reflexivity;
    unfold RxGuard.answerFromSnapshot; cbv zeta;
    cbn [RxGuard.RxGuardResponse.decision RxGuard.RxGuardResponse.risk
            RxGuard.RxGuardResponse.proofCard RxGuard.RxGuardResponse.clarifyingQuestion
            RxGuard.RxGuardResponse.message RxGuard.RxGuardResponse.debug
            RxGuard.RxGuardResponse.naked];
    repeat split; auto.
Qed.

End AnswerFacts.

(** ** openfda.ts: the request to the label source *)

Section SourceFacts.
Import TrimFacts SqueezeFacts.

Lemma replaceRuns_at (b : bool) (x y : Js.str) (c : N) :
  Js.isWhiteSpace c = false ->
  Js.replaceRuns Js.isWhiteSpace b (x ++ c :: y)
  = Js.replaceRuns Js.isWhiteSpace b x ++ c :: Js.replaceRuns Js.isWhiteSpace false y.
Proof.
  intros Hc. destruct (replaceRuns_app Js.isWhiteSpace b x (c :: y)) as (b' & ->).
  now rewrite replaceRuns_keep.
Qed.

(** What a replaced text holds: spaces, and characters of the text that
    are not of the class. *)
Lemma replaceRuns_In (cls : N -> bool) (b : bool) (s : Js.str) (c : N) :
  In c (Js.replaceRuns cls b s) -> c = Js.space \/ (In c s /\ cls c = false).
Proof.
  revert b; induction s as [|x s IH]; intros b; cbn [Js.replaceRuns]; [intros [] |].
  destruct (cls x) eqn:Hx.
  - destruct b.
    + intros Hin. apply IH in Hin as [-> | (Hin & Hc)]; [now left | right; split; [now right | auto]].
    + intros [<- | Hin]; [now left |].
      apply IH in Hin as [-> | (Hin & Hc)]; [now left | right; split; [now right | auto]].
  - intros [<- | Hin]; [right; split; [now left | exact Hx] |].
    apply IH in Hin as [-> | (Hin & Hc)]; [now left | right; split; [now right | auto]].
Qed.

Lemma occursIn_In (a b : Js.str) (c : N) : Spec.occursIn a b -> In c a -> In c b.
Proof.
  intros (pre & post & ->) Hin. apply in_or_app. right. apply in_or_app. now left.
Qed.

Lemma sanitizeTerm_In (term : Js.str) (c : N) :
  In c (OpenFdaClient.sanitizeTerm term) ->
  c <> OpenFdaClient.doubleQuote /\ c <> OpenFdaClient.backslash /\ Js.isCrLf c = false.
Proof.
  unfold OpenFdaClient.sanitizeTerm. intros Hin.
  apply (occursIn_In _ _ c (trim_occurs _)) in Hin.
  unfold Js.removeAll in Hin. apply filter_In in Hin as (Hin & Hc).
  apply negb_true_iff, orb_false_iff in Hc as (Hq & Hb).
  apply N.eqb_neq in Hq, Hb. split; [exact Hq |]. split; [exact Hb |].
  unfold Utils.safeOneLine in Hin.
  apply (occursIn_In _ _ c (trim_occurs _)) in Hin.
  apply replaceRuns_In in Hin as [-> | (_ & Hc)]; [reflexivity | exact Hc].
Qed.

End SourceFacts.

(** The search expression holds the name three times, each time between
    two double quotes, with its quotes, backslashes and line breaks
    removed and its whitespace reduced to single spaces: the name cannot
    close a quotation nor add a clause. *)
Theorem search_expression_quoted (drugName : Js.str) :
  let term :=
    Js.replaceRuns Js.isWhiteSpace false (OpenFdaClient.sanitizeTerm drugName) in
  OpenFdaClient.buildSearchExpr drugName
  = Js.lit "( openfda.brand_name:" ++ OpenFdaClient.doubleQuote :: term
    ++ OpenFdaClient.doubleQuote :: Js.lit " OR openfda.generic_name:"
    ++ OpenFdaClient.doubleQuote :: term
    ++ OpenFdaClient.doubleQuote :: Js.lit " OR openfda.substance_name:"
    ++ OpenFdaClient.doubleQuote :: term
    ++ OpenFdaClient.doubleQuote :: Js.lit " )"
  /\ ~ In OpenFdaClient.doubleQuote term
  /\ ~ In OpenFdaClient.backslash term
  /\ Forall (fun c => Js.isWhiteSpace c = true -> c = Js.space) term.
Proof.
  cbv zeta. split.
  - unfold OpenFdaClient.buildSearchExpr. cbv zeta.
    generalize (OpenFdaClient.sanitizeTerm drugName) as t. intros t.
    rewrite <- !app_assoc.
    set (x1 := Js.lit "(" ++ Js.newline ++ Js.lit "    openfda.brand_name:").
    set (x2 := Js.lit " OR openfda.generic_name:").
    set (x3 := Js.lit " OR openfda.substance_name:").
    set (x4 := Js.newline ++ Js.lit "  )").
    change (Js.replaceRuns Js.isWhiteSpace false
              (x1 ++ OpenFdaClient.doubleQuote :: t
               ++ OpenFdaClient.doubleQuote :: x2
               ++ OpenFdaClient.doubleQuote :: t
               ++ OpenFdaClient.doubleQuote :: x3
               ++ OpenFdaClient.doubleQuote :: t
               ++ OpenFdaClient.doubleQuote :: x4) = 
            Js.lit "( openfda.brand_name:" ++ OpenFdaClient.doubleQuote ::
              Js.replaceRuns Js.isWhiteSpace false t
              ++ OpenFdaClient.doubleQuote :: x2
              ++ OpenFdaClient.doubleQuote :: Js.replaceRuns Js.isWhiteSpace false t
              ++ OpenFdaClient.doubleQuote :: x3
              ++ OpenFdaClient.doubleQuote :: Js.replaceRuns Js.isWhiteSpace false t
              ++ OpenFdaClient.doubleQuote :: Js.lit " )").
    rewrite !replaceRuns_at by reflexivity.
    reflexivity.
  - split; [| split].
    + intros Hin. apply replaceRuns_In in Hin as [Hsp | (Hin & _)]; [discriminate |].
      now apply sanitizeTerm_In in Hin as (Hq & _).
    + intros Hin. apply replaceRuns_In in Hin as [Hsp | (Hin & _)]; [discriminate |].
      now apply sanitizeTerm_In in Hin as (_ & Hb & _).
    + apply List.Forall_forall. intros c Hin Hws.
      apply replaceRuns_In in Hin as [-> | (_ & Hc)]; [reflexivity | congruence].
Qed.

(** ** Sorting, up to the order of the input *)

Section SortOrderFacts.
Context {A : Type} (cmp : A -> A -> comparison).
Hypothesis cmp_total : forall a b, cmp a b = Gt -> cmp b a <> Gt.
Hypothesis cmp_trans : forall a b c, cmp a b <> Gt -> cmp b c <> Gt -> cmp a c <> Gt.
Hypothesis cmp_antisym : forall a b, cmp a b <> Gt -> cmp b a <> Gt -> a = b.

Lemma insertSorted_swap (x y : A) (l : list A) :
  Js.insertSorted cmp x (Js.insertSorted cmp y l)
  = Js.insertSorted cmp y (Js.insertSorted cmp x l).
Proof.
  induction l as [|z l IH]; cbn [Js.insertSorted].
  - destruct (cmp x y) eqn:Hxy; destruct (cmp y x) eqn:Hyx; cbn [Js.insertSorted];
      rewrite ?Hxy, ?Hyx; try reflexivity;
      try (rewrite (cmp_antisym x y) by congruence; reflexivity);
      exfalso; now apply (cmp_total x y).
  - destruct (cmp y z) eqn:Hyz; destruct (cmp x z) eqn:Hxz; cbn [Js.insertSorted];
      rewrite ?Hyz, ?Hxz;
      destruct (cmp x y) eqn:Hxy; destruct (cmp y x) eqn:Hyx; cbn [Js.insertSorted];
      rewrite ?Hyz, ?Hxz, ?Hxy, ?Hyx; try rewrite IH; try reflexivity;
      try (rewrite (cmp_antisym x y) by congruence; reflexivity);
      try (exfalso; now apply (cmp_total x y));
      try (exfalso; apply (cmp_trans x y z); congruence);
      try (exfalso; apply (cmp_trans y x z); congruence).
Qed.

(** The sorted array does not depend on the order of the input. *)
Lemma sort_permutation (l1 l2 : list A) :
  Permutation l1 l2 -> Js.sort cmp l1 = Js.sort cmp l2.
Proof.
  unfold Js.sort. induction 1 as [|x l1 l2 _ IH|x y l|l1 l2 l3 _ IH1 _ IH2]; cbn [fold_right].
  - reflexivity.
  - now rewrite IH.
  - apply insertSorted_swap.
  - now rewrite IH1.
Qed.

End SortOrderFacts.

Lemma filter_permutation {A} (f : A -> bool) (l1 l2 : list A) :
  Permutation l1 l2 -> Permutation (List.filter f l1) (List.filter f l2).
Proof.
  induction 1 as [|x l1 l2 _ IH|x y l|l1 l2 l3 _ IH1 _ IH2]; cbn [List.filter].
  - constructor.
  - destruct (f x); [now constructor | exact IH].
  - destruct (f x), (f y); try reflexivity. constructor.
  - now transitivity (List.filter f l2).
Qed.

Lemma compareUnits_eq (a b : Js.str) : Js.compareUnits a b = Eq -> a = b.
Proof.
  revert b; induction a as [|x a IH]; intros [|y b]; cbn; try discriminate; [reflexivity |].
  destruct (x ?= y)%N eqn:Hxy; try discriminate.
  apply N.compare_eq_iff in Hxy. intros Hrest. f_equal; auto.
Qed.

Lemma compareUnits_antisym (a b : Js.str) :
  Js.compareUnits a b <> Gt -> Js.compareUnits b a <> Gt -> a = b.
Proof.
  rewrite (BasicLatin.compareUnits_sym a b). intros Hab Hba.
  apply compareUnits_eq. destruct (Js.compareUnits a b); cbn in Hba; congruence.
Qed.

Lemma compareUnits_total (a b : Js.str) :
  Js.compareUnits a b = Gt -> Js.compareUnits b a <> Gt.
Proof. rewrite (BasicLatin.compareUnits_sym a b). intros ->. discriminate. Qed.

(** ** openfda.ts: candidates, up to the order of the answer *)

Section OrderFacts.
Context `{Js.Host}.

Lemma compareRecords_flip (a b : OpenFdaLabelRecord.t) :
  OpenFdaClient.compareRecords a b = Lt -> OpenFdaClient.compareRecords b a = Gt.
Proof.
  unfold OpenFdaClient.compareRecords. cbv zeta.
  set (ta := OpenFdaClient.effectiveTimeToNumber (OpenFdaLabelRecord.effective_time a)).
  set (tb := OpenFdaClient.effectiveTimeToNumber (OpenFdaLabelRecord.effective_time b)).
  destruct (Qeq_bool tb ta) eqn:Heq; cbn [negb].
  - apply Qeq_bool_iff in Heq.
    assert (Heq' : Qeq_bool ta tb = true) by (apply Qeq_bool_iff; now symmetry).
    rewrite Heq'. cbn [negb]. rewrite !Z.compare_lt_iff, Z.compare_gt_iff.
    pose proof (Js.localeCompare_sgn (OpenFdaClient.stableId a) (OpenFdaClient.stableId b)).
    lia.
  - assert (Heq' : Qeq_bool ta tb = false).
    { destruct (Qeq_bool ta tb) eqn:E; [| reflexivity].
      apply Qeq_bool_iff in E. apply Qeq_bool_neq in Heq. exfalso. apply Heq. now symmetry. }
    rewrite Heq'. cbn [negb]. rewrite <- Qlt_alt, <- Qgt_alt. intros Hlt. lra.
Qed.

(** The choice does not depend on the order in which the label source
    lists the candidates, as long as no two of them tie (same effective
    time and identifiers that [localeCompare] takes for equal). *)
Theorem choice_independent_of_order (records1 records2 : list OpenFdaLabelRecord.t) :
  Permutation records1 records2 ->
  (forall a b, In a records1 -> In b records1 ->
     OpenFdaClient.compareRecords a b = Eq -> a = b) ->
  OpenFdaClient.chooseDeterministicRecord records1
  = OpenFdaClient.chooseDeterministicRecord records2.
Proof.
  intros Hperm Hties.
  destruct records1 as [|r1 rest1].
  { apply Permutation_nil in Hperm. now subst. }
  destruct records2 as [|r2 rest2].
  { symmetry in Hperm. apply Permutation_nil in Hperm. discriminate. }
  unfold OpenFdaClient.chooseDeterministicRecord.
  destruct (sort_head_some OpenFdaClient.compareRecords (r1 :: rest1)) as (m1 & Hm1);
    [discriminate |].
  destruct (sort_head_some OpenFdaClient.compareRecords (r2 :: rest2)) as (m2 & Hm2);
    [discriminate |].
  rewrite Hm1, Hm2. f_equal.
  apply (sort_head_min _ compareRecords_total compareRecords_trans) in Hm1 as (Hin1 & Hmin1).
  apply (sort_head_min _ compareRecords_total compareRecords_trans) in Hm2 as (Hin2 & Hmin2).
  assert (Hin2' : In m2 (r1 :: rest1)) by (eapply Permutation_in; [symmetry |]; eauto).
  assert (Hin1' : In m1 (r2 :: rest2)) by (eapply Permutation_in; eauto).
  apply Hties; auto.
  specialize (Hmin1 m2 Hin2'). specialize (Hmin2 m1 Hin1').
  destruct (OpenFdaClient.compareRecords m1 m2) eqn:Hcmp; [reflexivity | | congruence].
  apply compareRecords_flip in Hcmp. congruence.
Qed.

Lemma ingredients_permuted (a b : OpenFdaLabelRecord.t) :
  Permutation (default [] (OpenFdaLabelRecord.active_ingredient a))
              (default [] (OpenFdaLabelRecord.active_ingredient b)) ->
  OpenFdaClient.normalizedActiveIngredientList a
  = OpenFdaClient.normalizedActiveIngredientList b.
Proof.
  intros Hperm. unfold OpenFdaClient.normalizedActiveIngredientList. cbv zeta.
  apply (sort_permutation _ compareUnits_total BasicLatin.compareUnits_trans compareUnits_antisym).
  apply filter_permutation. now apply Permutation_map.
Qed.

(** Candidates that list the same active ingredients, in whatever order,
    have the same normalized list and are not ambiguous. *)
Theorem ingredient_order_irrelevant (records : list OpenFdaLabelRecord.t) :
  (forall a b, In a records -> In b records ->
     Permutation (default [] (OpenFdaLabelRecord.active_ingredient a))
                 (default [] (OpenFdaLabelRecord.active_ingredient b))) ->
  (forall a b, In a records -> In b records ->
     OpenFdaClient.normalizedActiveIngredientList a
     = OpenFdaClient.normalizedActiveIngredientList b)
  /\ OpenFdaClient.ambiguous (OpenFdaClient.detectAmbiguity records) = false.
Proof.
  intros Hperm.
  assert (Hsame : forall a b, In a records -> In b records ->
            OpenFdaClient.normalizedActiveIngredientList a
            = OpenFdaClient.normalizedActiveIngredientList b)
    by (intros a b Ha Hb; now apply ingredients_permuted, Hperm).
  split; [exact Hsame |].
  destruct (OpenFdaClient.ambiguous (OpenFdaClient.detectAmbiguity records)) eqn:Hamb;
    [exfalso | reflexivity].
  apply detectAmbiguity_spec in Hamb as (a & b & Ha & Hb & Hne).
  apply Hne. unfold Spec.ingredientKey. now rewrite (Hsame a b).
Qed.

End OrderFacts.

(** ** openfda.ts: the call of the label source *)

(** The request asks for at least 1 and at most 25 records (5 when the
    caller does not say), under the caller's key or else the
    environment's, an empty key being left out.  A rejection of [fetch]
    is the outcome as it is.  Of a response, the status 404 is an empty
    result, any other status outside 200..299 an error whose message holds
    the status and at most 200 code units of the body, and a 2xx answer
    gives the records of the body, none if it has no [results]. *)
Theorem fetch_outcomes (fetch : OpenFdaClient.Request -> Js.completion OpenFdaClient.Response)
    (envApiKey : option Js.str) (drugName : Js.str)
    (optLimit : option Z) (optApiKey : option Js.str) :
  exists request,
    OpenFdaClient.search request = OpenFdaClient.buildSearchExpr drugName
    /\ 1 <= OpenFdaClient.limit request <= 25
    /\ OpenFdaClient.limit request = Z.max 1 (Z.min (default 5 optLimit) 25)
    /\ OpenFdaClient.api_key request
       = LabelCache.truthyOpt (match optApiKey with Some k => Some k | None => envApiKey end)
    /\ let outcome :=
         OpenFdaClient.fetchLabelCandidates fetch envApiKey drugName optLimit optApiKey in
       match fetch request with
       | Js.Throw e => outcome = Js.Throw e
       | Js.Return response =>
           (OpenFdaClient.status response = 404 ->
            outcome = Js.Return {| OpenFdaClient.OpenFdaSearchResult.records := [];
                                   OpenFdaClient.OpenFdaSearchResult.total := 0 |})
           /\ (OpenFdaClient.status response <> 404 ->
               OpenFdaClient.status response < 200 \/ 299 < OpenFdaClient.status response ->
               exists excerpt rest,
                 outcome = Js.Throw (Js.Error (Js.lit "openFDA error "
                                               ++ Js.decimal (OpenFdaClient.status response)
                                               ++ Js.lit ": " ++ excerpt))
                 /\ OpenFdaClient.text response = excerpt ++ rest
                 /\ Js.len excerpt <= 200)
           /\ (200 <= OpenFdaClient.status response <= 299 ->
               outcome
               = match OpenFdaClient.json response with
                 | None => Js.Throw Js.Rejected
                 | Some body =>
                     Js.Return
                       {| OpenFdaClient.OpenFdaSearchResult.records :=
                            default [] (OpenFdaClient.results body);
                          OpenFdaClient.OpenFdaSearchResult.total :=
                            default (Js.len (default [] (OpenFdaClient.results body)))
                              (OpenFdaClient.total body) |}
                 end)
       end.
Proof.
  exists {| OpenFdaClient.search := OpenFdaClient.buildSearchExpr drugName;
            OpenFdaClient.limit := Z.max 1 (Z.min (default 5 optLimit) 25);
            OpenFdaClient.api_key :=
              LabelCache.truthyOpt
                (match optApiKey with Some k => Some k | None => envApiKey end) |}.
  cbn [OpenFdaClient.search OpenFdaClient.limit OpenFdaClient.api_key].
  split; [reflexivity |]. split; [lia |]. split; [reflexivity |]. split; [reflexivity |].
  cbv zeta. unfold OpenFdaClient.fetchLabelCandidates. cbv zeta.
  fold (LabelCache.truthyOpt (match optApiKey with Some k => Some k | None => envApiKey end)).
  destruct (fetch _) as [response|e]; [| reflexivity].
  split; [| split].
  - intros H404. apply Z.eqb_eq in H404. now rewrite H404.
  - intros H404 Hrange. apply Z.eqb_neq in H404. rewrite H404.
    assert (Hout : negb ((200 <=? OpenFdaClient.status response)
                         && (OpenFdaClient.status response <=? 299)) = true).
    { apply negb_true_iff, andb_false_iff.
      destruct Hrange; [left; now apply Z.leb_gt | right; now apply Z.leb_gt]. }
    rewrite Hout.
    exists (Js.slice (OpenFdaClient.text response) 0 200),
           (skipn 200 (OpenFdaClient.text response)).
    split; [reflexivity |]. split.
    + rewrite slice_prefix by lia. symmetry. apply firstn_skipn.
    + pose proof (ChunkFacts.slice_length (OpenFdaClient.text response) 0 200) as Hlen.
      lia.
  - intros Hrange.
    assert (H404 : (OpenFdaClient.status response =? 404) = false)
      by (apply Z.eqb_neq; lia).
    rewrite H404.
    assert (Hin : negb ((200 <=? OpenFdaClient.status response)
                        && (OpenFdaClient.status response <=? 299)) = false).
    { apply negb_false_iff, andb_true_iff. split; apply Z.leb_le; lia. }
    rewrite Hin. reflexivity.
Qed.

(** ** utils.ts *)

(** The chunk around a position is cut from the text, holds at most
    twice the radius, neither begins nor ends with whitespace, and is not
    empty when the radius is positive and the text has a character other
    than whitespace at the position or right before it. *)
Theorem chunk_window (text : Js.str) (index radius : Z) :
  let chunk := Utils.chunkTextAround text index radius in
  Spec.occursIn chunk text
  /\ Js.len chunk <= Z.max 0 (2 * radius)
  /\ (chunk = [] \/ (Spec.opens chunk /\ Spec.closes chunk))
  /\ (forall pre suf,
        text = pre ++ suf -> index = Js.len pre -> 1 <= radius ->
        Spec.opens suf \/ Spec.closes pre -> chunk <> []).
Proof.
  cbv zeta. split; [apply ChunkFacts.chunk_occurs |].
  split; [apply ChunkFacts.chunk_length |].
  split; [apply ChunkFacts.chunk_shape |].
  intros pre suf -> -> Hr Hgood. now apply ChunkFacts.chunk_not_empty.
Qed.

Section KeyShape.
Context `{Js.Host}.

(** A cache key holds lower-case Basic Latin letters, digits, hyphens
    and single spaces only, whatever the engine's [toLowerCase]. *)
Theorem key_alphabet (s : Js.str) :
  Forall (fun c => (97 <= c <= 122 \/ 48 <= c <= 57 \/ c = 45 \/ c = 32)%N)
    (Utils.normalizeForKey s)
  /\ forall pre post, Utils.normalizeForKey s <> pre ++ [Js.space; Js.space] ++ post.
Proof.
  unfold Utils.normalizeForKey.
  set (inner := Js.removeAll Utils.notKeyChar _).
  split.
  - apply List.Forall_forall. intros c Hin.
    apply replaceRuns_In in Hin as [-> | (Hin & Hws)]; [auto |].
    unfold inner, Js.removeAll in Hin. apply filter_In in Hin as (_ & Hkey).
    unfold Utils.notKeyChar in Hkey. rewrite negb_involutive, Hws, orb_false_r in Hkey.
    RegexFacts.unbool Hkey. lia.
  - generalize inner as t. clear inner. intros t.
    assert (Hpair : forall (b : bool) pre post,
              Js.replaceRuns Js.isWhiteSpace b t <> pre ++ [Js.space; Js.space] ++ post
              /\ (b = true -> forall post', Js.replaceRuns Js.isWhiteSpace b t <> Js.space :: post')).
    { induction t as [|c t IH]; intros b pre post.
      - split; [destruct pre; discriminate | discriminate].
      - cbn [Js.replaceRuns]. destruct (Js.isWhiteSpace c) eqn:Hc.
        + destruct b.
          * split; [apply IH | intros _; now apply IH].
          * split; [| discriminate].
            destruct pre as [|p pre]; cbn [app].
            -- intros [= Hrest]. now apply (proj2 (IH true [] [])) in Hrest.
            -- intros [= _ Hrest]. now apply (proj1 (IH true pre post)) in Hrest.
        + split.
          * destruct pre as [|p pre]; cbn [app].
            -- intros [= -> _]. discriminate.
            -- intros [= _ Hrest]. now apply (proj1 (IH false pre post)) in Hrest.
          * intros _ post' [= -> _]. discriminate. }
    intros pre post. apply Hpair.
Qed.

End KeyShape.

(** ** The size of a text in UTF-8 *)

Module Utf8Facts.

Lemma utf8OfCodePoint_length (cp : N) :
  (1 <= List.length (Js.utf8OfCodePoint cp) <= 4)%nat
  /\ ((cp < 65536)%N -> (List.length (Js.utf8OfCodePoint cp) <= 3)%nat)
  /\ ((65536 <= cp)%N -> List.length (Js.utf8OfCodePoint cp) = 4%nat).
Proof.
  unfold Js.utf8OfCodePoint.
  destruct (N.ltb_spec cp 128); [cbn; lia |].
  destruct (N.ltb_spec cp 2048); [cbn; lia |].
  destruct (N.ltb_spec cp 65536); cbn [List.length]; lia.
Qed.

Lemma utf8Encode_bounds (n : nat) (s : Js.str) :
  (List.length s <= n)%nat ->
  (List.length s <= List.length (Js.utf8Encode s))%nat
  /\ (Forall (fun c => (c < 65536)%N) s ->
      (List.length (Js.utf8Encode s) <= 3 * List.length s)%nat).
Proof.
  revert s; induction n as [|n IH]; intros s Hn.
  - destruct s; [cbn; split; lia | cbn in Hn; lia].
  - destruct s as [|c t]; [cbn; split; lia |].
    cbn [List.length] in Hn.
    assert (Ht : (List.length t <= n)%nat) by lia.
    destruct (IH t Ht) as (Hlow & Hup).
    pose proof (utf8OfCodePoint_length c) as (Hc & Hc3 & _).
    cbn [Js.utf8Encode].
    destruct (Js.isHighSurrogate c).
    + destruct t as [|d t'].
      * change (List.length Js.replacementBytes) with 3%nat. cbn [List.length].
        split; [lia | intros _; lia].
      * destruct (Js.isLowSurrogate d).
        -- cbn [List.length] in Ht.
           assert (Ht' : (List.length t' <= n)%nat) by lia.
           destruct (IH t' Ht') as (Hlow' & Hup').
           pose proof (utf8OfCodePoint_length
                         (65536 + N.shiftl (c - 55296) 10 + (d - 56320))) as (_ & _ & Hcp).
           specialize (Hcp ltac:(lia)).
           rewrite length_app, Hcp. cbn [List.length]. split; [lia |].
           intros Hall. inversion Hall as [|? ? _ Hall']; subst.
           inversion Hall' as [|? ? _ Hall'']; subst.
           specialize (Hup' Hall''). lia.
        -- rewrite length_app. change (List.length Js.replacementBytes) with 3%nat.
           cbn [List.length] in *. split; [lia |].
           intros Hall. inversion Hall as [|? ? _ Hall']; subst.
           specialize (Hup Hall'). cbn [List.length] in Hup. lia.
    + destruct (Js.isLowSurrogate c).
      * rewrite length_app. change (List.length Js.replacementBytes) with 3%nat.
           cbn [List.length] in *. split; [lia |].
        intros Hall. inversion Hall as [|? ? _ Hall']; subst.
        specialize (Hup Hall'). lia.
      * rewrite length_app. cbn [List.length]. split; [lia |].
        intros Hall. inversion Hall as [|? ? Hlt Hall']; subst.
        specialize (Hup Hall'). specialize (Hc3 Hlt). lia.
Qed.

End Utf8Facts.

(** A text takes at least one byte per code unit in UTF-8, and at most
    three when its code units are on 16 bits. *)
Theorem bytesUtf8_bounds (s : Js.str) :
  Js.len s <= Utils.bytesUtf8 s
  /\ (Forall (fun c => (c < 65536)%N) s -> Utils.bytesUtf8 s <= 3 * Js.len s).
Proof.
  destruct (Utf8Facts.utf8Encode_bounds (List.length s) s (Nat.le_refl _)) as (Hlow & Hup).
  unfold Utils.bytesUtf8, Js.len. split; [lia |].
  intros Hall. specialize (Hup Hall). lia.
Qed.

(** ** The shape of the content hash *)

Module HashFacts.

#[local] Open Scope N_scope.

Lemma round_length (st : list N) (kw : N * N) :
  List.length (Js.Sha256.round st kw) = List.length st.
Proof.
  destruct st as [|a [|b [|c [|d [|e [|f [|g [|h [|i t]]]]]]]]]; reflexivity.
Qed.

Lemma rounds_length (kws : list (N * N)) (st : list N) :
  List.length (fold_left Js.Sha256.round kws st) = List.length st.
Proof.
  revert st; induction kws as [|kw kws IH]; intros st; cbn [fold_left]; [reflexivity |].
  now rewrite IH, round_length.
Qed.

Lemma compress_length (h block : list N) :
  List.length (Js.Sha256.compress h block) = List.length h.
Proof.
  unfold Js.Sha256.compress. cbv zeta.
  rewrite length_map, length_combine, rounds_length. lia.
Qed.

Lemma blocks_length (fuel : nat) (ws h : list N) :
  List.length (Js.Sha256.blocks fuel ws h) = List.length h.
Proof.
  revert ws h; induction fuel as [|fuel IH]; intros ws h; [reflexivity |].
  destruct ws; cbn [Js.Sha256.blocks]; [reflexivity |].
  now rewrite IH, compress_length.
Qed.

Lemma bigEndian_bytes (n : nat) (x : N) :
  List.length (Js.Sha256.bigEndian n x) = n
  /\ Forall (fun b => b < 256) (Js.Sha256.bigEndian n x).
Proof.
  induction n as [|n (Hlen & Hall)]; cbn [Js.Sha256.bigEndian]; [split; [reflexivity | constructor] |].
  split; [cbn [List.length]; now rewrite Hlen |].
  constructor; [| exact Hall].
  change 255 with (N.ones 8). rewrite N.land_ones. now apply N.mod_lt.
Qed.

Lemma digest_bytes (msg : list N) :
  List.length (Js.Sha256.digest msg) = 32%nat
  /\ Forall (fun b => b < 256) (Js.Sha256.digest msg).
Proof.
  unfold Js.Sha256.digest. cbv zeta.
  set (ws := Js.Sha256.words _ _).
  pose proof (blocks_length (List.length ws) ws Js.Sha256.H0) as Hlen.
  change (List.length Js.Sha256.H0) with 8%nat in Hlen.
  revert Hlen. generalize (Js.Sha256.blocks (List.length ws) ws Js.Sha256.H0) as h.
  intros h Hlen.
  assert (Hgen : forall l : list N,
            List.length (concat (List.map (Js.Sha256.bigEndian 4) l)) = (4 * List.length l)%nat
            /\ Forall (fun b => b < 256) (concat (List.map (Js.Sha256.bigEndian 4) l))).
  { induction l as [|x l (IHlen & IHall)]; [split; [reflexivity | constructor] |].
    cbn [List.map concat]. destruct (bigEndian_bytes 4 x) as (Hx & Hxall).
    split.
    - rewrite length_app, Hx, IHlen. cbn [List.length]. lia.
    - apply List.Forall_app. now split. }
  destruct (Hgen h) as (Hl & Hall). split; [rewrite Hl, Hlen; reflexivity | exact Hall].
Qed.

Lemma hexDigit_range (n : N) :
  n < 16 -> 48 <= Js.hexDigit n <= 57 \/ 97 <= Js.hexDigit n <= 102.
Proof. unfold Js.hexDigit. intros Hn. destruct (N.ltb_spec n 10); lia. Qed.

Lemma hex_shape (bytes : list N) :
  Forall (fun b => b < 256) bytes ->
  List.length (Js.hex bytes) = (2 * List.length bytes)%nat
  /\ Forall (fun c => 48 <= c <= 57 \/ 97 <= c <= 102) (Js.hex bytes).
Proof.
  unfold Js.hex. induction 1 as [|b bytes Hb _ (IHlen & IHall)];
    [split; [reflexivity | constructor] |].
  cbn [List.map concat app List.length]. split; [rewrite IHlen; lia |].
  constructor; [| constructor; [| exact IHall]]; apply hexDigit_range.
  - rewrite N.shiftr_div_pow2. change (2 ^ 4) with 16.
    apply N.Div0.div_lt_upper_bound. lia.
  - change 15 with (N.ones 4). rewrite N.land_ones. now apply N.mod_lt.
Qed.

End HashFacts.

(** A content hash is 64 lower-case hexadecimal digits, whatever the
    text. *)
Theorem sha256Hex_shape (text : Js.str) :
  List.length (Utils.sha256Hex text) = 64%nat
  /\ Forall (fun c => (48 <= c <= 57 \/ 97 <= c <= 102)%N) (Utils.sha256Hex text).
Proof.
  unfold Utils.sha256Hex.
  destruct (HashFacts.digest_bytes (Js.utf8Encode text)) as (Hlen & Hall).
  destruct (HashFacts.hex_shape _ Hall) as (Hhex & Hdigits).
  split; [rewrite Hhex, Hlen; reflexivity | exact Hdigits].
Qed.

(** ** evidence.ts: the canonical text, up to whitespace *)

Module CanonicalFacts.
Import TrimFacts SqueezeFacts.

Lemma first_unit (c : N) (p q r r' : Js.str) :
  ~ In c p -> ~ In c q -> p ++ c :: r = q ++ c :: r' -> p = q /\ r = r'.
Proof.
  revert q; induction p as [|x p IH]; intros [|y q] Hp Hq Heq; cbn in Heq.
  - injection Heq as ->. now split.
  - injection Heq as <- _. destruct Hq. now left.
  - injection Heq as -> _. destruct Hp. now left.
  - injection Heq as -> Heq.
    destruct (IH q) as (-> & ->); auto.
    + intros Hin. apply Hp. now right.
    + intros Hin. apply Hq. now right.
Qed.

Lemma squeeze_one_line (s : Js.str) : ~ In 10%N (Spec.squeeze s).
Proof.
  unfold Spec.squeeze. intros Hin.
  apply (occursIn_In _ _ _ (trim_occurs _)) in Hin.
  apply replaceRuns_In in Hin as [Hsp | (_ & Hws)]; discriminate.
Qed.

Lemma join_cons (sep x : Js.str) (l : list Js.str) :
  l <> [] -> Js.join sep (x :: l) = x ++ sep ++ Js.join sep l.
Proof. destruct l; [congruence | reflexivity]. Qed.

Lemma render_inj (ps ps' : list (Js.str * Js.str)) :
  List.map fst ps = List.map fst ps' ->
  Js.join (Js.newline ++ Js.newline) (List.map Evidence.renderPart ps)
  = Js.join (Js.newline ++ Js.newline) (List.map Evidence.renderPart ps') ->
  List.map (fun p => Spec.squeeze (snd p)) ps = List.map (fun p => Spec.squeeze (snd p)) ps'.
Proof.
  revert ps'; induction ps as [|[t b] ps IH]; intros [|[t' b'] ps'] Htitles Hjoin;
    try discriminate; [reflexivity |].
  cbn [List.map fst] in Htitles. injection Htitles as <- Htitles.
  destruct ps as [|p2 ps], ps' as [|p2' ps']; try discriminate.
  - cbn [List.map Js.join] in Hjoin. rewrite !renderPart_squeeze in Hjoin.
    cbn [fst snd] in Hjoin. apply app_inv_head in Hjoin. cbn [List.map snd]. now f_equal.
  - change (List.map Evidence.renderPart ((t, b) :: p2 :: ps))
      with (Evidence.renderPart (t, b) :: List.map Evidence.renderPart (p2 :: ps)) in Hjoin.
    change (List.map Evidence.renderPart ((t, b') :: p2' :: ps'))
      with (Evidence.renderPart (t, b') :: List.map Evidence.renderPart (p2' :: ps')) in Hjoin.
    rewrite !join_cons in Hjoin by discriminate.
    rewrite (renderPart_squeeze (t, b)), (renderPart_squeeze (t, b')) in Hjoin.
    cbn [fst snd] in Hjoin.
    rewrite <- !app_assoc in Hjoin. apply app_inv_head in Hjoin.
    apply (first_unit 10%N) in Hjoin as (Hbody & Hrest); try apply squeeze_one_line.
    apply (f_equal (@tl N)) in Hrest. cbn [tl app Js.newline] in Hrest.
    change (List.map (fun p => Spec.squeeze (snd p)) ((t, b) :: p2 :: ps))
      with (Spec.squeeze b :: List.map (fun p => Spec.squeeze (snd p)) (p2 :: ps)).
    change (List.map (fun p => Spec.squeeze (snd p)) ((t, b') :: p2' :: ps'))
      with (Spec.squeeze b' :: List.map (fun p => Spec.squeeze (snd p)) (p2' :: ps')).
    f_equal; [exact Hbody |].
    apply (IH (p2' :: ps')); [exact Htitles | exact Hrest].
Qed.

End CanonicalFacts.

(** Two sets of sections have the same canonical text exactly when each
    section is the same in both up to whitespace (runs of whitespace and
    line breaks taken for one space, and none at the ends). *)
Theorem canonical_text_up_to_whitespace (sections1 sections2 : EvidenceSections.t) :
  Evidence.buildCanonicalEvidenceText sections1 = Evidence.buildCanonicalEvidenceText sections2
  <-> forall k, Spec.squeeze (Policy.sectionAt sections1 k)
                = Spec.squeeze (Policy.sectionAt sections2 k).
Proof.
  unfold Evidence.buildCanonicalEvidenceText. split.
  - intros Htext. apply CanonicalFacts.render_inj in Htext; [| reflexivity].
    unfold Evidence.parts in Htext. cbn [List.map snd] in Htext.
    injection Htext as H1 H2 H3 H4 H5 H6 H7 H8 H9 H10 H11 H12.
    intros []; assumption.
  - intros Hsame. unfold Evidence.parts. cbn [List.map].
    rewrite !renderPart_squeeze. cbn [fst snd].
    pose proof (Hsame Policy.activeIngredients) as H1.
    pose proof (Hsame Policy.boxedWarning) as H2.
    pose proof (Hsame Policy.contraindications) as H3.
    pose proof (Hsame Policy.warnings) as H4.
    pose proof (Hsame Policy.warningsAndCautions) as H5.
    pose proof (Hsame Policy.drugInteractions) as H6.
    pose proof (Hsame Policy.pregnancy) as H7.
    pose proof (Hsame Policy.lactation) as H8.
    pose proof (Hsame Policy.pediatricUse) as H9.
    pose proof (Hsame Policy.geriatricUse) as H10.
    pose proof (Hsame Policy.doNotUse) as H11.
    pose proof (Hsame Policy.askDoctor) as H12.
    cbn [Policy.sectionAt] in *.
    now rewrite H1, H2, H3, H4, H5, H6, H7, H8, H9, H10, H11, H12.
Qed.

(** ** policy.ts: the size of what is quoted *)

Section QuoteBounds.
Context `{Js.Host}.

Lemma flat_map_short {A B} (f : A -> list B) (l : list A) :
  (forall x, (List.length (f x) <= 1)%nat) ->
  (List.length (flat_map f l) <= List.length l)%nat.
Proof.
  intros Hf. induction l as [|x l IH]; [reflexivity |].
  cbn [flat_map List.length]. rewrite length_app. specialize (Hf x). lia.
Qed.

Lemma interactionQuotes_length (snapshot : LabelSnapshot.t) (hits : list Js.str) :
  (List.length (Policy.interactionQuotes snapshot hits) <= 3)%nat.
Proof.
  unfold Policy.interactionQuotes.
  etransitivity; [apply flat_map_short |].
  - intros hit. destruct (Policy.quoteAroundSubstring _ hit); cbn; lia.
  - pose proof (ChunkFacts.slice_length hits 0 3) as Hlen. unfold Js.len in Hlen. lia.
Qed.

(** A policy result has at most nine quotes, the six that the rules of
    the table may give and three for the other medications, and each
    quote is a non-empty text of at most 440 code units. *)
Theorem quotes_bounded snapshot profile otherMeds :
  let result := Policy.evaluatePolicy snapshot profile otherMeds in
  (List.length (Policy.PolicyResult.quotes result) <= 9)%nat
  /\ Forall (fun q => EvidenceQuote.quote q <> [] /\ Js.len (EvidenceQuote.quote q) <= 440)
       (Policy.PolicyResult.quotes result).
Proof.
  cbv zeta.
  assert (Hrun : (List.length (Policy.quotes (Policy.runRules snapshot profile otherMeds)) <= 9)%nat
                 /\ Forall (fun q => EvidenceQuote.quote q <> []
                                     /\ Js.len (EvidenceQuote.quote q) <= 440)
                      (Policy.quotes (Policy.runRules snapshot profile otherMeds))).
  { rewrite runRules_quotes. split.
    - rewrite length_app.
      pose proof (loop_quotes_length snapshot profile Policy.BASE_RULES
                    {| Policy.rulesTriggered := []; Policy.quotes := []; Policy.risk := UNKNOWN |})
        as Hbase.
      pose proof (interactionQuotes_length snapshot (Spec.interactionHits snapshot otherMeds)).
      unfold Spec.base. cbn [Policy.quotes List.length Policy.BASE_RULES] in Hbase. lia.
    - apply List.Forall_app. split.
      + unfold Spec.base. apply loop_quotes; [constructor |].
        intros rule quote _ _ Hquote. cbn [EvidenceQuote.quote].
        apply QuoteFacts.extractQuote_spec in Hquote as (Hne & _ & Hlen & _). now split.
      + apply List.Forall_forall. intros q Hq.
        apply interactionQuotes_spec in Hq as (_ & Hopen & Hlen).
        split; [| exact Hlen]. intros Hnil. rewrite Hnil in Hopen. destruct Hopen. }
  rewrite evaluatePolicy_quotes, evaluatePolicy_decision.
  destruct (Policy.quotes (Policy.runRules snapshot profile otherMeds)) as [|q qs] eqn:Hq.
  - assert (Hpreview :
              LabelSnapshot.evidenceText snapshot <> [] ->
              EvidenceQuote.quote (Spec.preview snapshot) <> []
              /\ Js.len (EvidenceQuote.quote (Spec.preview snapshot)) <= 440).
    { intros Hne. unfold Spec.preview. cbn [EvidenceQuote.quote]. split.
      - rewrite slice_prefix by lia.
        destruct (LabelSnapshot.evidenceText snapshot); [congruence | discriminate].
      - pose proof (ChunkFacts.slice_length (LabelSnapshot.evidenceText snapshot) 0 280) as Hlen.
        unfold Js.len in *. rewrite length_app.
        destruct (_ >? 280); cbn [List.length Policy.ellipsis]; lia. }
    destruct (Js.truthy (LabelSnapshot.evidenceText snapshot)) eqn:Htruthy.
    + apply ChunkFacts.truthy_not_nil in Htruthy. specialize (Hpreview Htruthy).
      destruct (Policy.risk _); cbn [List.length]; (split; [lia |]);
        repeat constructor; tauto.
    + cbn [List.length]. split; [lia | constructor].
  - destruct (match Js.truthy _ with true => _ | false => _ end); exact Hrun.
Qed.

End QuoteBounds.

(** ** utils.ts: [firstNonEmpty] *)

(** [firstNonEmpty] returns the first of its arguments that is a string
    with something other than whitespace in it, as it is (not trimmed);
    it returns the empty string exactly when there is none. *)
Theorem firstNonEmpty_first (vals : list (option Js.str)) :
  (Utils.firstNonEmpty vals = [] /\ forall s, In (Some s) vals -> Spec.blank s)
  \/ (exists pre s post,
        vals = pre ++ Some s :: post
        /\ (forall s', In (Some s') pre -> Spec.blank s')
        /\ ~ Spec.blank s
        /\ Utils.firstNonEmpty vals = s).
Proof.
  induction vals as [|v vals IH].
  - left. split; [reflexivity | intros s []].
  - assert (Hskip : (forall s, v = Some s -> Spec.blank s) ->
                    Utils.firstNonEmpty (v :: vals) = Utils.firstNonEmpty vals ->
                    (Utils.firstNonEmpty (v :: vals) = []
                     /\ forall s, In (Some s) (v :: vals) -> Spec.blank s)
                    \/ (exists pre s post,
                          v :: vals = pre ++ Some s :: post
                          /\ (forall s', In (Some s') pre -> Spec.blank s')
                          /\ ~ Spec.blank s
                          /\ Utils.firstNonEmpty (v :: vals) = s)).
    { intros Hv Heq. rewrite Heq.
      destruct IH as [(Hnil & Hall) | (pre & s & post & -> & Hpre & Hs & Hfirst)].
      - left. split; [exact Hnil |]. intros s [-> | Hin]; auto.
      - right. exists (v :: pre), s, post. repeat split; auto.
        intros s' [-> | Hin]; auto. }
    destruct v as [s|]; [| apply Hskip; [discriminate | reflexivity]].
    destruct (Js.trim s) as [|c t] eqn:Htrim.
    + apply Hskip; [| cbn [Utils.firstNonEmpty]; now rewrite Htrim].
      intros s' [= <-].
      destruct (TrimFacts.trim_spec s) as (w1 & w2 & Hs & Hw1 & Hw2 & _).
      rewrite Hs, Htrim. apply TrimFacts.blank_app. now split.
    + right. exists [], s, vals. split; [reflexivity |]. split; [intros s' [] |].
      split; [apply TrimFacts.trim_not_blank; rewrite Htrim; discriminate |].
      cbn [Utils.firstNonEmpty]. rewrite Htrim.
      assert (Hpos : (Js.len (c :: t) >? 0) = true)
        by (apply Z.gtb_lt; unfold Js.len; cbn [List.length]; lia).
      now rewrite Hpos.
Qed.

(** ** The statements at sample data, continued *)

Lemma fired_rule_has_quote_sample :
  exists quote,
    Policy.extractQuote (Js.lit "  may cause stomach bleeding  ")
      (Policy.KeywordRule.pattern Samples.bleedingRule) = Some quote
    /\ quote <> [].
Proof.
  destruct (fired_rule_has_quote Samples.bleedingRule (Js.lit "  may cause stomach bleeding  "))
    as (quote & Hquote & Hne & _).
  - do 3 right. left. reflexivity.
  - vm_compute. reflexivity.
  - exists quote. split; assumption.
Defined.

Lemma decision_by_rules_sample :
  let result :=
    Policy.evaluatePolicy (H := BasicLatin.engine) Samples.pinned None
      (Some [Js.lit "WARFARIN"]) in
  Policy.PolicyResult.decision result = BLOCK
  /\ exists id, In id (Policy.PolicyResult.rulesTriggered result) /\ In id Spec.highRules.
Proof.
  cbv zeta.
  destruct (decision_by_rules (H := BasicLatin.engine) Samples.pinned None
              (Some [Js.lit "WARFARIN"]))
    as (_ & Hblock & _).
  - vm_compute. discriminate.
  - split; [vm_compute; reflexivity |]. apply Hblock. vm_compute. reflexivity.
Defined.

Lemma pregnancy_rule_gated_sample :
  let listed profile :=
    In Policy.PREGNANCY_RISK_LANGUAGE
      (Policy.PolicyResult.rulesTriggered
         (Policy.evaluatePolicy (H := BasicLatin.engine) Samples.naproxenPinned profile None)) in
  listed (Samples.patient (Some pregnant_t2))
  /\ ~ listed (Samples.patient (Some preg_unknown))
  /\ ~ listed (Samples.patient None)
  /\ ~ listed None.
Proof.
  cbv zeta. split; [| split; [| split]].
  - apply (proj1 (pregnancy_rule_gated (H := BasicLatin.engine) Samples.naproxenPinned
                    (Samples.patient (Some pregnant_t2)) None)).
    split; [| vm_compute; reflexivity].
    eexists _, pregnant_t2. split; [reflexivity |]. split; [reflexivity |].
    cbn [In]. auto.
  - apply (proj2 (pregnancy_rule_gated (H := BasicLatin.engine) Samples.naproxenPinned
                    (Samples.patient (Some preg_unknown)) None)).
    right. eexists. split; [reflexivity |]. cbn [RxGuardProfile.pregnancy]. auto.
  - apply (proj2 (pregnancy_rule_gated (H := BasicLatin.engine) Samples.naproxenPinned
                    (Samples.patient None) None)).
    right. eexists. split; [reflexivity |]. cbn [RxGuardProfile.pregnancy]. auto.
  - apply (proj2 (pregnancy_rule_gated (H := BasicLatin.engine) Samples.naproxenPinned
                    None None)).
    now left.
Defined.

Lemma profile_and_cross_check_block_sample :
  let run profile otherMeds :=
    Policy.evaluatePolicy (H := BasicLatin.engine) Samples.naproxenPinned profile otherMeds in
  let listed result id := In id (Policy.PolicyResult.rulesTriggered result) in
  Policy.PolicyResult.decision (run None None) = CAUTION
  /\ (Policy.PolicyResult.decision (run (Samples.patient None) None) = BLOCK
      /\ listed (run (Samples.patient None) None) Policy.PROFILE_ANTICOAGULANT_UPGRADE
      /\ listed (run (Samples.patient None) None) Policy.PROFILE_CKD_UPGRADE)
  /\ (Policy.PolicyResult.decision (run None (Some [Js.lit "Aspirin"])) = BLOCK
      /\ listed (run None (Some [Js.lit "Aspirin"])) Policy.INTERACTION_OTHER_MED_MENTIONED).
Proof.
  cbv zeta. split; [vm_compute; reflexivity |]. split.
  - destruct (profile_and_cross_check_block (H := BasicLatin.engine) Samples.naproxenPinned
                (Samples.patient None) None)
      as (Hanticoagulant & Hkidney & _); [vm_compute; discriminate |].
    destruct Hanticoagulant as ((Hblock & _) & _ & Hupgrade).
    { exists {| RxGuardProfile.age := Some 67;
                RxGuardProfile.sex := Some sex_F;
                RxGuardProfile.pregnancy := None;
                RxGuardProfile.conditions := Some [Js.lit "CKD stage 3"];
                RxGuardProfile.currentMeds := Some [Js.lit "Warfarin 5 mg daily"];
                RxGuardProfile.allergies := None |},
             (Js.lit "Warfarin 5 mg daily"), (Js.lit "warfarin").
      split; [reflexivity |]. split; [left; reflexivity |]. split; [left; reflexivity |].
      apply StrFacts.includes_spec. vm_compute. reflexivity. }
    { vm_compute. reflexivity. }
    destruct Hkidney as (_ & _ & Hckd).
    { exists {| RxGuardProfile.age := Some 67;
                RxGuardProfile.sex := Some sex_F;
                RxGuardProfile.pregnancy := None;
                RxGuardProfile.conditions := Some [Js.lit "CKD stage 3"];
                RxGuardProfile.currentMeds := Some [Js.lit "Warfarin 5 mg daily"];
                RxGuardProfile.allergies := None |},
             (Js.lit "CKD stage 3"), (Js.lit "ckd").
      split; [reflexivity |]. split; [left; reflexivity |]. split; [left; reflexivity |].
      apply StrFacts.includes_spec. vm_compute. reflexivity. }
    { vm_compute. reflexivity. }
    exact (conj Hblock (conj Hupgrade Hckd)).
  - destruct (profile_and_cross_check_block (H := BasicLatin.engine) Samples.naproxenPinned
                None (Some [Js.lit "Aspirin"]))
      as (_ & _ & Hmentioned); [vm_compute; discriminate |].
    assert (Hmed : Spec.otherMedMentioned (H := BasicLatin.engine) Samples.naproxenPinned
                     (Some [Js.lit "Aspirin"])).
    { exists (Js.lit "Aspirin"). split; [left; reflexivity |].
      split; [discriminate |]. split; [vm_compute; discriminate |].
      apply StrFacts.includes_spec. vm_compute. reflexivity. }
    destruct (Hmentioned Hmed) as ((Hblock & _) & Hlisted).
    exact (conj Hblock Hlisted).
Defined.

Lemma verbatim_quote_verified_sample :
  Evidence.quoteExistsInEvidence (H := Collation.engine) Samples.warningText
    (Js.lit "use with Warfarin") = true.
Proof.
  apply (verbatim_quote_verified (H := Collation.engine) Samples.warningText
           (Js.lit "use with Warfarin") collation_lowersAscii).
  - apply ascii_check. reflexivity.
  - exists (Js.lit "=== WARNINGS ===" ++ Js.newline ++ Js.lit "Avoid "), (Js.lit ".").
    reflexivity.
  - apply ChunkFacts.opens_not_blank. reflexivity.
Defined.

Lemma proof_card_keeps_rule_quotes_sample :
  let input := Samples.request (Js.lit "Advil") [Js.lit "WARFARIN"] in
  option_map ProofCard.quotes
    (RxGuard.RxGuardResponse.proofCard
       (RxGuard.answerFromSnapshot (H := Collation.engine) input (Js.lit "Advil")
          Samples.pinned None))
  = Some (Policy.quotes
            (Policy.runRules (H := Collation.engine) Samples.pinned None
               (Some [Js.lit "WARFARIN"])))
  /\ List.length
       (Policy.quotes
          (Policy.runRules (H := Collation.engine) Samples.pinned None
             (Some [Js.lit "WARFARIN"]))) = 2%nat.
Proof.
  cbv zeta. split; [| vm_compute; reflexivity].
  apply (proof_card_keeps_rule_quotes (H := Collation.engine)
           (Samples.request (Js.lit "Advil") [Js.lit "WARFARIN"]) (Js.lit "Advil")
           Samples.pinned None collation_lowersAscii).
  - apply (plain_check Samples.ibuprofen); vm_compute; reflexivity.
  - vm_compute. discriminate.
Defined.

Lemma empty_card_only_by_cross_check_sample :
  let response :=
    RxGuard.answerFromSnapshot (H := Collation.engine)
      (Samples.request (Js.lit "Aspirin") [Js.lit "aspirin tablets"]) (Js.lit "Aspirin")
      Samples.padded None in
  RxGuard.RxGuardResponse.decision response = BLOCK
  /\ option_map RxGuard.rulesTriggered (RxGuard.RxGuardResponse.debug response)
     = Some [Policy.INTERACTION_OTHER_MED_MENTIONED].
Proof.
  apply (empty_card_only_by_cross_check (H := Collation.engine)
           (Samples.request (Js.lit "Aspirin") [Js.lit "aspirin tablets"]) (Js.lit "Aspirin")
           Samples.padded None collation_lowersAscii).
  - apply (plain_check Samples.paddedInteractions); vm_compute; reflexivity.
  - left. vm_compute. reflexivity.
  - vm_compute. reflexivity.
Defined.

Lemma resolution_memoized_sample :
  let first :=
    LabelCache.resolveDrugToPinnedLabel (H := BasicLatin.engine)
      (Samples.source [Samples.ibuprofen]) None (Js.lit "Advil") Samples.emptyStores in
  let later := Spec.facing Samples.indexDown (snd first) in
  fst first = Js.Return Samples.advil
  /\ LabelCache.resolveDrugToPinnedLabel (H := BasicLatin.engine)
       Samples.unreachable None (Js.lit "Advil") later
     = (Js.Return Samples.advil, later).
Proof.
  cbv zeta.
  set (first := LabelCache.resolveDrugToPinnedLabel (H := BasicLatin.engine)
                  (Samples.source [Samples.ibuprofen]) None (Js.lit "Advil")
                  Samples.emptyStores).
  assert (Hfirst : first = (Js.Return Samples.advil, snd first)) by (vm_compute; reflexivity).
  split; [now rewrite Hfirst |].
  exact (resolution_memoized (H := BasicLatin.engine) (Samples.source [Samples.ibuprofen]) None
           (Js.lit "Advil") Samples.emptyStores (snd first) Samples.advil Hfirst eq_refl
           Samples.unreachable None Samples.indexDown).
Defined.



Lemma answer_ends_with_disclaimer_sample :
  exists response body,
    fst (RxGuard.rxguardAnswer (H := BasicLatin.engine)
           (Samples.source [Samples.ibuprofen]) None Samples.noBaseline
           (Samples.request (Js.lit "Advil") [Js.lit "WARFARIN"]) Samples.emptyStores)
    = Js.Return response
    /\ RxGuard.RxGuardResponse.message response = body ++ RxGuard.disclaimer.
Proof.
  set (answer := RxGuard.rxguardAnswer (H := BasicLatin.engine)
                   (Samples.source [Samples.ibuprofen]) None Samples.noBaseline
                   (Samples.request (Js.lit "Advil") [Js.lit "WARFARIN"]) Samples.emptyStores).
  assert (Hanswer : exists response, answer = (Js.Return response, snd answer)).
  { vm_compute. eexists. reflexivity. }
  destruct Hanswer as (response & Hanswer).
  destruct (answer_ends_with_disclaimer (H := BasicLatin.engine)
              (Samples.source [Samples.ibuprofen]) None Samples.noBaseline
              (Samples.request (Js.lit "Advil") [Js.lit "WARFARIN"]) Samples.emptyStores
              (snd answer) response Hanswer)
    as (body & Hbody).
  exists response, body. split; [now rewrite Hanswer | exact Hbody].
Defined.

Lemma answer_coherent_sample :
  (let answer :=
     RxGuard.rxguardAnswer (H := BasicLatin.engine)
       (Samples.source [Samples.ibuprofen]) None Samples.noBaseline
       (Samples.request (Js.lit "Advil") [Js.lit "WARFARIN"]) Samples.emptyStores in
   exists response,
     fst answer = Js.Return response
     /\ RxGuard.RxGuardResponse.decision response = BLOCK
     /\ RxGuard.RxGuardResponse.risk response = HIGH
     /\ RxGuard.RxGuardResponse.clarifyingQuestion response = None)
  /\ (let answer :=
        RxGuard.rxguardAnswer (H := BasicLatin.engine)
          Samples.unreachable None Samples.noBaseline
          (Samples.request (Js.lit "Advil") []) Samples.emptyStores in
      fst answer = Js.Throw Js.TypeError
      /\ LabelCache.resolveDrugToPinnedLabel (H := BasicLatin.engine)
           Samples.unreachable None (Js.lit "Advil") Samples.emptyStores
         = (Js.Throw Js.TypeError, snd answer)).
Proof.
  split; cbv zeta.
  - set (answer := RxGuard.rxguardAnswer (H := BasicLatin.engine)
                     (Samples.source [Samples.ibuprofen]) None Samples.noBaseline
                     (Samples.request (Js.lit "Advil") [Js.lit "WARFARIN"])
                     Samples.emptyStores).
    destruct (answer_coherent (H := BasicLatin.engine)
                (Samples.source [Samples.ibuprofen]) None Samples.noBaseline
                (Samples.request (Js.lit "Advil") [Js.lit "WARFARIN"]) Samples.emptyStores
                (snd answer) (fst answer) (surjective_pairing answer))
      as (Hfields & _).
    assert (Hanswer : exists response,
               fst answer = Js.Return response
               /\ RxGuard.RxGuardResponse.decision response = BLOCK)
      by (eexists; split; vm_compute; reflexivity).
    destruct Hanswer as (response & Hresponse & Hblock).
    destruct (Hfields response Hresponse) as (Hhigh & _ & _ & Hquestion & _).
    exists response. split; [exact Hresponse |]. split; [exact Hblock |].
    split; [now apply Hhigh |].
    destruct (RxGuard.RxGuardResponse.clarifyingQuestion response) as [question|];
      [| reflexivity].
    assert (Hclarify : RxGuard.RxGuardResponse.decision response = CLARIFY)
      by (apply Hquestion; discriminate).
    rewrite Hblock in Hclarify. discriminate Hclarify.
  - set (answer := RxGuard.rxguardAnswer (H := BasicLatin.engine)
                     Samples.unreachable None Samples.noBaseline
                     (Samples.request (Js.lit "Advil") []) Samples.emptyStores).
    assert (Hthrow : fst answer = Js.Throw Js.TypeError) by (vm_compute; reflexivity).
    split; [exact Hthrow |].
    destruct (answer_coherent (H := BasicLatin.engine)
                Samples.unreachable None Samples.noBaseline
                (Samples.request (Js.lit "Advil") []) Samples.emptyStores
                (snd answer) (fst answer) (surjective_pairing answer))
      as (_ & Hexn).
    exact (Hexn Js.TypeError Hthrow).
Defined.

Lemma choice_independent_of_order_sample :
  OpenFdaClient.chooseDeterministicRecord (H := BasicLatin.engine) Samples.candidates
  = OpenFdaClient.chooseDeterministicRecord (H := BasicLatin.engine) (rev Samples.candidates).
Proof.
  apply (choice_independent_of_order (H := BasicLatin.engine)).
  - apply Permutation_rev.
  - intros a b Ha Hb Htie. unfold Samples.candidates in Ha, Hb. cbn [In] in Ha, Hb.
    destruct Ha as [<- | [<- | [<- | []]]]; destruct Hb as [<- | [<- | [<- | []]]];
      first [reflexivity | vm_compute in Htie; discriminate Htie].
Defined.

Lemma ingredient_order_irrelevant_sample :
  OpenFdaClient.ambiguous
    (OpenFdaClient.detectAmbiguity (H := BasicLatin.engine)
       [Samples.twoIngredients; Samples.swapped])
  = false.
Proof.
  apply (ingredient_order_irrelevant (H := BasicLatin.engine)
           [Samples.twoIngredients; Samples.swapped]).
  intros a b [<- | [<- | []]] [<- | [<- | []]]; cbn [default];
    first [reflexivity | apply perm_swap].
Defined.

